(** * Pricing tool: reference-data cache and quote engine

    A shallow embedding of [backend/app/main.py]: the [DataStore] cache
    (parsing, [refresh_once], [ensure_fresh]) and the quote functions
    ([_resolve_uplifts], [_calculate_sku_quote], [quote]).  The first part
    holds the definitions, the second part ("Verification") the proofs.

    Conventions of the embedding.
    - A Python [float] is a binary64 value: Rocq's primitive [float], with the
      same rounding, infinities and NaN.  Comparisons are the IEEE ones
      ([<?], [<=?], [=?]), so every comparison with NaN is [false].
    - A Python [str] is a [string] of code points below 256.
    - A Python [dict] is an insertion-ordered association list ([Dict]): an
      assignment to a present key keeps the key's position, an assignment to
      an absent key appends.
    - An exception is a value of [exn]; a computation that may raise returns
      a [result].
    - The cache methods run in a state and exception monad [M] over the
      store and the world: the environment variables, the outcome of each
      HTTP request, the clock, and the trace of effects.
    - The builtin [float(text)] is a parameter, [float_of_str]; the examples
      instantiate it with a reading of plain decimal literals. *)

From Stdlib Require Import ZArith Lia Bool List String Ascii.
From Stdlib Require Import Floats Sorted Permutation.
Import ListNotations.

Set Warnings "-inexact-float".
Set Implicit Arguments.

Open Scope string_scope.
Open Scope list_scope.

(* ================================================================= *)
(** ** Python strings *)

Module PyStr.

(** [str.isspace] on code points below 256. *)
Definition is_space (c : ascii) : bool :=
  let n := nat_of_ascii c in
  ((9 <=? n) && (n <=? 13) || (28 <=? n) && (n <=? 32)
   || (n =? 133) || (n =? 160))%nat.

Fixpoint lstrip (s : string) : string :=
  match s with
  | EmptyString => EmptyString
  | String c s' => if is_space c then lstrip s' else s
  end.

Fixpoint rstrip (s : string) : string :=
  match s with
  | EmptyString => EmptyString
  | String c s' =>
      match rstrip s' with
      | EmptyString => if is_space c then EmptyString else String c EmptyString
      | t => String c t
      end
  end.

(** [s.strip()] *)
Definition strip (s : string) : string := rstrip (lstrip s).

Definition lower_char (c : ascii) : ascii :=
  let n := nat_of_ascii c in
  if ((65 <=? n) && (n <=? 90)
      || (192 <=? n) && (n <=? 222) && negb (n =? 215))%nat
  then ascii_of_nat (n + 32) else c.

(** [s.lower()] *)
Fixpoint lower (s : string) : string :=
  match s with
  | EmptyString => EmptyString
  | String c s' => String (lower_char c) (lower s')
  end.

(** [s.replace(c, empty)] for a one-character [c]. *)
Fixpoint remove_char (c : ascii) (s : string) : string :=
  match s with
  | EmptyString => EmptyString
  | String c' s' =>
      if Ascii.eqb c' c then remove_char c s' else String c' (remove_char c s')
  end.

(** Truthiness of a [str]: the empty string is falsy. *)
Definition truthy (s : string) : bool :=
  match s with EmptyString => false | _ => true end.

Fixpoint all_space (s : string) : bool :=
  match s with
  | EmptyString => true
  | String c s' => is_space c && all_space s'
  end.

End PyStr.

(* ================================================================= *)
(** ** Python dictionaries keyed by strings *)

Module Dict.
Section Defs.
Variable V : Type.

Definition t := list (string * V).

Definition empty : t := [].

(** [d.get(k)] *)
Fixpoint get (k : string) (d : t) : option V :=
  match d with
  | [] => None
  | (k', v) :: d' => if String.eqb k' k then Some v else get k d'
  end.

(** [d.get(k, default)] *)
Definition get_default (k : string) (default : V) (d : t) : V :=
  match get k d with Some v => v | None => default end.

(** [k in d] *)
Definition contains (k : string) (d : t) : bool :=
  match get k d with Some _ => true | None => false end.

(** [d[k] = v] *)
Fixpoint set (k : string) (v : V) (d : t) : t :=
  match d with
  | [] => [(k, v)]
  | (k', v') :: d' =>
      if String.eqb k' k then (k', v) :: d' else (k', v') :: set k v d'
  end.

Definition keys (d : t) : list string := map fst d.
Definition values (d : t) : list V := map snd d.
Definition items (d : t) : list (string * V) := d.

End Defs.

Arguments empty {V}.
End Dict.

(* ================================================================= *)
(** ** Exceptions *)

(** The [detail] of an [HTTPException] raised by the request handlers. *)
Inductive detail : Type :=
| Unknown_uplifts (missing : list string)
| Unknown_sku_code (sku_code : string)
| Sku_code_required
| Quantity_must_be_positive
| Use_case_required
| Use_case_not_found (use_case : string)
| Hours_must_be_positive
| Bad_mode.

Inductive exn : Type :=
| RuntimeError                       (* missing environment variables *)
| HTTPError (url : string)           (* httpx: status error or timeout *)
| KeyError (key : string)            (* row[key] on an absent column *)
| ValueError (text : string)         (* float(text) on a non-number *)
| ZeroDivisionError
| HTTPException (status_code : nat) (d : detail).

Inductive result (A : Type) : Type :=
| Ok (a : A)
| Raise (e : exn).

Arguments Ok {A} a.
Arguments Raise {A} e.

Definition bind {A B : Type} (r : result A) (k : A -> result B) : result B :=
  match r with
  | Ok a => k a
  | Raise e => Raise e
  end.

Notation "x <- r ;; k" := (bind r (fun x => k))
  (at level 61, r at next level, right associativity).

Definition is_ok {A : Type} (r : result A) : bool :=
  match r with Ok _ => true | Raise _ => false end.

(** Sequential evaluation of a list of computations, left to right, stopping
    at the first exception (a list or dict comprehension). *)
Fixpoint traverse {A B : Type} (f : A -> result B) (l : list A) : result (list B) :=
  match l with
  | [] => Ok []
  | a :: l' => b <- f a ;; bs <- traverse f l' ;; Ok (b :: bs)
  end.

(* ================================================================= *)
(** ** Python float operations *)

Module PyFloat.
Open Scope float_scope.

(** [x / y]: division by zero (of either sign) raises. *)
Definition div (x y : float) : result float :=
  if y =? 0 then Raise ZeroDivisionError else Ok (x / y).

(** [sum(xs)]: the terms are added left to right, starting from zero.
    (CPython 3.12 and later carry a compensation term along; the result is
    the same on lists of at most two terms.) *)
Definition sum (xs : list float) : float := fold_left PrimFloat.add xs 0.

(** [x > y] *)
Definition gtb (x y : float) : bool := y <? x.

(** [x >= y] *)
Definition geb (x y : float) : bool := y <=? x.
End PyFloat.

(* ================================================================= *)
(** ** Data model *)

Module SKU.
Record t : Type := mk {
  sku_code : string;
  name : string;
  unit_label : string;
  base_unit_price : float;
  unit : float
}.
End SKU.

Module VolumeDiscount.
Record t : Type := mk {
  min_units : float;
  discount_decimal : float
}.
End VolumeDiscount.

Module Uplift.
Record t : Type := mk {
  uplift_name : string;
  percent_decimal : float;
  enabled : bool
}.
End Uplift.

Module QuoteRequest.
Record t : Type := mk {
  mode : string;
  sku_code : option string;
  quantity : option float;
  use_case : option string;
  hours : option float;
  customer : option string;
  gpu_type : option string;
  region : option string;
  rank_results_by : option string;
  uplift_names : option (list string)
}.
End QuoteRequest.

(** The fields of a [DataStore] instance (the lock is part of the
    concurrent model below). *)
Record DataStore : Type := mkStore {
  skus : Dict.t SKU.t;
  volume_discounts : list VolumeDiscount.t;
  uplifts : Dict.t Uplift.t;
  use_case_mappings : Dict.t (Dict.t float);
  use_cases : list string;
  last_refresh_utc : option float
}.

(** [DataStore.__init__] *)
Definition init_store : DataStore :=
  mkStore Dict.empty [] Dict.empty Dict.empty [] None.

(* ================================================================= *)
(** ** Quote engine *)

(** The dictionary returned by [_calculate_sku_quote]. *)
Module SkuQuote.
Record t : Type := mk {
  sku_code : string;
  sku_name : string;
  unit_label : string;
  quantity_raw : float;
  unit_multiplier : float;
  relative_units : float;
  base_unit_price : float;
  base_cost : float;
  discount_decimal : float;
  discounted_cost : float;
  uplift_decimal : float;
  final_cost : float;
  applied_uplifts : list (string * float)
}.
End SkuQuote.

(** One entry of the use-case breakdown. *)
Module Line.
Record t : Type := mk {
  sku_code : string;
  sku_name : string;
  unit_label : string;
  units_per_hour : float;
  units_total : float;
  cost_usd : float
}.
End Line.

Module UseCaseQuote.
Record t : Type := mk {
  use_case : string;
  hours : float;
  grand_total_usd : float;
  breakdown : list Line.t
}.
End UseCaseQuote.

Inductive response : Type :=
| SkuResponse (q : SkuQuote.t)
| UseCaseResponse (q : UseCaseQuote.t).

Section QuoteEngine.
Open Scope float_scope.

Variable store : DataStore.

(** [[name for name in uplift_names if name not in store.uplifts]] *)
Definition missing_names (uplift_names : list string) : list string :=
  filter (fun name => negb (Dict.contains name (uplifts store))) uplift_names.

(** [_resolve_uplifts] *)
Definition _resolve_uplifts (uplift_names : option (list string))
  : result (list Uplift.t) :=
  match uplift_names with
  | None => Ok (filter Uplift.enabled (Dict.values (uplifts store)))
  | Some names =>
      let missing := missing_names names in
      match missing with
      | _ :: _ => Raise (HTTPException 400 (Unknown_uplifts missing))
      | [] =>
          traverse (fun name =>
                      match Dict.get name (uplifts store) with
                      | Some u => Ok u
                      | None => Raise (KeyError name)
                      end) names
      end
  end.

(** One iteration of the discount loop of [_calculate_sku_quote]. *)
Definition discount_step (relative_units : float)
           (discount_decimal : float) (d : VolumeDiscount.t) : float :=
  if (VolumeDiscount.min_units d <=? relative_units)
     && PyFloat.gtb (VolumeDiscount.discount_decimal d) discount_decimal
  then VolumeDiscount.discount_decimal d
  else discount_decimal.

(** The discount loop of [_calculate_sku_quote]. *)
Definition select_discount (ds : list VolumeDiscount.t) (relative_units : float)
  : float :=
  fold_left (discount_step relative_units) ds 0.

(** [_calculate_sku_quote] *)
Definition _calculate_sku_quote (sku_code : string) (quantity : float)
           (uplift_names : option (list string)) : result SkuQuote.t :=
  match Dict.get sku_code (skus store) with
  | None => Raise (HTTPException 404 (Unknown_sku_code sku_code))
  | Some sku =>
      relative_units <- PyFloat.div quantity (SKU.unit sku) ;;
      let base_cost := relative_units * SKU.base_unit_price sku in
      let discount_decimal :=
        select_discount (volume_discounts store) relative_units in
      let discounted_cost := base_cost * (1 - discount_decimal) in
      selected_uplifts <- _resolve_uplifts uplift_names ;;
      let uplift_decimal :=
        PyFloat.sum (map Uplift.percent_decimal selected_uplifts) in
      let final_cost := discounted_cost * (1 + uplift_decimal) in
      Ok (SkuQuote.mk (SKU.sku_code sku) (SKU.name sku) (SKU.unit_label sku)
            quantity (SKU.unit sku) relative_units (SKU.base_unit_price sku)
            base_cost discount_decimal discounted_cost uplift_decimal
            final_cost
            (map (fun u => (Uplift.uplift_name u, Uplift.percent_decimal u))
                 selected_uplifts))
  end.

(** [breakdown.sort(key=cost_usd, reverse=True)].  The sort is stable and
    compares keys with [<] only; on keys without NaN its result is the one
    stable descending arrangement, which this insertion sort computes.  With
    a NaN key [<] is no order, and the arrangement [list.sort] returns then
    depends on how it finds and merges runs: it is a rearrangement of the
    list, but not in general the one computed here.  Nothing below relies on
    the arrangement of a list with a NaN key beyond its being a
    rearrangement. *)
Fixpoint insert_desc (x : Line.t) (l : list Line.t) : list Line.t :=
  match l with
  | [] => [x]
  | y :: l' =>
      if Line.cost_usd x <? Line.cost_usd y
      then y :: insert_desc x l'
      else x :: l
  end.

Definition sort_cost_desc (l : list Line.t) : list Line.t :=
  fold_right insert_desc [] l.

(** The body of the mapping loop of [quote] for one item; [None] is
    [continue]. *)
Definition use_case_line (use_case : string) (hours : float)
           (uplift_names : option (list string))
           (item : string * Dict.t float) : result (option Line.t) :=
  let (sku_code, per_use_case) := item in
  let units_per_hour := Dict.get_default use_case 0 per_use_case in
  let units_total := units_per_hour * hours in
  if units_total <=? 0 then Ok None
  else if negb (Dict.contains sku_code (skus store)) then Ok None
  else
    sku_quote <- _calculate_sku_quote sku_code units_total uplift_names ;;
    Ok (Some (Line.mk sku_code (SkuQuote.sku_name sku_quote)
                (SkuQuote.unit_label sku_quote)
                units_per_hour units_total (SkuQuote.final_cost sku_quote))).

(** The mapping loop of [quote]: the state is the pair
    [(breakdown, grand_total_usd)]. *)
Fixpoint use_case_loop (use_case : string) (hours : float)
         (uplift_names : option (list string))
         (items : list (string * Dict.t float))
         (breakdown : list Line.t) (grand_total_usd : float)
  : result (list Line.t * float) :=
  match items with
  | [] => Ok (breakdown, grand_total_usd)
  | item :: items' =>
      line <- use_case_line use_case hours uplift_names item ;;
      match line with
      | None =>
          use_case_loop use_case hours uplift_names items'
                        breakdown grand_total_usd
      | Some l =>
          use_case_loop use_case hours uplift_names items'
                        (breakdown ++ [l]) (grand_total_usd + Line.cost_usd l)
      end
  end.

(** The body of [quote] after [ensure_fresh]: the computation on the
    current snapshot. *)
Definition quote_on_snapshot (payload : QuoteRequest.t) : result response :=
  if String.eqb (QuoteRequest.mode payload) "sku" then
    match QuoteRequest.sku_code payload with
    | None | Some EmptyString => Raise (HTTPException 400 Sku_code_required)
    | Some sku_code =>
        match QuoteRequest.quantity payload with
        | None => Raise (HTTPException 400 Quantity_must_be_positive)
        | Some quantity =>
            if quantity <=? 0
            then Raise (HTTPException 400 Quantity_must_be_positive)
            else q <- _calculate_sku_quote sku_code quantity
                        (QuoteRequest.uplift_names payload) ;;
                 Ok (SkuResponse q)
        end
    end
  else if String.eqb (QuoteRequest.mode payload) "use_case" then
    match QuoteRequest.use_case payload with
    | None | Some EmptyString => Raise (HTTPException 400 Use_case_required)
    | Some use_case =>
        if negb (existsb (String.eqb use_case) (use_cases store))
        then Raise (HTTPException 400 (Use_case_not_found use_case))
        else
          match QuoteRequest.hours payload with
          | None => Raise (HTTPException 400 Hours_must_be_positive)
          | Some hours =>
              if hours <=? 0
              then Raise (HTTPException 400 Hours_must_be_positive)
              else
                r <- use_case_loop use_case hours
                       (QuoteRequest.uplift_names payload)
                       (Dict.items (use_case_mappings store)) [] 0 ;;
                let (breakdown, grand_total_usd) := r in
                Ok (UseCaseResponse
                      (UseCaseQuote.mk use_case hours grand_total_usd
                         (sort_cost_desc breakdown)))
          end
    end
  else Raise (HTTPException 400 Bad_mode).

End QuoteEngine.

(* ================================================================= *)
(** ** The outside world of the cache *)

(** A row as [csv.DictReader] yields it: header to cell, the cell of a short
    line being [None].  (A line longer than the header is outside the model:
    its extra cells are filed under the key [None], on which [k.strip()]
    raises.) *)
Definition raw_row : Type := list (string * option string).

(** A row as [_fetch_csv] returns it. *)
Definition row : Type := Dict.t string.

Inductive event : Type :=
| EvAcquire                  (* the refresh lock is taken *)
| EvRelease                  (* the refresh lock is released *)
| EvGet (url : string).      (* an HTTP GET is issued *)

Record World : Type := mkWorld {
  environ : Dict.t string;                       (* os.environ *)
  http_get : string -> result (list raw_row);    (* GET, status check, DictReader *)
  clock : nat -> float;                          (* successive readings of time.time() *)
  ticks : nat;                                   (* readings taken so far *)
  trace : list event                             (* effects performed so far *)
}.

Definition log (e : event) (w : World) : World :=
  mkWorld (environ w) (http_get w) (clock w) (ticks w) (trace w ++ [e]).

Definition tick (w : World) : World :=
  mkWorld (environ w) (http_get w) (clock w) (S (ticks w)) (trace w).

(** [os.getenv(name)] *)
Definition getenv (env : Dict.t string) (name : string) : option string :=
  Dict.get name env.

(** [REFRESH_SECONDS] *)
Definition REFRESH_SECONDS : float := 600%float.

(** ** A state and exception monad over the cache and the world *)

Definition M (A : Type) : Type :=
  DataStore * World -> result A * (DataStore * World).

Definition ret {A : Type} (a : A) : M A := fun sw => (Ok a, sw).

Definition raise {A : Type} (e : exn) : M A := fun sw => (Raise e, sw).

Definition bindM {A B : Type} (m : M A) (k : A -> M B) : M B :=
  fun sw =>
    match m sw with
    | (Ok a, sw') => k a sw'
    | (Raise e, sw') => (Raise e, sw')
    end.

Notation "x <~ m ;; k" := (bindM m (fun x => k))
  (at level 61, m at next level, right associativity).
Notation "m ;;; k" := (bindM m (fun _ => k))
  (at level 61, right associativity).

(** A pure computation that may raise. *)
Definition lift {A : Type} (r : result A) : M A := fun sw => (r, sw).

Definition get_store : M DataStore := fun sw => (Ok (fst sw), sw).

Definition get_world : M World := fun sw => (Ok (snd sw), sw).

Definition modify_store (f : DataStore -> DataStore) : M unit :=
  fun sw => (Ok tt, (f (fst sw), snd sw)).

Definition modify_world (f : World -> World) : M unit :=
  fun sw => (Ok tt, (fst sw, f (snd sw))).

(** [time.time()] *)
Definition time_time : M float :=
  fun sw => (Ok (clock (snd sw) (ticks (snd sw))), (fst sw, tick (snd sw))).

(** [try: m finally: h] *)
Definition finally {A : Type} (m : M A) (h : M unit) : M A :=
  fun sw =>
    match m sw with
    | (r, sw') => (r, snd (h sw'))
    end.

(** Assignments to the fields of [self]. *)
Definition set_skus (v : Dict.t SKU.t) (s : DataStore) : DataStore :=
  mkStore v (volume_discounts s) (uplifts s) (use_case_mappings s)
          (use_cases s) (last_refresh_utc s).
Definition set_volume_discounts (v : list VolumeDiscount.t) (s : DataStore) : DataStore :=
  mkStore (skus s) v (uplifts s) (use_case_mappings s)
          (use_cases s) (last_refresh_utc s).
Definition set_uplifts (v : Dict.t Uplift.t) (s : DataStore) : DataStore :=
  mkStore (skus s) (volume_discounts s) v (use_case_mappings s)
          (use_cases s) (last_refresh_utc s).
Definition set_use_case_mappings (v : Dict.t (Dict.t float)) (s : DataStore) : DataStore :=
  mkStore (skus s) (volume_discounts s) (uplifts s) v
          (use_cases s) (last_refresh_utc s).
Definition set_use_cases (v : list string) (s : DataStore) : DataStore :=
  mkStore (skus s) (volume_discounts s) (uplifts s) (use_case_mappings s)
          v (last_refresh_utc s).
Definition set_last_refresh_utc (v : option float) (s : DataStore) : DataStore :=
  mkStore (skus s) (volume_discounts s) (uplifts s) (use_case_mappings s)
          (use_cases s) v.

(** What one refresh parses out of the four tables. *)
Record Parsed : Type := mkParsed {
  parsed_skus : Dict.t SKU.t;
  parsed_discounts : list VolumeDiscount.t;
  parsed_uplifts : Dict.t Uplift.t;
  parsed_use_case_mappings : Dict.t (Dict.t float);
  parsed_use_cases : list string
}.

(** The five assignments that close [refresh_once], in source order. *)
Definition install (p : Parsed) (s : DataStore) : DataStore :=
  set_use_cases (parsed_use_cases p)
    (set_use_case_mappings (parsed_use_case_mappings p)
       (set_uplifts (parsed_uplifts p)
          (set_volume_discounts (parsed_discounts p)
             (set_skus (parsed_skus p) s)))).

(** The staleness test of [ensure_fresh]. *)
Definition stale (now : float) (last : option float) : bool :=
  match last with
  | None => true
  | Some t => PyFloat.geb (now - t)%float REFRESH_SECONDS
  end.

(* ================================================================= *)
(** ** The cache: parsing and refresh *)

Module DataStoreOps.
Section WithFloat.

(** The builtin [float(text)]: [None] is [ValueError]. *)
Variable float_of_str : string -> option float.

(** The dict comprehension of [_fetch_csv] on one row. *)
Definition clean_row (r : raw_row) : row :=
  fold_left
    (fun d kv =>
       Dict.set (PyStr.strip (fst kv))
                (PyStr.strip (match snd kv with Some v => v | None => EmptyString end))
                d)
    r Dict.empty.

(** The two halves of [_fetch_csv]: the GET is issued; the response arrives,
    its status is checked, its rows are read and cleaned. *)
Definition send (url : string) : M unit :=
  modify_world (log (EvGet url)).

Definition receive (url : string) : M (list row) :=
  w <~ get_world ;;
  rows <~ lift (http_get w url) ;;
  ret (map clean_row rows).

(** [_fetch_csv] *)
Definition _fetch_csv (url : string) : M (list row) :=
  send url ;;; receive url.

(** [_parse_bool] *)
Definition _parse_bool (value : string) : bool :=
  existsb (String.eqb (PyStr.lower (PyStr.strip value)))
          ["true"; "1"; "yes"; "y"].

(** [_parse_float] *)
Definition _parse_float (value : string) : result float :=
  let cleaned :=
    PyStr.remove_char "%"
      (PyStr.remove_char "$" (PyStr.remove_char "," (PyStr.strip value))) in
  if String.eqb cleaned EmptyString then Ok 0%float
  else match float_of_str cleaned with
       | Some x => Ok x
       | None => Raise (ValueError cleaned)
       end.

(** [row[key]] *)
Definition getitem (r : row) (key : string) : result string :=
  match Dict.get key r with
  | Some v => Ok v
  | None => Raise (KeyError key)
  end.

(** The dict comprehension of [_parse_use_case_mappings] on one row. *)
Fixpoint parse_cells (r : row) (use_cases : list string) (acc : Dict.t float)
  : result (Dict.t float) :=
  match use_cases with
  | [] => Ok acc
  | use_case :: rest =>
      v <- _parse_float (Dict.get_default use_case EmptyString r) ;;
      parse_cells r rest (Dict.set use_case v acc)
  end.

(** [(row.get("SKU Code") or empty).strip()] *)
Definition row_sku_code (r : row) : string :=
  PyStr.strip (Dict.get_default "SKU Code" EmptyString r).

(** The row loop of [_parse_use_case_mappings]. *)
Fixpoint mapping_loop (use_cases : list string) (rows : list row)
         (parsed : Dict.t (Dict.t float)) : result (Dict.t (Dict.t float)) :=
  match rows with
  | [] => Ok parsed
  | r :: rows' =>
      let sku_code := row_sku_code r in
      if negb (PyStr.truthy sku_code) then mapping_loop use_cases rows' parsed
      else
        entry <- parse_cells r use_cases Dict.empty ;;
        mapping_loop use_cases rows' (Dict.set sku_code entry parsed)
  end.

(** [_parse_use_case_mappings] *)
Definition _parse_use_case_mappings (rows : list row)
  : result (Dict.t (Dict.t float) * list string) :=
  match rows with
  | [] => Ok (Dict.empty, [])
  | row0 :: _ =>
      let headers := Dict.keys row0 in
      let use_cases :=
        filter (fun h => negb (String.eqb h "SKU Code")) headers in
      parsed <- mapping_loop use_cases rows Dict.empty ;;
      Ok (parsed, use_cases)
  end.

(** One price-list row. *)
Definition parse_sku (r : row) : result SKU.t :=
  sku_code <- getitem r "SKU Code" ;;
  name <- getitem r "Name" ;;
  unit_label <- getitem r "Unit Label" ;;
  price_text <- getitem r "Base Unit Price (USD)" ;;
  base_unit_price <- _parse_float price_text ;;
  unit_text <- getitem r "Unit" ;;
  unit <- _parse_float unit_text ;;
  Ok (SKU.mk sku_code name unit_label base_unit_price unit).

Fixpoint parse_skus (rows : list row) (acc : Dict.t SKU.t)
  : result (Dict.t SKU.t) :=
  match rows with
  | [] => Ok acc
  | r :: rows' =>
      sku <- parse_sku r ;;
      parse_skus rows' (Dict.set (SKU.sku_code sku) sku acc)
  end.

(** One volume-discount row. *)
Definition parse_discount (r : row) : result VolumeDiscount.t :=
  min_text <- getitem r "Min Units (Relative)" ;;
  min_units <- _parse_float min_text ;;
  discount_text <- getitem r "Discount % (as decimal)" ;;
  discount_decimal <- _parse_float discount_text ;;
  Ok (VolumeDiscount.mk min_units discount_decimal).

(** [sorted(..., key=lambda d: d.min_units)]: on thresholds without NaN the
    one stable ascending arrangement, which this insertion sort computes.
    With a NaN threshold the arrangement [sorted] returns depends on how it
    finds and merges runs: it is a rearrangement of the list, but not in
    general the one computed here, and nothing below relies on more than
    that. *)
Fixpoint insert_asc (x : VolumeDiscount.t) (l : list VolumeDiscount.t)
  : list VolumeDiscount.t :=
  match l with
  | [] => [x]
  | y :: l' =>
    if (VolumeDiscount.min_units y <? VolumeDiscount.min_units x)%float
    then y :: insert_asc x l'
    else x :: l
  end.

Definition sorted_by_min_units (l : list VolumeDiscount.t)
  : list VolumeDiscount.t :=
  fold_right insert_asc [] l.

(** One uplift row. *)
Definition parse_uplift (r : row) : result Uplift.t :=
  uplift_name <- getitem r "Uplift Name" ;;
  percent_text <- getitem r "Percent (as decimal)" ;;
  percent_decimal <- _parse_float percent_text ;;
  enabled_text <- getitem r "Enabled (TRUE/FALSE)" ;;
  Ok (Uplift.mk uplift_name percent_decimal (_parse_bool enabled_text)).

Fixpoint parse_uplifts (rows : list row) (acc : Dict.t Uplift.t)
  : result (Dict.t Uplift.t) :=
  match rows with
  | [] => Ok acc
  | r :: rows' =>
      uplift <- parse_uplift r ;;
      parse_uplifts rows' (Dict.set (Uplift.uplift_name uplift) uplift acc)
  end.

(** The parsing part of [refresh_once], in source order. *)
Definition parse_all (price_rows volume_rows uplift_rows use_case_rows : list row)
  : result Parsed :=
  skus' <- parse_skus price_rows Dict.empty ;;
  discounts <- traverse parse_discount volume_rows ;;
  uplifts' <- parse_uplifts uplift_rows Dict.empty ;;
  m <- _parse_use_case_mappings use_case_rows ;;
  Ok (mkParsed skus' (sorted_by_min_units discounts) uplifts' (fst m) (snd m)).

(** The four environment variables; [None] when one is unset or empty. *)
Definition read_config (env : Dict.t string)
  : option (string * string * string * string) :=
  let pricelist_url := getenv env "PRICELIST_CSV_URL" in
  let volume_url := getenv env "VOLUME_CSV_URL" in
  let uplifts_url := getenv env "UPLIFTS_CSV_URL" in
  let use_case_mappings_url := getenv env "USE_CASE_MAPPINGS_CSV_URL" in
  match pricelist_url, volume_url, uplifts_url, use_case_mappings_url with
  | Some p, Some v, Some u, Some m =>
      if PyStr.truthy p && PyStr.truthy v && PyStr.truthy u && PyStr.truthy m
      then Some (p, v, u, m) else None
  | _, _, _, _ => None
  end.

(** [asyncio.gather] of the four fetches: the four requests are issued
    before any response is awaited.  When fetches fail, [asyncio.gather]
    raises the failure that happens first in time; the world of this model
    answers the requests in the order in which they were issued, so that this
    is the first failure in argument order.  Which of several failures is
    raised bears on the exception alone, not on the store or the trace. *)
Definition gather4 (p v u m : string)
  : M (list row * list row * list row * list row) :=
  send p ;;; send v ;;; send u ;;; send m ;;;
  price_rows <~ receive p ;;
  volume_rows <~ receive v ;;
  uplift_rows <~ receive u ;;
  use_case_rows <~ receive m ;;
  ret (price_rows, volume_rows, uplift_rows, use_case_rows).

(** The body of [refresh_once] under the lock. *)
Definition refresh_body : M unit :=
  w <~ get_world ;;
  match read_config (environ w) with
  | None => raise RuntimeError
  | Some (p, v, u, m) =>
      rows <~ gather4 p v u m ;;
      let '(price_rows, volume_rows, uplift_rows, use_case_rows) := rows in
      parsed <~ lift (parse_all price_rows volume_rows uplift_rows use_case_rows) ;;
      modify_store (set_skus (parsed_skus parsed)) ;;;
      modify_store (set_volume_discounts (parsed_discounts parsed)) ;;;
      modify_store (set_uplifts (parsed_uplifts parsed)) ;;;
      modify_store (set_use_case_mappings (parsed_use_case_mappings parsed)) ;;;
      modify_store (set_use_cases (parsed_use_cases parsed)) ;;;
      now <~ time_time ;;
      modify_store (set_last_refresh_utc (Some now))
  end.

(** [refresh_once], run by a single caller: [async with self._refresh_lock]. *)
Definition refresh_once : M unit :=
  modify_world (log EvAcquire) ;;;
  finally refresh_body (modify_world (log EvRelease)).

(** [ensure_fresh] *)
Definition ensure_fresh : M unit :=
  now <~ time_time ;;
  s <~ get_store ;;
  if stale now (last_refresh_utc s) then refresh_once else ret tt.

(** The [/quote] handler. *)
Definition quote (payload : QuoteRequest.t) : M response :=
  ensure_fresh ;;;
  s <~ get_store ;;
  lift (quote_on_snapshot s payload).

End WithFloat.
End DataStoreOps.

(* ================================================================= *)
(** ** Concurrent callers of the cache

    The handlers are asyncio coroutines on one event loop: a task runs
    without interruption from one suspension point to the next.  A call of
    [ensure_fresh] or [refresh_once] suspends in [lock.acquire()] when the
    lock is held, and in [asyncio.gather] while the four requests are in
    flight (closing the HTTP client right after the gather may suspend once
    more; the lock stays held and the store is untouched meanwhile, so that
    point is merged with the gather).  A configuration holds the shared
    store, the lock, one program counter per caller, and the number of fetch
    batches issued so far.  Which waiting or arriving caller gets a free lock
    is left open. *)

Module Concurrent.

Inductive call : Type :=
| CallEnsureFresh
| CallRefreshOnce.

Inductive pc : Type :=
| Ready (c : call)                   (* has not started its call *)
| Waiting                            (* suspended in lock.acquire() *)
| Fetching                           (* holds the lock, suspended in gather *)
| Finished (r : result unit).        (* the call returned or raised *)

Record config : Type := mkConfig {
  store : DataStore;
  locked : bool;
  tasks : list pc;
  batches : nat
}.

Fixpoint update_nth {A : Type} (i : nat) (x : A) (l : list A) : list A :=
  match l, i with
  | [], _ => []
  | _ :: l', O => x :: l'
  | y :: l', S i' => y :: update_nth i' x l'
  end.

Definition is_fetching (p : pc) : bool :=
  match p with Fetching => true | _ => false end.

Definition is_started (p : pc) : bool :=
  match p with Ready _ | Waiting => false | _ => true end.

(** The callers of a list that satisfy [f]. *)
Definition count (f : pc -> bool) (l : list pc) : nat :=
  List.length (filter f l).

Definition weight (f : pc -> bool) (p : pc) : nat := if f p then 1 else 0.

(** The callers whose requests are in flight. *)
Definition count_fetching (l : list pc) : nat := count is_fetching l.

(** The callers that went past the lock or returned. *)
Definition count_started (l : list pc) : nat := count is_started l.

(** The lock is held exactly while one caller's requests are in flight, and
    every batch issued belongs to a caller that went past the lock. *)
Definition invariant (tasks : list pc) (locked : bool) (batches : nat) : Prop :=
  count_fetching tasks = (if locked then 1 else 0)
  /\ batches <= count_started tasks.

Section WithEnvironment.

Variable float_of_str : string -> option float.
Variable env : Dict.t string.

(** Whether a caller that starts at time [now] goes on into
    [refresh_once]. *)
Definition wants_refresh (c : call) (now : float) (s : DataStore) : bool :=
  match c with
  | CallRefreshOnce => true
  | CallEnsureFresh => stale now (last_refresh_utc s)
  end.

(** Task [i] takes the free lock and runs up to the gather. *)
Definition enter (i : nat) (c : config) : config :=
  match DataStoreOps.read_config env with
  | None =>
      mkConfig (store c) false
               (update_nth i (Finished (Raise RuntimeError)) (tasks c))
               (batches c)
  | Some _ =>
      mkConfig (store c) true (update_nth i Fetching (tasks c))
               (S (batches c))
  end.

(** Task [i] resumes from the gather with what it fetched, parses,
    assigns, and releases the lock. *)
Definition finish (i : nat)
           (fetched : result (list row * list row * list row * list row))
           (now : float) (c : config) : config :=
  match (rows <- fetched ;;
         let '(price_rows, volume_rows, uplift_rows, use_case_rows) := rows in
         DataStoreOps.parse_all float_of_str
           price_rows volume_rows uplift_rows use_case_rows) with
  | Ok parsed =>
      mkConfig (set_last_refresh_utc (Some now) (install parsed (store c)))
               false (update_nth i (Finished (Ok tt)) (tasks c)) (batches c)
  | Raise e =>
      mkConfig (store c) false
               (update_nth i (Finished (Raise e)) (tasks c)) (batches c)
  end.

Inductive step : config -> config -> Prop :=
| step_fresh i now c :
    nth_error (tasks c) i = Some (Ready CallEnsureFresh) ->
    stale now (last_refresh_utc (store c)) = false ->
    step c (mkConfig (store c) (locked c)
                     (update_nth i (Finished (Ok tt)) (tasks c)) (batches c))
| step_enter i k now c :
    nth_error (tasks c) i = Some (Ready k) ->
    wants_refresh k now (store c) = true ->
    locked c = false ->
    step c (enter i c)
| step_block i k now c :
    nth_error (tasks c) i = Some (Ready k) ->
    wants_refresh k now (store c) = true ->
    locked c = true ->
    step c (mkConfig (store c) (locked c)
                     (update_nth i Waiting (tasks c)) (batches c))
| step_wake i c :
    nth_error (tasks c) i = Some Waiting ->
    locked c = false ->
    step c (enter i c)
| step_done i fetched now c :
    nth_error (tasks c) i = Some Fetching ->
    step c (finish i fetched now c).

Inductive steps : config -> config -> Prop :=
| steps_refl c : steps c c
| steps_snoc c1 c2 c3 : steps c1 c2 -> step c2 c3 -> steps c1 c3.

(** Every caller is about to start; nothing is in flight. *)
Definition initial (c : config) : Prop :=
  locked c = false /\ batches c = 0
  /\ Forall (fun p => exists k, p = Ready k) (tasks c).

End WithEnvironment.
End Concurrent.

(* ================================================================= *)
(** ** A reading of decimal literals

    [float(text)] on plain decimal literals of at most fifteen digits: the
    digits and the power of ten are exact binary64 values, so the one rounded
    division gives the builtin's value.  It instantiates [float_of_str] in
    the examples; texts it does not read are rejected. *)

Module Decimal.
Open Scope float_scope.

Fixpoint of_nat (n : nat) : float :=
  match n with
  | O => 0
  | S k => of_nat k + 1
  end.

Definition digit_val (c : ascii) : option float :=
  let n := nat_of_ascii c in
  if ((48 <=? n) && (n <=? 57))%nat then Some (of_nat (n - 48)) else None.

Fixpoint read_digits (s : string) (acc : float) (count : nat)
  : float * nat * string :=
  match s with
  | EmptyString => (acc, count, s)
  | String c s' =>
      match digit_val c with
      | Some d => read_digits s' (acc * 10 + d) (S count)
      | None => (acc, count, s)
      end
  end.

Fixpoint pow10 (k : nat) : float :=
  match k with
  | O => 1
  | S k' => 10 * pow10 k'
  end.

Definition unsigned (s : string) : option float :=
  let '(int_part, n1, rest) := read_digits s 0 0 in
  match rest with
  | EmptyString =>
      if ((0 <? n1) && (n1 <=? 15))%nat then Some int_part else None
  | String "."%char rest' =>
      let '(all, n2, rest'') := read_digits rest' int_part 0 in
      match rest'' with
      | EmptyString =>
          if ((0 <? n1 + n2) && (n1 + n2 <=? 15))%nat
          then Some (all / pow10 n2) else None
      | _ => None
      end
  | _ => None
  end.

Definition float_of_str (s : string) : option float :=
  match s with
  | String "-"%char s' => option_map PrimFloat.opp (unsigned s')
  | _ => unsigned s
  end.
End Decimal.

(* ================================================================= *)
(** ** Reference statements and example data *)

Module Reference.
Open Scope float_scope.

(** The entries whose threshold is at most [relative_units]. *)
Definition qualifying (ds : list VolumeDiscount.t) (relative_units : float)
  : list VolumeDiscount.t :=
  filter (fun d => VolumeDiscount.min_units d <=? relative_units) ds.

(** [m] is the largest of the values [l]. *)
Definition is_max_of (m : float) (l : list float) : Prop :=
  In m l /\ forall x, In x l -> (x <=? m) = true.

(** Discount selection in the specification's words: the largest discount
    fraction among the qualifying entries, and zero when none qualifies. *)
Definition largest_qualifying_discount (ds : list VolumeDiscount.t)
           (relative_units : float) (discount : float) : Prop :=
  match qualifying ds relative_units with
  | [] => discount = 0
  | q => is_max_of discount (map VolumeDiscount.discount_decimal q)
  end.

(** A discount list sorted ascending by threshold. *)
Definition ascending_by_threshold (ds : list VolumeDiscount.t) : Prop :=
  Sorted (fun a b =>
            (VolumeDiscount.min_units a <=? VolumeDiscount.min_units b) = true)
         ds.

(** The discount table of the specification's example. *)
Definition example_tiers : list VolumeDiscount.t :=
  [VolumeDiscount.mk 10 0.05; VolumeDiscount.mk 50 0.10;
   VolumeDiscount.mk 100 0.08].

(** A table whose only tier carries a negative fraction. *)
Definition surcharge_tier : list VolumeDiscount.t :=
  [VolumeDiscount.mk 10 (-0.05)].
End Reference.

(** The snapshot of the repository's end-to-end test. *)
Module Example.
Open Scope float_scope.

Definition sku_a : SKU.t := SKU.mk "SKU-A" "A" "Tokens" 2 1.
Definition sku_b : SKU.t := SKU.mk "SKU-B" "B" "Jobs" 1 2.
Definition default_uplift : Uplift.t := Uplift.mk "Default" 0.2 true.

Definition store : DataStore :=
  mkStore
    [("SKU-A", sku_a); ("SKU-B", sku_b)]
    [VolumeDiscount.mk 10 0.1]
    [("Default", default_uplift)]
    [("SKU-A", [("Early-Stage AI Startup", 3)]);
     ("SKU-B", [("Early-Stage AI Startup", 1)])]
    ["Early-Stage AI Startup"]
    None.
End Example.

(** The words [_parse_bool] accepts. *)
Definition truthy_words : list string := ["true"; "1"; "yes"; "y"].

(** In the specification's words: the text is a case-insensitive match for
    one of the accepted words. *)
Definition case_insensitive_word (text : string) : bool :=
  existsb (String.eqb (PyStr.lower text)) truthy_words.

(** No character of the text is white space. *)
Fixpoint no_space (s : string) : bool :=
  match s with
  | EmptyString => true
  | String c s' => negb (PyStr.is_space c) && no_space s'
  end.

(** The use-case mapping parse, in the specification's words. *)
Module MappingSpec.
Section WithFloat.
Variable float_of_str : string -> option float.

(** The row is kept: its SKU Code cell is not empty. *)
Definition retained (r : row) : bool :=
  PyStr.truthy (DataStoreOps.row_sku_code r).

(** The column headers other than the key column, in column order. *)
Definition use_case_headers (rows : list row) : list string :=
  match rows with
  | [] => []
  | row0 :: _ =>
      filter (fun h => negb (String.eqb h "SKU Code")) (Dict.keys row0)
  end.

(** The numeric coercion of the cell of [r] under [use_case], an absent
    cell being read as the empty text. *)
Definition coerced_cell (r : row) (use_case : string) : result float :=
  DataStoreOps._parse_float float_of_str (Dict.get_default use_case EmptyString r).

(** [entry] holds, for every use-case name, the coercion of the cell of
    [r], and nothing else. *)
Definition entry_of_row (use_cases : list string) (r : row)
           (entry : Dict.t float) : Prop :=
  (forall use_case, In use_case use_cases ->
     exists v, coerced_cell r use_case = Ok v
               /\ Dict.get use_case entry = Some v)
  /\ (forall k, Dict.contains k entry = true -> In k use_cases).

(** The claim read on [rows]: the parse returns the headers other than
    "SKU Code", a row with an empty SKU Code gives no key, and each retained
    row's SKU code maps to the entry of that row. *)
Definition parses_as_specified (rows : list row) : Prop :=
  exists parsed,
    DataStoreOps._parse_use_case_mappings float_of_str rows
    = Ok (parsed, use_case_headers rows)
    /\ (forall k, Dict.contains k parsed = true ->
          exists r, In r rows /\ retained r = true
                    /\ DataStoreOps.row_sku_code r = k)
    /\ (forall r, In r rows -> retained r = true ->
          exists entry,
            Dict.get (DataStoreOps.row_sku_code r) parsed = Some entry
            /\ entry_of_row (use_case_headers rows) r entry).
End WithFloat.

(** The rows of the repository's parsing test. *)
Definition test_rows : list row :=
  [ [("SKU Code", "SKU-A"); ("Early-Stage AI Startup", "1,200.5");
     ("Academic Research", EmptyString)];
    [("SKU Code", "SKU-B"); ("Early-Stage AI Startup", EmptyString);
     ("Academic Research", "3")] ].

(** A retained row with a cell that is not a number. *)
Definition text_cell_rows : list row :=
  [ [("SKU Code", "SKU-A"); ("Training", "abc")] ].

(** Two retained rows with the same SKU code. *)
Definition repeated_code_rows : list row :=
  [ [("SKU Code", "SKU-A"); ("Training", "1")];
    [("SKU Code", "SKU-A"); ("Training", "2")] ].
End MappingSpec.

(** What the four requests return, as [asyncio.gather] hands it over. *)
Definition gathered (w : World) (p v u m : string)
  : result (list row * list row * list row * list row) :=
  price_rows <- http_get w p ;;
  volume_rows <- http_get w v ;;
  uplift_rows <- http_get w u ;;
  use_case_rows <- http_get w m ;;
  Ok (map DataStoreOps.clean_row price_rows,
      map DataStoreOps.clean_row volume_rows,
      map DataStoreOps.clean_row uplift_rows,
      map DataStoreOps.clean_row use_case_rows).

(** What one refresh reads from the world: the configuration, the four
    tables, and their parse. *)
Definition loaded (float_of_str : string -> option float) (w : World)
  : result Parsed :=
  match DataStoreOps.read_config (environ w) with
  | None => Raise RuntimeError
  | Some (p, v, u, m) =>
      rows <- gathered w p v u m ;;
      let '(price_rows, volume_rows, uplift_rows, use_case_rows) := rows in
      DataStoreOps.parse_all float_of_str
        price_rows volume_rows uplift_rows use_case_rows
  end.

(** The requests one refresh issues. *)
Definition requests (w : World) : list event :=
  match DataStoreOps.read_config (environ w) with
  | None => []
  | Some (p, v, u, m) => [EvGet p; EvGet v; EvGet u; EvGet m]
  end.

(** Worlds for the examples: the four tables of the test snapshot behind
    four addresses, a clock that reads 1000, 1100, 1200, ... *)
Module ExampleWorld.
Open Scope float_scope.

Definition environ : Dict.t string :=
  [("PRICELIST_CSV_URL", "https://sheets/prices");
   ("VOLUME_CSV_URL", "https://sheets/volume");
   ("UPLIFTS_CSV_URL", "https://sheets/uplifts");
   ("USE_CASE_MAPPINGS_CSV_URL", "https://sheets/use-cases")].

Definition price_rows : list raw_row :=
  [ [("SKU Code", Some "SKU-A"); ("Name", Some "A"); ("Unit Label", Some "Tokens");
     ("Base Unit Price (USD)", Some "$2.00"); ("Unit", Some "1")];
    [("SKU Code", Some "SKU-B"); ("Name", Some "B"); ("Unit Label", Some "Jobs");
     ("Base Unit Price (USD)", Some "1"); ("Unit", Some "2")] ].

Definition volume_rows : list raw_row :=
  [ [("Min Units (Relative)", Some "10"); ("Discount % (as decimal)", Some "0.1")] ].

Definition uplift_rows : list raw_row :=
  [ [("Uplift Name", Some "Default"); ("Percent (as decimal)", Some "0.2");
     ("Enabled (TRUE/FALSE)", Some "TRUE")] ].

Definition use_case_rows : list raw_row :=
  [ [("SKU Code", Some "SKU-A"); ("Early-Stage AI Startup", Some "3")];
    [("SKU Code", Some "SKU-B"); ("Early-Stage AI Startup", Some "1")] ].

Definition http_get (url : string) : result (list raw_row) :=
  if String.eqb url "https://sheets/prices" then Ok price_rows
  else if String.eqb url "https://sheets/volume" then Ok volume_rows
  else if String.eqb url "https://sheets/uplifts" then Ok uplift_rows
  else if String.eqb url "https://sheets/use-cases" then Ok use_case_rows
  else Raise (HTTPError url).

Definition clock (n : nat) : float := 1000 + 100 * Decimal.of_nat n.

(** Every table is served. *)
Definition up : World := mkWorld environ http_get clock 0 [].

(** The uplift table is not served. *)
Definition uplifts_down : World :=
  mkWorld environ
          (fun url => if String.eqb url "https://sheets/uplifts"
                      then Raise (HTTPError url) else http_get url)
          clock 0 [].

(** One address is not configured. *)
Definition unconfigured : World :=
  mkWorld [("PRICELIST_CSV_URL", "https://sheets/prices")] http_get clock 0 [].

(** The price table has a price that is not a number. *)
Definition bad_price : World :=
  mkWorld environ
          (fun url => if String.eqb url "https://sheets/prices"
                      then Ok [ [("SKU Code", Some "SKU-A"); ("Name", Some "A");
                                 ("Unit Label", Some "Tokens");
                                 ("Base Unit Price (USD)", Some "two");
                                 ("Unit", Some "1")] ]
                      else http_get url)
          clock 0 [].

(** The volume table lacks the discount column. *)
Definition bad_schema : World :=
  mkWorld environ
          (fun url => if String.eqb url "https://sheets/volume"
                      then Ok [ [("Min Units (Relative)", Some "10")] ]
                      else http_get url)
          clock 0 [].
End ExampleWorld.

(** The use-case quote, in the specification's words. *)
Module UseCaseSpec.
Section OnSnapshot.
Open Scope float_scope.
Variable store : DataStore.
Variable use_case : string.
Variable hours : float.
Variable uplift_names : option (list string).

(** [units_per_hour] of a mapping entry, 0 when the use case has no entry. *)
Definition units_per_hour (item : string * Dict.t float) : float :=
  Dict.get_default use_case 0 (snd item).

Definition units_total (item : string * Dict.t float) : float :=
  units_per_hour item * hours.

(** The entry is kept by the loop: [units_total <= 0] is false and the SKU
    code is in the SKU set. *)
Definition retained (item : string * Dict.t float) : bool :=
  negb (units_total item <=? 0) && Dict.contains (fst item) (skus store).

(** The entry is kept according to the claim: [units_total] is strictly
    positive and the SKU code is in the SKU set. *)
Definition claimed_retained (item : string * Dict.t float) : bool :=
  (0 <? units_total item) && Dict.contains (fst item) (skus store).

(** The SKU quote behind the line of an entry. *)
Definition line_quote (item : string * Dict.t float) : result SkuQuote.t :=
  _calculate_sku_quote store (fst item) (units_total item) uplift_names.

(** [l] is the breakdown line of the entry [item]. *)
Definition line_of (item : string * Dict.t float) (l : Line.t) : Prop :=
  exists q,
    line_quote item = Ok q
    /\ l = Line.mk (fst item) (SkuQuote.sku_name q) (SkuQuote.unit_label q)
                   (units_per_hour item) (units_total item)
                   (SkuQuote.final_cost q).

(** The line costs added left to right, from 0.0. *)
Definition total_of (lines : list Line.t) : float :=
  fold_left PrimFloat.add (map Line.cost_usd lines) 0.

(** No line cost is NaN. *)
Definition no_nan_cost (lines : list Line.t) : Prop :=
  Forall (fun a => is_nan (Line.cost_usd a) = false) lines.

(** Each line costs at least as much as every later line. *)
Definition descending (lines : list Line.t) : Prop :=
  StronglySorted (fun a b => (Line.cost_usd b <=? Line.cost_usd a) = true) lines.
End OnSnapshot.

(** A use-case request. *)
Definition request (use_case : string) (hours : float)
           (uplift_names : option (list string)) : QuoteRequest.t :=
  QuoteRequest.mk "use_case" None None (Some use_case) (Some hours)
                  None None None None uplift_names.

(** The test snapshot with a second use case that consumes nothing. *)
Definition idle_store : DataStore :=
  set_use_cases ["Early-Stage AI Startup"; "Academic Research"] Example.store.

(** A mapping entry with a NaN rate (the cell "nan"), and a snapshot whose
    mapping table holds it. *)
Definition nan_item : string * Dict.t float :=
  ("SKU-A", [("Training", PrimFloat.nan)]).

Definition nan_store : DataStore :=
  mkStore [("SKU-A", Example.sku_a)] [] [] [nan_item] ["Training"] None.
End UseCaseSpec.

(** Two callers of [ensure_fresh] on an empty cache: the second calls while
    the first one's refresh is in flight. *)
Module TwoCallers.
Import Concurrent.

Definition step : config -> config -> Prop :=
  Concurrent.step Decimal.float_of_str ExampleWorld.environ.

(** What the first caller's four requests return. *)
Definition fetched : result (list row * list row * list row * list row) :=
  Ok (map DataStoreOps.clean_row ExampleWorld.price_rows,
      map DataStoreOps.clean_row ExampleWorld.volume_rows,
      map DataStoreOps.clean_row ExampleWorld.uplift_rows,
      map DataStoreOps.clean_row ExampleWorld.use_case_rows).

(** Both callers are about to call. *)
Definition c0 : config :=
  mkConfig init_store false [Ready CallEnsureFresh; Ready CallEnsureFresh] 0.

(** At 1000 the first caller finds the cache stale, takes the lock, issues
    its requests. *)
Definition c1 : config := enter ExampleWorld.environ 0 c0.

(** At 1001 the second caller finds the cache stale and waits for the lock. *)
Definition c2 : config :=
  mkConfig (store c1) (locked c1) (update_nth 1 Waiting (tasks c1)) (batches c1).

(** At 1002 the first caller's requests return; it installs the snapshot
    and releases the lock. *)
Definition c3 : config :=
  finish Decimal.float_of_str 0 fetched 1002%float c2.

(** The second caller gets the lock and issues its own requests. *)
Definition c4 : config := enter ExampleWorld.environ 1 c3.

(** The price table as it is when the second caller's requests are answered:
    the price of SKU-A has been raised in the meantime. *)
Definition price_rows_later : list raw_row :=
  [ [("SKU Code", Some "SKU-A"); ("Name", Some "A"); ("Unit Label", Some "Tokens");
     ("Base Unit Price (USD)", Some "$3.00"); ("Unit", Some "1")];
    [("SKU Code", Some "SKU-B"); ("Name", Some "B"); ("Unit Label", Some "Jobs");
     ("Base Unit Price (USD)", Some "1"); ("Unit", Some "2")] ].

(** What the second caller's four requests return. *)
Definition fetched_later : result (list row * list row * list row * list row) :=
  Ok (map DataStoreOps.clean_row price_rows_later,
      map DataStoreOps.clean_row ExampleWorld.volume_rows,
      map DataStoreOps.clean_row ExampleWorld.uplift_rows,
      map DataStoreOps.clean_row ExampleWorld.use_case_rows).

(** At 1004 the second caller's requests return; it installs its own
    snapshot and releases the lock. *)
Definition c5 : config :=
  finish Decimal.float_of_str 1 fetched_later 1004%float c4.

(** The price of a SKU in the snapshot of a configuration. *)
Definition price_of (sku_code : string) (c : config) : option float :=
  option_map SKU.base_unit_price (Dict.get sku_code (skus (store c))).
End TwoCallers.

(* ================================================================= *)
(** ** Further functions of the service *)

(** More of [str]. *)
Module PyStrMore.

(** [c in s] for a one-character [c]. *)
Fixpoint occurs (c : ascii) (s : string) : bool :=
  match s with
  | EmptyString => false
  | String c' s' => Ascii.eqb c' c || occurs c s'
  end.

(** The three decorations [_parse_float] removes. *)
Definition decorations : list ascii := [","%char; "$"%char; "%"%char].

(** The text holds none of the decorations. *)
Definition undecorated (s : string) : bool :=
  forallb (fun c => negb (occurs c s)) decorations.

(** [s.startswith(p)] *)
Fixpoint startswith (p s : string) : bool :=
  match p, s with
  | EmptyString, _ => true
  | String _ _, EmptyString => false
  | String a p', String b s' => Ascii.eqb a b && startswith p' s'
  end.

(** [s[n:]] *)
Fixpoint drop (n : nat) (s : string) : string :=
  match n, s with
  | O, _ => s
  | S _, EmptyString => EmptyString
  | S n', String _ s' => drop n' s'
  end.

(** Every code point is below 128. *)
Fixpoint is_ascii (s : string) : bool :=
  match s with
  | EmptyString => true
  | String c s' => (nat_of_ascii c <? 128)%nat && is_ascii s'
  end.

End PyStrMore.

(** A reading of [float] that refuses the empty text and every text with a
    decoration, and reads the other texts as [float_of_str] does. *)
Definition guarded (float_of_str : string -> option float) (text : string)
  : option float :=
  if PyStr.truthy text && PyStrMore.undecorated text
  then float_of_str text else None.

(** [(v or empty).strip()]: the text of a cell as [_fetch_csv] keeps it. *)
Definition cell_text (c : option string) : string :=
  PyStr.strip (match c with Some v => v | None => EmptyString end).

(** Well-formedness of a snapshot. *)
Module Snapshot.

(** Every value of a table is filed under its own key, once. *)
Definition keyed (A : Type) (key : A -> string) (d : Dict.t A) : Prop :=
  NoDup (Dict.keys d) /\ forall k a, Dict.get k d = Some a -> key a = k.

(** Every SKU is filed under its own code, every uplift under its name. *)
Definition skus_keyed (s : DataStore) : Prop :=
  keyed SKU.sku_code (skus s).

Definition uplifts_keyed (s : DataStore) : Prop :=
  keyed Uplift.uplift_name (uplifts s).

(** The mapping table has one entry per SKU code, no empty code, and every
    entry has a rate for exactly the use cases of the snapshot; the key
    column is no use case. *)
Definition mappings_complete (s : DataStore) : Prop :=
  NoDup (Dict.keys (use_case_mappings s))
  /\ ~ In "SKU Code" (use_cases s)
  /\ forall code per,
       In (code, per) (use_case_mappings s) ->
       PyStr.truthy code = true
       /\ forall u, Dict.contains u per = true <-> In u (use_cases s).

(** The thresholds of a discount list go up. *)
Definition ascending (ds : list VolumeDiscount.t) : Prop :=
  StronglySorted
    (fun a b =>
       (VolumeDiscount.min_units a <=? VolumeDiscount.min_units b)%float = true)
    ds.

(** No threshold is NaN. *)
Definition no_nan_threshold (ds : list VolumeDiscount.t) : Prop :=
  Forall (fun d => is_nan (VolumeDiscount.min_units d) = false) ds.

End Snapshot.

(** A SKU request. *)
Definition sku_request (sku_code : string) (quantity : float)
           (uplift_names : option (list string)) : QuoteRequest.t :=
  QuoteRequest.mk "sku" (Some sku_code) (Some quantity) None None
                  None None None None uplift_names.


(** What makes the quote of one SKU fail once the SKU is known to be in the
    SKU set: a SKU of the snapshot whose unit is zero, or an uplift the
    snapshot does not have. *)
Definition line_failure (store : DataStore) (e : exn) : Prop :=
  (e = ZeroDivisionError
   /\ exists code sku, Dict.get code (skus store) = Some sku
                       /\ (SKU.unit sku =? 0)%float = true)
  \/ (exists missing, e = HTTPException 400 (Unknown_uplifts missing)).


(** ** The listing endpoints *)

(** [sorted(values, key=...)] on a [str] key: stable, ascending, comparing
    keys with [<] (code point by code point, a proper prefix first). *)
Module Listing.
Section SortedBy.
Variable A : Type.
Variable key : A -> string.

Fixpoint insert_by (x : A) (l : list A) : list A :=
  match l with
  | [] => [x]
  | y :: l' =>
      if String.ltb (key y) (key x) then y :: insert_by x l' else x :: l
  end.

Definition sorted_by (l : list A) : list A := fold_right insert_by [] l.

End SortedBy.
End Listing.

(** An element of the answer of [/skus]. *)
Module SkuItem.
Record t : Type := mk {
  sku_code : string;
  name : string;
  unit_label : string;
  base_unit_price : float;
  unit : float
}.
End SkuItem.

(** An element of the answer of [/uplifts]. *)
Module UpliftItem.
Record t : Type := mk {
  uplift_name : string;
  percent_decimal : float;
  enabled : bool
}.
End UpliftItem.

(** The answer of [/health]. *)
Module Health.
Record t : Type := mk {
  ok : bool;
  sku_count : nat;
  uplift_count : nat;
  use_case_count : nat
}.
End Health.

Module Handlers.

Definition sku_item (sku : SKU.t) : SkuItem.t :=
  SkuItem.mk (SKU.sku_code sku) (SKU.name sku) (SKU.unit_label sku)
             (SKU.base_unit_price sku) (SKU.unit sku).

Definition uplift_item (uplift : Uplift.t) : UpliftItem.t :=
  UpliftItem.mk (Uplift.uplift_name uplift) (Uplift.percent_decimal uplift)
                (Uplift.enabled uplift).

(** The list comprehension of [get_skus] on a snapshot. *)
Definition skus_listing (s : DataStore) : list SkuItem.t :=
  map sku_item (Listing.sorted_by SKU.sku_code (Dict.values (skus s))).

(** The list comprehension of [get_uplifts] on a snapshot. *)
Definition uplifts_listing (s : DataStore) : list UpliftItem.t :=
  map uplift_item
      (Listing.sorted_by Uplift.uplift_name (Dict.values (uplifts s))).

Definition health_of (s : DataStore) : Health.t :=
  Health.mk true (List.length (skus s)) (List.length (uplifts s))
            (List.length (use_cases s)).

Section WithFloat.
Variable float_of_str : string -> option float.

(** [health] *)
Definition health : M Health.t :=
  DataStoreOps.ensure_fresh float_of_str ;;;
  s <~ get_store ;;
  ret (health_of s).

(** [get_skus] *)
Definition get_skus : M (list SkuItem.t) :=
  DataStoreOps.ensure_fresh float_of_str ;;;
  s <~ get_store ;;
  ret (skus_listing s).

(** [get_uplifts] *)
Definition get_uplifts : M (list UpliftItem.t) :=
  DataStoreOps.ensure_fresh float_of_str ;;;
  s <~ get_store ;;
  ret (uplifts_listing s).

(** [get_use_cases] *)
Definition get_use_cases : M (list string) :=
  DataStoreOps.ensure_fresh float_of_str ;;;
  s <~ get_store ;;
  ret (use_cases s).

End WithFloat.
End Handlers.

(** ** The API key check *)

Module Auth.

(** How [require_api_key] ends: it returns, it raises an [HTTPException]
    with a status code and a detail, or [secrets.compare_digest] raises
    [TypeError] (it refuses a [str] with a code point above 127). *)
Inductive outcome : Type :=
| Passed
| Refused (status_code : nat) (detail : string)
| TypeError.

(** [secrets.compare_digest] on two [str]. *)
Definition compare_digest (a b : string) : option bool :=
  if PyStrMore.is_ascii a && PyStrMore.is_ascii b
  then Some (String.eqb a b) else None.

(** [require_api_key] *)
Definition require_api_key (env : Dict.t string) (x_api_key : option string)
  : outcome :=
  let expected_key :=
    PyStr.strip (match getenv env "PRICING_API_KEY" with
                 | Some v => v
                 | None => EmptyString
                 end) in
  if negb (PyStr.truthy expected_key)
  then Refused 500 "Server API key is not configured"
  else
    match x_api_key with
    | None => Refused 401 "Unauthorized"
    | Some key =>
        if negb (PyStr.truthy key) then Refused 401 "Unauthorized"
        else
          match compare_digest key expected_key with
          | None => TypeError
          | Some true => Passed
          | Some false => Refused 401 "Unauthorized"
          end
    end.

End Auth.

(** ** The path rewriting of the serverless entry point *)

Module Index.

(** [s or "/"] *)
Definition or_root (s : string) : string :=
  if PyStr.truthy s then s else "/".

(** [normalized[len(prefix):] or "/"] when [normalized] starts with
    [prefix]. *)
Definition without_prefix (prefix normalized : string) : string :=
  if PyStrMore.startswith prefix normalized
  then or_root (PyStrMore.drop (String.length prefix) normalized)
  else normalized.

(** The return expression of [_normalize_path]. *)
Definition rooted (normalized : string) : string :=
  if PyStrMore.startswith "/" normalized then normalized
  else ("/" ++ normalized)%string.

(** [_normalize_path] *)
Definition _normalize_path (path : string) : string :=
  let normalized := or_root path in
  let normalized := without_prefix "/api/index.py" normalized in
  let normalized := without_prefix "/api" normalized in
  rooted normalized.

End Index.


(* ================================================================= *)
(** * Verification *)

Unset Implicit Arguments.

(* ================================================================= *)
(** ** Order facts on binary64 values *)

Module FloatOrder.

Ltac split_compare :=
  repeat match goal with
    | H : context [(?a ?= ?b)%Z] |- _ =>
        destruct (Z.compare_spec a b); simpl in H; try discriminate H
    | |- context [(?a ?= ?b)%Z] =>
        destruct (Z.compare_spec a b); simpl
    | H : context [(?a ?= ?b)%positive] |- _ =>
        destruct (Pos.compare_spec a b); simpl in H; try discriminate H
    | |- context [(?a ?= ?b)%positive] =>
        destruct (Pos.compare_spec a b); simpl
    end.

Ltac sf_order :=
  unfold SFltb, SFleb, SFeqb in *;
  repeat match goal with
    | x : spec_float |- _ => destruct x
    end;
  repeat match goal with
    | b : bool |- _ => destruct b
    end;
  simpl in *; try discriminate; try reflexivity;
  rewrite ?Pos.compare_cont_spec in *; simpl in *;
  split_compare; subst;
  try discriminate; try reflexivity; try lia.

Lemma SF_ltb_leb x y : SFltb x y = true -> SFleb x y = true.
Proof. sf_order. Qed.

Lemma SF_leb_trans x y z :
  SFleb x y = true -> SFleb y z = true -> SFleb x z = true.
Proof. sf_order. Qed.

Lemma SF_leb_not_ltb x y : SFleb x y = true -> SFltb y x = false.
Proof. sf_order. Qed.

Lemma SF_ltb_ordered_r x y : SFltb x y = true -> SFleb y y = true.
Proof. sf_order. Qed.

Lemma SF_not_ltb_leb x y :
  SFleb x x = true -> SFleb y y = true -> SFltb x y = false ->
  SFleb y x = true.
Proof. sf_order. Qed.

Lemma SF_bound_not_ltb b r d :
  SFleb b r = true -> SFltb b d = false -> SFltb r d = false.
Proof. sf_order. Qed.

Lemma SF_ltb_not_leb x y : SFltb x y = true -> SFleb y x = false.
Proof. sf_order. Qed.

Lemma SF_eqb_leb x y : SFeqb x y = true -> SFleb x y = true.
Proof. sf_order. Qed.

Lemma SF_ltb_eqb x y c :
  SFltb x y = true -> SFeqb x c = true -> SFeqb y c = false.
Proof. sf_order. Qed.

Open Scope float_scope.

Lemma ltb_leb x y : (x <? y) = true -> (x <=? y) = true.
Proof. rewrite ltb_spec, leb_spec. apply SF_ltb_leb. Qed.

Lemma leb_trans x y z :
  (x <=? y) = true -> (y <=? z) = true -> (x <=? z) = true.
Proof. rewrite !leb_spec. apply SF_leb_trans. Qed.

Lemma leb_not_ltb x y : (x <=? y) = true -> (y <? x) = false.
Proof. rewrite ltb_spec, leb_spec. apply SF_leb_not_ltb. Qed.

Lemma ltb_ordered_r x y : (x <? y) = true -> (y <=? y) = true.
Proof. rewrite ltb_spec, leb_spec. apply SF_ltb_ordered_r. Qed.

Lemma not_ltb_leb x y :
  (x <=? x) = true -> (y <=? y) = true -> (x <? y) = false ->
  (y <=? x) = true.
Proof. rewrite ltb_spec, !leb_spec. apply SF_not_ltb_leb. Qed.

Lemma bound_not_ltb b r d :
  (b <=? r) = true -> (b <? d) = false -> (r <? d) = false.
Proof. rewrite !ltb_spec, leb_spec. apply SF_bound_not_ltb. Qed.

Lemma ltb_not_leb x y : (x <? y) = true -> (y <=? x) = false.
Proof. rewrite ltb_spec, leb_spec. apply SF_ltb_not_leb. Qed.

Lemma ltb_eqb x y c : (x <? y) = true -> (x =? c) = true -> (y =? c) = false.
Proof. rewrite ltb_spec, !eqb_spec. apply SF_ltb_eqb. Qed.

(** A value that is not NaN compares with itself. *)
Lemma not_nan_leb x : is_nan x = false -> (x <=? x) = true.
Proof.
  unfold is_nan. intros H. apply negb_false_iff in H.
  rewrite eqb_spec in H. rewrite leb_spec. apply SF_eqb_leb. exact H.
Qed.

Create HintDb float_order.
#[global] Hint Resolve ltb_leb leb_not_ltb ltb_not_leb not_nan_leb not_ltb_leb
  : float_order.

End FloatOrder.

(* ================================================================= *)
(** ** Discount selection *)

Section DiscountSelection.
Open Scope float_scope.
Import Reference.

Variable r : float.

Lemma discount_step_keep_or_take best d :
  discount_step r best d = best
  \/ ((VolumeDiscount.min_units d <=? r) = true
      /\ (best <? VolumeDiscount.discount_decimal d) = true
      /\ discount_step r best d = VolumeDiscount.discount_decimal d).
Proof.
  unfold discount_step, PyFloat.gtb.
  destruct (VolumeDiscount.min_units d <=? r); simpl; auto.
  destruct (best <? VolumeDiscount.discount_decimal d); auto.
Qed.

(** The running value never decreases. *)
Lemma fold_discount_ge ds : forall best,
  (best <=? best) = true ->
  (best <=? fold_left (discount_step r) ds best) = true.
Proof.
  induction ds as [|d ds IH]; intros best Hb; simpl; auto.
  destruct (discount_step_keep_or_take best d) as [E | (_ & Hlt & E)];
    rewrite E.
  - apply IH; assumption.
  - apply FloatOrder.leb_trans with (VolumeDiscount.discount_decimal d).
    + apply FloatOrder.ltb_leb; assumption.
    + apply IH. eapply FloatOrder.ltb_ordered_r; eassumption.
Qed.

(** The running value is the start value or a qualifying fraction. *)
Lemma fold_discount_origin ds : forall best,
  fold_left (discount_step r) ds best = best
  \/ exists d, In d ds /\ (VolumeDiscount.min_units d <=? r) = true
               /\ VolumeDiscount.discount_decimal d
                  = fold_left (discount_step r) ds best.
Proof.
  induction ds as [|d ds IH]; intros best; simpl; auto.
  destruct (IH (discount_step r best d)) as [E | (d' & Hin & Hq & E)].
  - rewrite E.
    destruct (discount_step_keep_or_take best d) as [E' | (Hq & _ & E')].
    + left; assumption.
    + right. exists d. rewrite E'. auto.
  - right. exists d'. auto.
Qed.

(** No qualifying fraction exceeds the final value. *)
Lemma fold_discount_upper ds : forall best d,
  (best <=? best) = true ->
  In d ds -> (VolumeDiscount.min_units d <=? r) = true ->
  (fold_left (discount_step r) ds best <? VolumeDiscount.discount_decimal d)
  = false.
Proof.
  induction ds as [|d0 ds IH]; intros best d Hb Hin Hq; simpl in *.
  - contradiction.
  - assert (Hb' : (discount_step r best d0 <=? discount_step r best d0) = true).
    { destruct (discount_step_keep_or_take best d0) as [E | (_ & Hlt & E)];
        rewrite E; auto.
      eapply FloatOrder.ltb_ordered_r; eassumption. }
    destruct Hin as [-> | Hin].
    + apply FloatOrder.bound_not_ltb with (discount_step r best d).
      * apply fold_discount_ge; assumption.
      * unfold discount_step, PyFloat.gtb. rewrite Hq. simpl.
        destruct (best <? VolumeDiscount.discount_decimal d) eqn:E; auto.
        apply FloatOrder.leb_not_ltb.
        eapply FloatOrder.ltb_ordered_r; eassumption.
    + apply IH; assumption.
Qed.

End DiscountSelection.

(** C1, as amended: the discount that [_calculate_sku_quote] applies is the
    largest of 0.0 and the discount fractions of the entries whose
    [min_units] is at most [relative_units]: it is at least 0.0, it is 0.0 or
    the fraction of a qualifying entry, and no qualifying entry has a larger
    fraction.  On the tiers (10, 0.05), (50, 0.10), (100, 0.08) with 60
    relative units it is 0.10. *)
Theorem select_discount_is_running_max :
  (forall (ds : list VolumeDiscount.t) (relative_units : float),
     let discount := select_discount ds relative_units in
     (0 <=? discount)%float = true
     /\ (discount = 0%float
         \/ exists d, In d ds
                      /\ (VolumeDiscount.min_units d <=? relative_units)%float = true
                      /\ VolumeDiscount.discount_decimal d = discount)
     /\ (forall d, In d ds ->
                   (VolumeDiscount.min_units d <=? relative_units)%float = true ->
                   (discount <? VolumeDiscount.discount_decimal d)%float = false))
  /\ select_discount Reference.example_tiers 60%float = 0.10%float.
Proof.
  split; [| reflexivity].
  intros ds r discount. unfold discount, select_discount.
  split; [| split].
  - apply fold_discount_ge. reflexivity.
  - apply fold_discount_origin.
  - intros d Hin Hq. apply fold_discount_upper; auto.
Qed.

(** C1, as stated, fails: with the single tier (10, -0.05) and 60 relative
    units the tier qualifies, so the largest qualifying fraction is -0.05,
    yet the discount applied is 0.0. *)
Lemma select_discount_negative_tier :
  Reference.ascending_by_threshold Reference.surcharge_tier
  /\ select_discount Reference.surcharge_tier 60%float = 0%float
  /\ ~ Reference.largest_qualifying_discount Reference.surcharge_tier 60%float
         (select_discount Reference.surcharge_tier 60%float).
Proof.
  split; [| split].
  - repeat constructor.
  - reflexivity.
  - unfold Reference.largest_qualifying_discount. simpl.
    intros [[H | []] _].
    apply (f_equal (fun x => (x <? 0)%float)) in H.
    vm_compute in H. discriminate H.
Qed.

(* ================================================================= *)
(** ** The SKU quote *)

(** C2: for a SKU of the snapshot whose unit is not zero and an uplift
    selection that resolves, [_calculate_sku_quote] returns a quote with
    relative_units = quantity / unit, base_cost = relative_units *
    base_unit_price, discounted_cost = base_cost * (1 - discount) for the
    selected discount, and final_cost = discounted_cost * (1 + the sum of the
    selected uplift fractions).  With price 2.0, unit 1.0, quantity 30,
    discount 0.1 and uplift 0.2 the values are 30, 60, 54 and 64.8. *)
Theorem sku_quote_formulas :
  (forall (store : DataStore) (sku_code : string) (quantity : float)
          (uplift_names : option (list string))
          (sku : SKU.t) (selected : list Uplift.t),
     Dict.get sku_code (skus store) = Some sku ->
     (SKU.unit sku =? 0)%float = false ->
     _resolve_uplifts store uplift_names = Ok selected ->
     exists q,
       _calculate_sku_quote store sku_code quantity uplift_names = Ok q
       /\ SkuQuote.relative_units q = (quantity / SKU.unit sku)%float
       /\ SkuQuote.base_cost q
          = (SkuQuote.relative_units q * SKU.base_unit_price sku)%float
       /\ SkuQuote.discount_decimal q
          = select_discount (volume_discounts store) (SkuQuote.relative_units q)
       /\ SkuQuote.discounted_cost q
          = (SkuQuote.base_cost q * (1 - SkuQuote.discount_decimal q))%float
       /\ SkuQuote.uplift_decimal q
          = PyFloat.sum (map Uplift.percent_decimal selected)
       /\ SkuQuote.final_cost q
          = (SkuQuote.discounted_cost q * (1 + SkuQuote.uplift_decimal q))%float)
  /\ (exists q,
        _calculate_sku_quote Example.store "SKU-A" 30%float None = Ok q
        /\ SkuQuote.base_unit_price q = 2%float
        /\ SkuQuote.unit_multiplier q = 1%float
        /\ SkuQuote.relative_units q = 30%float
        /\ SkuQuote.base_cost q = 60%float
        /\ SkuQuote.discount_decimal q = 0.1%float
        /\ SkuQuote.discounted_cost q = 54%float
        /\ SkuQuote.uplift_decimal q = 0.2%float
        /\ SkuQuote.final_cost q = 64.8%float).
Proof.
  split.
  - intros store sku_code quantity uplift_names sku selected Hget Hunit Hsel.
    unfold _calculate_sku_quote, PyFloat.div.
    rewrite Hget, Hunit. simpl. rewrite Hsel. simpl.
    eexists. split; [reflexivity |]. simpl. repeat split.
  - eexists. split; [vm_compute; reflexivity |]. vm_compute. repeat split.
Qed.

(** The general part of C2 at the test snapshot: SKU-A, quantity 30, the
    enabled uplifts. *)
Lemma sku_quote_formulas_witness :
  exists q,
    _calculate_sku_quote Example.store "SKU-A" 30%float None = Ok q
    /\ SkuQuote.relative_units q = (30 / SKU.unit Example.sku_a)%float
    /\ SkuQuote.base_cost q
       = (SkuQuote.relative_units q * SKU.base_unit_price Example.sku_a)%float
    /\ SkuQuote.discount_decimal q
       = select_discount (volume_discounts Example.store)
                         (SkuQuote.relative_units q)
    /\ SkuQuote.discounted_cost q
       = (SkuQuote.base_cost q * (1 - SkuQuote.discount_decimal q))%float
    /\ SkuQuote.uplift_decimal q
       = PyFloat.sum (map Uplift.percent_decimal [Example.default_uplift])
    /\ SkuQuote.final_cost q
       = (SkuQuote.discounted_cost q * (1 + SkuQuote.uplift_decimal q))%float.
Proof.
  apply (proj1 sku_quote_formulas Example.store "SKU-A" 30%float None
               Example.sku_a [Example.default_uplift]);
    reflexivity.
Defined.

(* ================================================================= *)
(** ** Uplift resolution *)

Section ResolveUplifts.
Variable store : DataStore.

Lemma traverse_lookup names :
  missing_names store names = [] ->
  exists selected,
    traverse (fun name =>
                match Dict.get name (uplifts store) with
                | Some u => Ok u
                | None => Raise (KeyError name)
                end) names = Ok selected
    /\ Forall2 (fun name u => Dict.get name (uplifts store) = Some u)
               names selected.
Proof.
  induction names as [|n names IH]; simpl; intros H.
  - exists []. split; [reflexivity | constructor].
  - unfold missing_names in H. simpl in H. unfold Dict.contains in H at 1.
    destruct (Dict.get n (uplifts store)) as [u|] eqn:E; simpl in H;
      [| discriminate H].
    destruct (IH H) as (sel & Hsel & Hall).
    exists (u :: sel). simpl. rewrite Hsel. simpl.
    split; [reflexivity | constructor; assumption].
Qed.

Lemma filter_nil_iff (A : Type) (f : A -> bool) (l : list A) :
  filter f l = [] <-> forall x, In x l -> f x = false.
Proof.
  induction l as [|a l IH]; simpl.
  - split; [intros _ x [] | reflexivity].
  - destruct (f a) eqn:E.
    + split; [discriminate |].
      intros H. specialize (H a (or_introl eq_refl)). congruence.
    + rewrite IH. split.
      * intros H x [<- | Hx]; auto.
      * intros H x Hx. apply H. right; assumption.
Qed.

End ResolveUplifts.

(** C4: without names, [_resolve_uplifts] returns the enabled uplifts; with
    names (the empty list included) it raises the Unknown-uplifts error
    carrying every provided name that is absent from the uplift set as soon
    as one is absent, and otherwise returns the named uplifts, one per name,
    in input order, whatever their enabled flag. *)
Theorem resolve_uplifts_contract (store : DataStore) :
  _resolve_uplifts store None
  = Ok (filter Uplift.enabled (Dict.values (uplifts store)))
  /\ _resolve_uplifts store (Some []) = Ok []
  /\ (forall names,
        (exists name, In name names
                      /\ Dict.contains name (uplifts store) = false) ->
        _resolve_uplifts store (Some names)
        = Raise (HTTPException 400
                   (Unknown_uplifts (missing_names store names)))
        /\ forall name,
             In name (missing_names store names)
             <-> In name names /\ Dict.contains name (uplifts store) = false)
  /\ (forall names,
        (forall name, In name names ->
                      Dict.contains name (uplifts store) = true) ->
        exists selected,
          _resolve_uplifts store (Some names) = Ok selected
          /\ Forall2 (fun name u => Dict.get name (uplifts store) = Some u)
                     names selected).
Proof.
  split; [reflexivity |]. split; [reflexivity |]. split.
  - intros names (name & Hin & Habs). split.
    + unfold _resolve_uplifts.
      destruct (missing_names store names) eqn:E; [| reflexivity].
      exfalso. unfold missing_names in E. rewrite filter_nil_iff in E.
      specialize (E name Hin). simpl in E. rewrite Habs in E.
      discriminate E.
    + intros n. unfold missing_names. rewrite filter_In.
      destruct (Dict.contains n (uplifts store)); simpl; intuition congruence.
  - intros names Hall. unfold _resolve_uplifts.
    assert (E : missing_names store names = []).
    { apply filter_nil_iff. intros n Hn.
      rewrite (Hall n Hn). reflexivity. }
    rewrite E. apply traverse_lookup. assumption.
Qed.

(** C4 at the test snapshot: one unknown name among valid ones raises and is
    the only one listed; a repeated valid name is returned twice, and counts
    twice in the uplift of a quote. *)
Lemma resolve_uplifts_contract_witness :
  (_resolve_uplifts Example.store (Some ["Default"; "Rush"; "Default"])
   = Raise (HTTPException 400 (Unknown_uplifts ["Rush"])))
  /\ (exists selected,
        _resolve_uplifts Example.store (Some ["Default"; "Default"])
        = Ok selected
        /\ Forall2 (fun name u =>
                      Dict.get name (uplifts Example.store) = Some u)
                   ["Default"; "Default"] selected)
  /\ (exists q,
        _calculate_sku_quote Example.store "SKU-A" 30%float
          (Some ["Default"; "Default"]) = Ok q
        /\ SkuQuote.uplift_decimal q = 0.4%float).
Proof.
  split; [| split].
  3: { eexists. split; vm_compute; reflexivity. }
  - apply (proj1 (proj1 (proj2 (proj2 (resolve_uplifts_contract Example.store)))
                        ["Default"; "Rush"; "Default"]
                        (ex_intro _ "Rush" (conj (or_intror (or_introl eq_refl))
                                                 eq_refl)))).
  - apply (proj2 (proj2 (proj2 (resolve_uplifts_contract Example.store)))
                 ["Default"; "Default"]).
    intros name [<- | [<- | []]]; reflexivity.
Defined.

(* ================================================================= *)
(** ** Boolean coercion *)

Section Strip.
Import PyStr.

Lemma lstrip_split s :
  exists pre, s = (pre ++ lstrip s)%string /\ all_space pre = true.
Proof.
  induction s as [|c s (pre & E & Hpre)]; simpl.
  - exists EmptyString. auto.
  - destruct (is_space c) eqn:Hc.
    + exists (String c pre). simpl. rewrite Hc, Hpre, <- E. auto.
    + exists EmptyString. auto.
Qed.

Lemma rstrip_split s :
  exists post, s = (rstrip s ++ post)%string /\ all_space post = true.
Proof.
  induction s as [|c s (post & E & Hpost)]; simpl.
  - exists EmptyString. auto.
  - destruct (rstrip s) as [|c' t] eqn:Hr.
    + simpl in E. subst post. destruct (is_space c) eqn:Hc.
      * exists (String c s). simpl. rewrite Hc, Hpost. auto.
      * exists s. auto.
    + exists post. rewrite E at 1. auto.
Qed.

Lemma lstrip_all_space pre s :
  all_space pre = true -> lstrip (pre ++ s) = lstrip s.
Proof.
  induction pre as [|c pre IH]; simpl; intros H; auto.
  apply andb_prop in H. destruct H as [Hc H]. rewrite Hc. auto.
Qed.

Lemma rstrip_all_space_nil post :
  all_space post = true -> rstrip post = EmptyString.
Proof.
  induction post as [|c post IH]; simpl; intros H; auto.
  apply andb_prop in H. destruct H as [Hc H]. rewrite (IH H), Hc. reflexivity.
Qed.

Lemma rstrip_all_space s post :
  all_space post = true -> rstrip (s ++ post) = rstrip s.
Proof.
  intros H. induction s as [|c s IH]; simpl.
  - apply rstrip_all_space_nil; assumption.
  - rewrite IH. reflexivity.
Qed.

Lemma rstrip_no_space s : no_space s = true -> rstrip s = s.
Proof.
  induction s as [|c s IH]; simpl; intros H; auto.
  apply andb_prop in H. destruct H as [Hc H]. rewrite (IH H).
  destruct s; [| reflexivity].
  destruct (is_space c); [discriminate Hc | reflexivity].
Qed.

Lemma strip_core pre core post :
  all_space pre = true -> all_space post = true ->
  no_space core = true -> core <> EmptyString ->
  strip (pre ++ core ++ post) = core.
Proof.
  intros Hpre Hpost Hcore Hne. unfold strip.
  rewrite lstrip_all_space by assumption.
  destruct core as [|c core]; [congruence |].
  simpl in Hcore. apply andb_prop in Hcore. destruct Hcore as [Hc Hcore].
  assert (E : lstrip (String c core ++ post) = (String c core ++ post)%string).
  { simpl. destruct (is_space c); [discriminate Hc | reflexivity]. }
  rewrite E, rstrip_all_space by assumption.
  apply rstrip_no_space. simpl.
  destruct (is_space c); [discriminate Hc |]. assumption.
Qed.

Lemma is_space_lower_char c : is_space (lower_char c) = is_space c.
Proof.
  destruct c as [b0 b1 b2 b3 b4 b5 b6 b7].
  destruct b0, b1, b2, b3, b4, b5, b6, b7; reflexivity.
Qed.

Lemma no_space_lower s : no_space (lower s) = no_space s.
Proof.
  induction s as [|c s IH]; simpl; auto.
  rewrite is_space_lower_char, IH. reflexivity.
Qed.

Lemma word_shape core :
  case_insensitive_word core = true ->
  no_space core = true /\ core <> EmptyString.
Proof.
  unfold case_insensitive_word, truthy_words. simpl. intros H.
  assert (Hw : no_space (lower core) = true /\ lower core <> EmptyString).
  { repeat (apply orb_prop in H; destruct H as [H | H]);
      try discriminate H;
      apply String.eqb_eq in H; rewrite H; split;
      solve [reflexivity | discriminate]. }
  destruct Hw as [Hs Hn]. rewrite no_space_lower in Hs. split; auto.
  intros ->. apply Hn. reflexivity.
Qed.

End Strip.

(** C9, as amended: [_parse_bool] is total, and it returns true exactly when
    the text, once the white space around it is stripped, is a
    case-insensitive match for one of "true", "1", "yes", "y": the text is
    such a word between two runs of white space. *)
Theorem parse_bool_stripped_word (value : string) :
  DataStoreOps._parse_bool value = case_insensitive_word (PyStr.strip value)
  /\ (DataStoreOps._parse_bool value = true <->
      exists pre core post,
        value = (pre ++ core ++ post)%string
        /\ PyStr.all_space pre = true /\ PyStr.all_space post = true
        /\ case_insensitive_word core = true).
Proof.
  split; [reflexivity |].
  change (DataStoreOps._parse_bool value)
    with (case_insensitive_word (PyStr.strip value)).
  split.
  - intros H.
    destruct (lstrip_split value) as (pre & E1 & Hpre).
    destruct (rstrip_split (PyStr.lstrip value)) as (post & E2 & Hpost).
    exists pre, (PyStr.strip value), post. repeat split; auto.
    unfold PyStr.strip. rewrite <- E2. exact E1.
  - intros (pre & core & post & -> & Hpre & Hpost & Hw).
    destruct (word_shape core Hw) as [Hs Hn].
    rewrite strip_core; assumption.
Qed.

(** C9, as stated, fails: " yes " is not a case-insensitive match for any
    of the four words, and [_parse_bool] returns true on it. *)
Lemma parse_bool_padded_yes :
  DataStoreOps._parse_bool " yes " = true
  /\ case_insensitive_word " yes " = false.
Proof. split; reflexivity. Qed.

(* ================================================================= *)
(** ** Results *)

Lemma Ok_inj (A : Type) (a b : A) : Ok a = Ok b -> a = b.
Proof.
  intros H.
  exact (f_equal (fun r => match r with Ok x => x | Raise _ => a end) H).
Qed.

Lemma Some_inj (A : Type) (a b : A) : Some a = Some b -> a = b.
Proof.
  intros H.
  exact (f_equal (fun o => match o with Some x => x | None => a end) H).
Qed.

(* ================================================================= *)
(** ** Dictionaries *)

Section DictFacts.
Variable V : Type.
Implicit Types (d : Dict.t V) (k : string) (v : V).

Lemma get_set_same k v d : Dict.get k (Dict.set k v d) = Some v.
Proof.
  induction d as [|[k' v'] d IH]; simpl.
  - rewrite String.eqb_refl. reflexivity.
  - destruct (String.eqb k' k) eqn:E; simpl; rewrite E; auto.
Qed.

Lemma get_set_other k k' v d :
  k <> k' -> Dict.get k (Dict.set k' v d) = Dict.get k d.
Proof.
  intros Hne. induction d as [|[k0 v0] d IH]; simpl.
  - destruct (String.eqb k' k) eqn:E; auto.
    apply String.eqb_eq in E. congruence.
  - destruct (String.eqb k0 k') eqn:E; simpl.
    + apply String.eqb_eq in E. subst k0.
      destruct (String.eqb k' k) eqn:E'; auto.
      apply String.eqb_eq in E'. congruence.
    + destruct (String.eqb k0 k); auto.
Qed.

Lemma contains_set k k' v d :
  Dict.contains k (Dict.set k' v d) = true
  <-> k = k' \/ Dict.contains k d = true.
Proof.
  unfold Dict.contains. destruct (string_dec k k') as [-> | Hne].
  - rewrite get_set_same. intuition.
  - rewrite get_set_other by assumption. intuition.
Qed.

Lemma contains_get k d :
  Dict.contains k d = true <-> exists v, Dict.get k d = Some v.
Proof.
  unfold Dict.contains. destruct (Dict.get k d) as [v|].
  - split; eauto.
  - split; [discriminate | intros (v & H); discriminate H].
Qed.

End DictFacts.

(* ================================================================= *)
(** ** The use-case mapping parse *)

Section MappingParse.
Import MappingSpec.
Variable float_of_str : string -> option float.

Local Abbreviation parse_cells := (DataStoreOps.parse_cells float_of_str).
Local Abbreviation mapping_loop := (DataStoreOps.mapping_loop float_of_str).
Local Abbreviation cell := (coerced_cell float_of_str).
Local Abbreviation code := DataStoreOps.row_sku_code.

Lemma parse_cells_ok r use_cases : forall acc,
  (forall u, In u use_cases -> is_ok (cell r u) = true) ->
  exists entry,
    parse_cells r use_cases acc = Ok entry
    /\ (forall u, In u use_cases ->
          exists v, cell r u = Ok v /\ Dict.get u entry = Some v)
    /\ (forall k, ~ In k use_cases -> Dict.get k entry = Dict.get k acc).
Proof.
  induction use_cases as [|u us IH]; intros acc Hok; simpl.
  - exists acc. split; [reflexivity |]. split; [intros u [] | reflexivity].
  - assert (Hu := Hok u (or_introl eq_refl)). unfold coerced_cell in Hu.
    destruct (DataStoreOps._parse_float float_of_str
                (Dict.get_default u EmptyString r)) as [v|e] eqn:Ev;
      [| discriminate Hu].
    simpl.
    destruct (IH (Dict.set u v acc)) as (entry & E & Hin & Hout).
    { intros u' Hu'. apply Hok. right; assumption. }
    exists entry. split; [assumption |]. split.
    + intros u' [<- | Hu'].
      * destruct (in_dec string_dec u us) as [Hi | Hni].
        -- apply Hin; assumption.
        -- exists v. split; [exact Ev |].
           rewrite (Hout u Hni). apply get_set_same.
      * apply Hin; assumption.
    + intros k Hk. rewrite Hout by (intros H; apply Hk; right; exact H).
      apply get_set_other. intros ->. apply Hk. left; reflexivity.
Qed.

Lemma parse_cells_fail r use_cases : forall acc u,
  In u use_cases -> is_ok (cell r u) = false ->
  is_ok (parse_cells r use_cases acc) = false.
Proof.
  induction use_cases as [|u0 us IH]; intros acc u Hin Hbad; simpl.
  - contradiction.
  - fold (cell r u0).
    destruct (cell r u0) as [v|e] eqn:Ev; simpl; [| reflexivity].
    destruct Hin as [-> | Hin].
    + rewrite Ev in Hbad. discriminate Hbad.
    + eapply IH; eassumption.
Qed.

(** A code carried by no retained row keeps its previous binding. *)
Lemma mapping_loop_untouched use_cases rows : forall parsed result k,
  mapping_loop use_cases rows parsed = Ok result ->
  (forall r, In r rows -> retained r = true -> code r <> k) ->
  Dict.get k result = Dict.get k parsed.
Proof.
  induction rows as [|r rows IH]; intros parsed result k Hrun Hk; simpl in Hrun.
  - injection Hrun as <-. reflexivity.
  - fold (retained r) in Hrun. destruct (retained r) eqn:Hr; simpl in Hrun.
    + destruct (parse_cells r use_cases Dict.empty) as [entry|e];
        simpl in Hrun; [| discriminate Hrun].
      rewrite (IH _ _ k Hrun).
      * apply get_set_other. intros ->.
        apply (Hk r (or_introl eq_refl) Hr). reflexivity.
      * intros r' Hr'. apply Hk. right; assumption.
    + apply (IH _ _ k Hrun). intros r' Hr'. apply Hk. right; assumption.
Qed.

(** The last retained row of a code decides the code's entry. *)
Lemma mapping_loop_last use_cases before r after : forall parsed result,
  mapping_loop use_cases (before ++ r :: after) parsed = Ok result ->
  retained r = true ->
  (forall r', In r' after -> retained r' = true -> code r' <> code r) ->
  exists entry,
    parse_cells r use_cases Dict.empty = Ok entry
    /\ Dict.get (code r) result = Some entry.
Proof.
  induction before as [|r0 before IH]; intros parsed result Hrun Hr Hlast;
    simpl in Hrun.
  - fold (retained r) in Hrun. rewrite Hr in Hrun. simpl in Hrun.
    destruct (parse_cells r use_cases Dict.empty) as [entry|e];
      simpl in Hrun; [| discriminate Hrun].
    exists entry. split; [reflexivity |].
    rewrite (mapping_loop_untouched _ _ _ _ (code r) Hrun Hlast).
    apply get_set_same.
  - fold (retained r0) in Hrun. destruct (retained r0); simpl in Hrun.
    + destruct (parse_cells r0 use_cases Dict.empty) as [entry0|e];
        simpl in Hrun; [| discriminate Hrun].
      eapply IH; eassumption.
    + eapply IH; eassumption.
Qed.

Lemma mapping_loop_keys use_cases rows : forall parsed result k,
  mapping_loop use_cases rows parsed = Ok result ->
  Dict.contains k result = true ->
  Dict.contains k parsed = true
  \/ exists r, In r rows /\ retained r = true /\ code r = k.
Proof.
  induction rows as [|r rows IH]; intros parsed result k Hrun Hk;
    simpl in Hrun.
  - injection Hrun as <-. left; assumption.
  - fold (retained r) in Hrun. destruct (retained r) eqn:Hr; simpl in Hrun.
    + destruct (parse_cells r use_cases Dict.empty) as [entry|e];
        simpl in Hrun; [| discriminate Hrun].
      destruct (IH _ _ k Hrun Hk) as [H | (r' & Hin & Hr' & E)].
      * apply contains_set in H. destruct H as [-> | H]; [| left; exact H].
        right. exists r. simpl. auto.
      * right. exists r'. simpl. auto.
    + destruct (IH _ _ k Hrun Hk) as [H | (r' & Hin & Hr' & E)];
        [left; exact H |].
      right. exists r'. simpl. auto.
Qed.

Lemma mapping_loop_ok use_cases rows : forall parsed,
  (forall r u, In r rows -> retained r = true -> In u use_cases ->
               is_ok (cell r u) = true) ->
  exists result, mapping_loop use_cases rows parsed = Ok result.
Proof.
  induction rows as [|r rows IH]; intros parsed Hok; simpl.
  - eauto.
  - fold (retained r). destruct (retained r) eqn:Hr; simpl.
    + destruct (parse_cells_ok r use_cases Dict.empty) as (entry & E & _).
      { intros u Hu. apply (Hok r u); simpl; auto. }
      rewrite E. simpl. apply IH.
      intros r' u Hin. apply Hok. right; assumption.
    + apply IH. intros r' u Hin. apply Hok. right; assumption.
Qed.

Lemma mapping_loop_fail use_cases rows : forall parsed r u,
  In r rows -> retained r = true -> In u use_cases ->
  is_ok (cell r u) = false ->
  is_ok (mapping_loop use_cases rows parsed) = false.
Proof.
  induction rows as [|r0 rows IH]; intros parsed r u Hin Hr Hu Hbad; simpl.
  - contradiction.
  - fold (retained r0). destruct Hin as [-> | Hin].
    + rewrite Hr. simpl.
      pose proof (parse_cells_fail r use_cases Dict.empty u Hu Hbad) as F.
      destruct (parse_cells r use_cases Dict.empty); [discriminate F |].
      reflexivity.
    + destruct (retained r0); simpl.
      * destruct (parse_cells r0 use_cases Dict.empty); simpl;
          [| reflexivity].
        eapply IH; eassumption.
      * eapply IH; eassumption.
Qed.

Lemma parse_cells_entry r use_cases entry :
  parse_cells r use_cases Dict.empty = Ok entry ->
  (forall u, In u use_cases -> is_ok (cell r u) = true) ->
  entry_of_row float_of_str use_cases r entry.
Proof.
  intros E Hok.
  destruct (parse_cells_ok r use_cases Dict.empty Hok) as (entry' & E' & Hin & Hout).
  rewrite E in E'. injection E' as <-. split; [exact Hin |].
  intros k Hk. destruct (in_dec string_dec k use_cases) as [H | H]; auto.
  unfold Dict.contains in Hk. rewrite (Hout k H) in Hk. discriminate Hk.
Qed.

End MappingParse.

Section MappingParseTheorems.
Import MappingSpec.
Variable float_of_str : string -> option float.

Local Abbreviation code := DataStoreOps.row_sku_code.

(** Among the retained rows of a code, one is the last. *)
Lemma last_retained_row rows k :
  (exists r, In r rows /\ retained r = true /\ code r = k) ->
  exists before r after,
    rows = before ++ r :: after /\ retained r = true /\ code r = k
    /\ forall r', In r' after -> retained r' = true -> code r' <> k.
Proof.
  induction rows as [|r0 rows IH]; intros (r & Hin & Hr & Hk).
  - contradiction.
  - destruct (existsb (fun r' => retained r' && String.eqb (code r') k) rows)
      eqn:E.
    + apply existsb_exists in E. destruct E as (r' & Hin' & H').
      apply andb_prop in H'. destruct H' as [Hr' Hk'].
      apply String.eqb_eq in Hk'.
      destruct IH as (before & r1 & after & -> & H1 & H2 & H3); [eauto |].
      exists (r0 :: before), r1, after. auto.
    + assert (Hnone : forall r', In r' rows -> retained r' = true ->
                                  code r' <> k).
      { intros r' Hin' Hr' Hk'.
        assert (F : existsb (fun r' => retained r' && String.eqb (code r') k)
                            rows = true).
        { apply existsb_exists. exists r'. split; [assumption |].
          rewrite Hr'. simpl. apply String.eqb_eq. assumption. }
        congruence. }
      destruct Hin as [-> | Hin].
      * exists [], r, rows. auto.
      * exfalso. exact (Hnone r Hin Hr Hk).
Qed.

Lemma coerced_cell_empty r u :
  Dict.get u r = None \/ Dict.get u r = Some EmptyString ->
  coerced_cell float_of_str r u = Ok 0%float.
Proof.
  unfold coerced_cell, Dict.get_default. intros [-> | ->]; reflexivity.
Qed.

Lemma parse_use_case_mappings_run rows :
  DataStoreOps._parse_use_case_mappings float_of_str rows
  = match rows with
    | [] => Ok (Dict.empty, [])
    | _ :: _ =>
        parsed <- DataStoreOps.mapping_loop float_of_str
                    (use_case_headers rows) rows Dict.empty ;;
        Ok (parsed, use_case_headers rows)
    end.
Proof. destruct rows; reflexivity. Qed.

End MappingParseTheorems.


(** The parsing test of the repository, run on the decimal reading. *)
Example test_parse_use_case_mappings :
  DataStoreOps._parse_use_case_mappings Decimal.float_of_str
    MappingSpec.test_rows
  = Ok ([("SKU-A", [("Early-Stage AI Startup", 1200.5%float);
                    ("Academic Research", 0%float)]);
         ("SKU-B", [("Early-Stage AI Startup", 0%float);
                    ("Academic Research", 3%float)])],
        ["Early-Stage AI Startup"; "Academic Research"]).
Proof. vm_compute. reflexivity. Qed.



(* ================================================================= *)
(** ** Refresh *)

Section Refresh.
Variable float_of_str : string -> option float.

Local Abbreviation refresh_once := (DataStoreOps.refresh_once float_of_str).
Local Abbreviation ensure_fresh := (DataStoreOps.ensure_fresh float_of_str).

Ltac same_world :=
  unfold log, tick, time_time, modify_store, bindM; simpl;
  repeat rewrite <- app_assoc; reflexivity.

(** [refresh_once] as one case analysis on what the world delivers. *)
Lemma refresh_once_run s w :
  refresh_once (s, w)
  = let w' := mkWorld (environ w) (http_get w) (clock w) (ticks w)
                      (trace w ++ [EvAcquire] ++ requests w) in
    match loaded float_of_str w with
    | Ok parsed =>
        (Ok tt,
         (set_last_refresh_utc (Some (clock w (ticks w))) (install parsed s),
          log EvRelease (tick w')))
    | Raise e => (Raise e, (s, log EvRelease w'))
    end.
Proof.
  unfold DataStoreOps.refresh_once, DataStoreOps.refresh_body, loaded, gathered,
    requests, finally, bindM, modify_world, get_world, raise. simpl.
  destruct (DataStoreOps.read_config (environ w)) as [[[[p v] u] m]|]; simpl.
  2: { unfold log. simpl. rewrite <- app_assoc. reflexivity. }
  unfold DataStoreOps.gather4, DataStoreOps.send, DataStoreOps.receive,
    bindM, modify_world, get_world, lift, ret. simpl.
  destruct (http_get w p) as [price_rows|e]; simpl; [| same_world].
  destruct (http_get w v) as [volume_rows|e]; simpl; [| same_world].
  destruct (http_get w u) as [uplift_rows|e]; simpl; [| same_world].
  destruct (http_get w m) as [use_case_rows|e]; simpl; [| same_world].
  destruct (DataStoreOps.parse_all float_of_str _ _ _ _) as [parsed|e]; simpl;
    same_world.
Qed.

End Refresh.

(** C5: when [refresh_once] raises, whatever the reason (a missing
    configuration value, a failed fetch, a missing column, a cell that is not
    a number), the five snapshot fields and [last_refresh_utc] are those of
    before the call; they are replaced, all six together, exactly when the
    configuration is present and the four fetches and all the parsing
    succeed. *)
Theorem refresh_once_all_or_nothing
        (float_of_str : string -> option float) (s : DataStore) (w : World) :
  let out := DataStoreOps.refresh_once float_of_str (s, w) in
  (forall e, fst out = Raise e -> fst (snd out) = s)
  /\ (forall e, loaded float_of_str w = Raise e ->
                fst out = Raise e /\ fst (snd out) = s)
  /\ (forall parsed,
        loaded float_of_str w = Ok parsed ->
        fst out = Ok tt
        /\ fst (snd out)
           = mkStore (parsed_skus parsed) (parsed_discounts parsed)
                     (parsed_uplifts parsed) (parsed_use_case_mappings parsed)
                     (parsed_use_cases parsed) (Some (clock w (ticks w))))
  /\ (DataStoreOps.read_config (environ w) = None ->
      fst out = Raise RuntimeError
      /\ trace (snd (snd out)) = trace w ++ [EvAcquire; EvRelease])
  /\ (fst (snd out) <> s -> exists parsed, loaded float_of_str w = Ok parsed).
Proof.
  intros out. unfold out. rewrite refresh_once_run.
  split; [| split; [| split; [| split]]].
  5: { destruct (loaded float_of_str w) as [parsed|e]; simpl; [eauto |].
       intros H. congruence. }
  - intros e. destruct (loaded float_of_str w); simpl; [discriminate | auto].
  - intros e ->. simpl. split; reflexivity.
  - intros parsed ->. simpl. split; reflexivity.
  - intros Hc. unfold loaded, requests. rewrite Hc. simpl.
    split; [reflexivity |]. rewrite <- app_assoc. reflexivity.
Qed.

(** C5 on a cache that holds the test snapshot: a refresh that meets a
    missing address, a failed fetch, a missing column or a cell that is not a
    number leaves the snapshot as it was. *)
Lemma refresh_once_all_or_nothing_witness :
  fst (snd (DataStoreOps.refresh_once Decimal.float_of_str
              (Example.store, ExampleWorld.unconfigured))) = Example.store
  /\ fst (snd (DataStoreOps.refresh_once Decimal.float_of_str
                 (Example.store, ExampleWorld.uplifts_down))) = Example.store
  /\ fst (snd (DataStoreOps.refresh_once Decimal.float_of_str
                 (Example.store, ExampleWorld.bad_schema))) = Example.store
  /\ fst (snd (DataStoreOps.refresh_once Decimal.float_of_str
                 (Example.store, ExampleWorld.bad_price))) = Example.store.
Proof.
  split; [| split; [| split]].
  - apply (proj1 (refresh_once_all_or_nothing Decimal.float_of_str
                    Example.store ExampleWorld.unconfigured) RuntimeError).
    reflexivity.
  - apply (proj1 (refresh_once_all_or_nothing Decimal.float_of_str
                    Example.store ExampleWorld.uplifts_down)
                 (HTTPError "https://sheets/uplifts")).
    reflexivity.
  - apply (proj1 (refresh_once_all_or_nothing Decimal.float_of_str
                    Example.store ExampleWorld.bad_schema)
                 (KeyError "Discount % (as decimal)")).
    reflexivity.
  - apply (proj1 (refresh_once_all_or_nothing Decimal.float_of_str
                    Example.store ExampleWorld.bad_price)
                 (ValueError "two")).
    reflexivity.
Defined.

(** A refresh of the empty cache from the four example tables installs the
    test snapshot, stamped with the clock reading. *)
Example refresh_once_installs :
  DataStoreOps.refresh_once Decimal.float_of_str (init_store, ExampleWorld.up)
  = (Ok tt,
     (set_last_refresh_utc (Some 1000%float) Example.store,
      mkWorld ExampleWorld.environ ExampleWorld.http_get ExampleWorld.clock 1
              [EvAcquire; EvGet "https://sheets/prices";
               EvGet "https://sheets/volume"; EvGet "https://sheets/uplifts";
               EvGet "https://sheets/use-cases"; EvRelease])).
Proof. vm_compute. reflexivity. Qed.

(** The [/quote] handler answers from the snapshot that [ensure_fresh]
    leaves. *)
Lemma quote_after_ensure_fresh
      (float_of_str : string -> option float) (payload : QuoteRequest.t)
      (s : DataStore) (w : World) :
  DataStoreOps.quote float_of_str payload (s, w)
  = match DataStoreOps.ensure_fresh float_of_str (s, w) with
    | (Ok _, (s', w')) => (quote_on_snapshot s' payload, (s', w'))
    | (Raise e, sw') => (Raise e, sw')
    end.
Proof.
  unfold DataStoreOps.quote, bindM, get_store, lift.
  destruct (DataStoreOps.ensure_fresh float_of_str (s, w)) as [[u|e] [s' w']];
    reflexivity.
Qed.

(* ================================================================= *)
(** ** Staleness *)

(** C6: [ensure_fresh] reads the clock and calls [refresh_once] exactly
    when no refresh has completed or the time elapsed since
    [last_refresh_utc] is at least 600; otherwise it does nothing: the cache
    is unchanged and no lock is taken and no request issued. *)
Theorem ensure_fresh_refreshes_iff_stale
        (float_of_str : string -> option float) (s : DataStore) (w : World) :
  let now := clock w (ticks w) in
  let out := DataStoreOps.ensure_fresh float_of_str (s, w) in
  (stale now (last_refresh_utc s) = true <->
   last_refresh_utc s = None
   \/ exists t, last_refresh_utc s = Some t
                /\ (REFRESH_SECONDS <=? now - t)%float = true)
  /\ REFRESH_SECONDS = 600%float
  /\ (stale now (last_refresh_utc s) = true ->
      out = DataStoreOps.refresh_once float_of_str (s, tick w)
      /\ exists events,
           trace (snd (snd out)) = trace w ++ EvAcquire :: events)
  /\ (stale now (last_refresh_utc s) = false ->
      out = (Ok tt, (s, tick w)) /\ trace (snd (snd out)) = trace w).
Proof.
  intros now out. split; [| split; [reflexivity | split]].
  - unfold stale, PyFloat.geb. destruct (last_refresh_utc s) as [t|].
    + split.
      * intros H. right. exists t. auto.
      * intros [H | (t' & E & H)]; [discriminate H |].
        injection E as <-. exact H.
    + split; auto.
  - intros H. unfold out, DataStoreOps.ensure_fresh, bindM, time_time,
      get_store. simpl. fold now. rewrite H. split; [reflexivity |].
    rewrite refresh_once_run.
    destruct (loaded float_of_str (tick w)); simpl;
      eexists; rewrite <- app_assoc; simpl; reflexivity.
  - intros H. unfold out, DataStoreOps.ensure_fresh, bindM, time_time,
      get_store. simpl. fold now. rewrite H. split; reflexivity.
Qed.

(** C6 on the test snapshot refreshed at time 1000: a call at 1100 does
    nothing; a call at 1600 refreshes. *)
Lemma ensure_fresh_refreshes_iff_stale_witness :
  DataStoreOps.ensure_fresh Decimal.float_of_str
    (set_last_refresh_utc (Some 1000%float) Example.store,
     tick ExampleWorld.up)
  = (Ok tt, (set_last_refresh_utc (Some 1000%float) Example.store,
             tick (tick ExampleWorld.up)))
  /\ DataStoreOps.ensure_fresh Decimal.float_of_str
       (set_last_refresh_utc (Some 1000%float) Example.store,
        mkWorld ExampleWorld.environ ExampleWorld.http_get ExampleWorld.clock
                6 [])
     = DataStoreOps.refresh_once Decimal.float_of_str
         (set_last_refresh_utc (Some 1000%float) Example.store,
          mkWorld ExampleWorld.environ ExampleWorld.http_get ExampleWorld.clock
                  7 []).
Proof.
  split.
  - apply (proj2 (proj2 (proj2 (ensure_fresh_refreshes_iff_stale
                                  Decimal.float_of_str
                                  (set_last_refresh_utc (Some 1000%float)
                                                        Example.store)
                                  (tick ExampleWorld.up))))).
    reflexivity.
  - apply (proj1 (proj2 (proj2 (ensure_fresh_refreshes_iff_stale
                                  Decimal.float_of_str
                                  (set_last_refresh_utc (Some 1000%float)
                                                        Example.store)
                                  (mkWorld ExampleWorld.environ
                                           ExampleWorld.http_get
                                           ExampleWorld.clock 6 []))))).
    reflexivity.
Defined.

(* ================================================================= *)
(** ** The use-case quote *)

Section SortLines.
Import UseCaseSpec.
Open Scope float_scope.

Lemma insert_desc_perm x l : Permutation (x :: l) (insert_desc x l).
Proof.
  induction l as [|y l IH]; simpl.
  - apply Permutation_refl.
  - destruct (Line.cost_usd x <? Line.cost_usd y).
    + apply perm_trans with (y :: x :: l); [apply perm_swap |].
      apply perm_skip. exact IH.
    + apply Permutation_refl.
Qed.

Lemma sort_cost_desc_perm l : Permutation l (sort_cost_desc l).
Proof.
  induction l as [|x l IH]; simpl.
  - apply perm_nil.
  - apply perm_trans with (x :: sort_cost_desc l).
    + apply perm_skip. exact IH.
    + apply insert_desc_perm.
Qed.

Lemma insert_desc_sorted x l :
  is_nan (Line.cost_usd x) = false -> no_nan_cost l ->
  descending l -> descending (insert_desc x l).
Proof.
  intros Hx Hl Hs. induction Hs as [|y l Hs IH Hy]; simpl.
  - constructor; constructor.
  - inversion Hl as [|? ? Hny Hl']; subst.
    destruct (Line.cost_usd x <? Line.cost_usd y) eqn:E.
    + constructor; [apply IH; assumption |].
      apply (Permutation_Forall (insert_desc_perm x l)).
      constructor; [| exact Hy]. auto with float_order.
    + assert (Hyx : (Line.cost_usd y <=? Line.cost_usd x) = true)
        by auto with float_order.
      constructor; [constructor; assumption |].
      constructor; [exact Hyx |].
      eapply Forall_impl; [| exact Hy]. simpl. intros z Hz.
      eapply FloatOrder.leb_trans; eassumption.
Qed.

(** The sort is stable: the lines of one cost keep their order. *)
Lemma insert_desc_stable c x l :
  filter (fun a => Line.cost_usd a =? c) (insert_desc x l)
  = filter (fun a => Line.cost_usd a =? c) (x :: l).
Proof.
  induction l as [|y l IH]; [reflexivity |].
  cbn [insert_desc].
  destruct (Line.cost_usd x <? Line.cost_usd y) eqn:E; [| reflexivity].
  cbn [filter] in *. rewrite IH.
  destruct (Line.cost_usd x =? c) eqn:Ex; [| reflexivity].
  rewrite (FloatOrder.ltb_eqb _ _ _ E Ex). reflexivity.
Qed.

Lemma sort_cost_desc_stable c l :
  filter (fun a => Line.cost_usd a =? c) (sort_cost_desc l)
  = filter (fun a => Line.cost_usd a =? c) l.
Proof.
  induction l as [|x l IH]; [reflexivity |].
  cbn [sort_cost_desc fold_right]. fold (sort_cost_desc l).
  rewrite insert_desc_stable. cbn [filter]. rewrite IH. reflexivity.
Qed.

Lemma sort_cost_desc_sorted l :
  no_nan_cost l -> descending (sort_cost_desc l).
Proof.
  induction l as [|x l IH]; simpl; intros H.
  - constructor.
  - inversion H as [|? ? Hx Hl]; subst.
    apply insert_desc_sorted; auto.
    apply (Permutation_Forall (sort_cost_desc_perm l)). exact Hl.
Qed.

End SortLines.

Section UseCaseLoop.
Import UseCaseSpec.
Open Scope float_scope.
Variable store : DataStore.
Variable use_case : string.
Variable hours : float.
Variable uplift_names : option (list string).

Local Abbreviation kept := (retained store use_case hours).
Local Abbreviation quote_of := (line_quote store use_case hours uplift_names).
Local Abbreviation is_line := (line_of store use_case hours uplift_names).
Local Abbreviation loop := (use_case_loop store use_case hours uplift_names).

Lemma use_case_line_run item :
  use_case_line store use_case hours uplift_names item
  = if kept item
    then q <- quote_of item ;;
         Ok (Some (Line.mk (fst item) (SkuQuote.sku_name q)
                           (SkuQuote.unit_label q)
                           (units_per_hour use_case item)
                           (units_total use_case hours item)
                           (SkuQuote.final_cost q)))
    else Ok None.
Proof.
  destruct item as [code per].
  unfold use_case_line, retained, line_quote, units_total, units_per_hour.
  simpl.
  destruct (Dict.get_default use_case 0 per * hours <=? 0); simpl;
    [reflexivity |].
  destruct (Dict.contains code (skus store)); reflexivity.
Qed.

Lemma use_case_loop_ok items : forall breakdown total,
  (forall item, In item items -> kept item = true ->
                is_ok (quote_of item) = true) ->
  exists lines,
    loop items breakdown total
    = Ok (breakdown ++ lines,
          fold_left PrimFloat.add (map Line.cost_usd lines) total)
    /\ Forall2 is_line (filter kept items) lines.
Proof.
  induction items as [|item items IH]; intros breakdown total Hok.
  - exists []. simpl. rewrite app_nil_r. split; [reflexivity | constructor].
  - cbn [use_case_loop filter]. rewrite use_case_line_run.
    destruct (kept item) eqn:Hk.
    + assert (Hq := Hok item (or_introl eq_refl) Hk).
      destruct (quote_of item) as [q|e] eqn:Eq; [| discriminate Hq].
      cbn [bind].
      set (l := Line.mk (fst item) (SkuQuote.sku_name q)
                        (SkuQuote.unit_label q)
                        (units_per_hour use_case item)
                        (units_total use_case hours item)
                        (SkuQuote.final_cost q)).
      destruct (IH (breakdown ++ [l]) (total + Line.cost_usd l))
        as (lines & E & Hall).
      { intros item' Hin. apply Hok. right; exact Hin. }
      exists (l :: lines). split.
      * rewrite E. rewrite <- app_assoc. reflexivity.
      * constructor; [| exact Hall]. exists q. split; [exact Eq | reflexivity].
    + cbn [bind].
      destruct (IH breakdown total) as (lines & E & Hall).
      { intros item' Hin. apply Hok. right; exact Hin. }
      exists lines. split; assumption.
Qed.

Lemma use_case_loop_fail items : forall breakdown total item,
  In item items -> kept item = true -> is_ok (quote_of item) = false ->
  is_ok (loop items breakdown total) = false.
Proof.
  induction items as [|item0 items IH]; intros breakdown total item Hin Hk Hbad.
  - contradiction.
  - cbn [use_case_loop]. rewrite use_case_line_run.
    destruct Hin as [-> | Hin].
    + rewrite Hk. destruct (quote_of item); [discriminate Hbad | reflexivity].
    + destruct (kept item0).
      * destruct (quote_of item0); cbn [bind]; [| reflexivity].
        eapply IH; eassumption.
      * cbn [bind]. eapply IH; eassumption.
Qed.

(** When nothing is kept, no SKU quote is computed. *)
Lemma use_case_loop_idle items : forall breakdown total,
  (forall item, In item items -> kept item = false) ->
  loop items breakdown total = Ok (breakdown, total).
Proof.
  induction items as [|item items IH]; intros breakdown total Hidle.
  - reflexivity.
  - cbn [use_case_loop]. rewrite use_case_line_run.
    rewrite (Hidle item (or_introl eq_refl)). cbn [bind].
    apply IH. intros item' Hin. apply Hidle. right; exact Hin.
Qed.

End UseCaseLoop.

Section UseCaseRequest.
Import UseCaseSpec.
Open Scope float_scope.
Variable store : DataStore.
Variable payload : QuoteRequest.t.
Variable use_case : string.
Variable hours : float.
Hypothesis Hmode : QuoteRequest.mode payload = "use_case".
Hypothesis Huse_case : QuoteRequest.use_case payload = Some use_case.
Hypothesis Hnonempty : use_case <> EmptyString.
Hypothesis Hknown : In use_case (use_cases store).
Hypothesis Hhours : QuoteRequest.hours payload = Some hours.
Hypothesis Hpositive : (0 <? hours) = true.

(** A valid use-case request reaches the mapping loop. *)
Lemma quote_on_snapshot_use_case :
  quote_on_snapshot store payload
  = r <- use_case_loop store use_case hours (QuoteRequest.uplift_names payload)
           (Dict.items (use_case_mappings store)) [] 0 ;;
    Ok (UseCaseResponse
          (UseCaseQuote.mk use_case hours (snd r) (sort_cost_desc (fst r)))).
Proof.
  unfold quote_on_snapshot. rewrite Hmode, Huse_case, Hhours. simpl.
  destruct use_case as [|c rest] eqn:Eu; [congruence |]. rewrite <- Eu in *.
  assert (Hin : existsb (String.eqb use_case) (use_cases store) = true).
  { apply existsb_exists. exists use_case. split; [exact Hknown |].
    apply String.eqb_refl. }
  rewrite Hin. simpl.
  rewrite (FloatOrder.ltb_not_leb _ _ Hpositive).
  destruct (use_case_loop store use_case hours
              (QuoteRequest.uplift_names payload)
              (Dict.items (use_case_mappings store)) [] 0) as [[bd tot]|e];
    reflexivity.
Qed.

End UseCaseRequest.

(** C3, as amended: for a snapshot, a known non-empty use case and hours > 0,
    the use-case quote goes through the entries of the mapping table in table
    order.  It raises when the SKU quote of a kept entry raises.  Otherwise
    the breakdown holds one line per kept entry, an entry being kept exactly
    when [units_total = units_per_hour * hours <= 0] is false
    ([units_per_hour] is 0 when the use case has no entry for the SKU) and
    the SKU code is in the SKU set; each line's cost is the final cost of the
    SKU quote for quantity [units_total]; the grand total is the line costs
    added in table order; the breakdown is a rearrangement of the lines, and
    when no line cost is NaN it is sorted by cost descending, the lines of
    one cost keeping their table order. *)
Theorem use_case_quote_breakdown
        (store : DataStore) (payload : QuoteRequest.t)
        (use_case : string) (hours : float) :
  QuoteRequest.mode payload = "use_case" ->
  QuoteRequest.use_case payload = Some use_case ->
  use_case <> EmptyString ->
  In use_case (use_cases store) ->
  QuoteRequest.hours payload = Some hours ->
  (0 <? hours)%float = true ->
  let uplift_names := QuoteRequest.uplift_names payload in
  let items := Dict.items (use_case_mappings store) in
  ((exists item,
      In item items /\ UseCaseSpec.retained store use_case hours item = true
      /\ is_ok (UseCaseSpec.line_quote store use_case hours uplift_names item)
         = false) ->
   is_ok (quote_on_snapshot store payload) = false)
  /\ ((forall item,
         In item items -> UseCaseSpec.retained store use_case hours item = true ->
         is_ok (UseCaseSpec.line_quote store use_case hours uplift_names item)
         = true) ->
      exists lines breakdown,
        quote_on_snapshot store payload
        = Ok (UseCaseResponse
                (UseCaseQuote.mk use_case hours (UseCaseSpec.total_of lines)
                                 breakdown))
        /\ Forall2 (UseCaseSpec.line_of store use_case hours uplift_names)
                   (filter (UseCaseSpec.retained store use_case hours) items)
                   lines
        /\ Permutation lines breakdown
        /\ (UseCaseSpec.no_nan_cost lines ->
            UseCaseSpec.descending breakdown
            /\ forall c,
                 filter (fun l => Line.cost_usd l =? c)%float breakdown
                 = filter (fun l => Line.cost_usd l =? c)%float lines)).
Proof.
  intros Hmode Huc Hne Hknown Hhours Hpos uplift_names items.
  rewrite (quote_on_snapshot_use_case store payload use_case hours
             Hmode Huc Hne Hknown Hhours Hpos).
  fold uplift_names. fold items. split.
  - intros (item & Hin & Hk & Hbad).
    pose proof (use_case_loop_fail store use_case hours uplift_names items
                  [] 0%float item Hin Hk Hbad) as F.
    destruct (use_case_loop store use_case hours uplift_names items [] 0%float);
      [discriminate F | reflexivity].
  - intros Hok.
    destruct (use_case_loop_ok store use_case hours uplift_names items
                [] 0%float Hok) as (lines & E & Hall).
    exists lines, (sort_cost_desc lines). rewrite E. simpl.
    split; [reflexivity |]. split; [exact Hall |].
    split; [apply sort_cost_desc_perm |].
    intros Hnan. split; [apply sort_cost_desc_sorted; exact Hnan |].
    intros c. apply sort_cost_desc_stable.
Qed.

(** The end-to-end test of the repository: 30 units of SKU-A and 10 units
    of SKU-B cost 54.0 and 5.0, 59.0 in all, SKU-A first. *)
Example test_use_case_quote_end_to_end :
  quote_on_snapshot Example.store
    (UseCaseSpec.request "Early-Stage AI Startup" 10%float (Some []))
  = Ok (UseCaseResponse
          (UseCaseQuote.mk "Early-Stage AI Startup" 10%float 59%float
             [Line.mk "SKU-A" "A" "Tokens" 3%float 30%float 54%float;
              Line.mk "SKU-B" "B" "Jobs" 1%float 10%float 5%float])).
Proof. vm_compute. reflexivity. Qed.

(** C3 on the end-to-end test of the repository. *)
Lemma use_case_quote_breakdown_witness :
  exists lines breakdown,
    quote_on_snapshot Example.store
      (UseCaseSpec.request "Early-Stage AI Startup" 10%float (Some []))
    = Ok (UseCaseResponse
            (UseCaseQuote.mk "Early-Stage AI Startup" 10%float
               (UseCaseSpec.total_of lines) breakdown))
    /\ Forall2 (UseCaseSpec.line_of Example.store "Early-Stage AI Startup"
                  10%float (Some []))
               (filter (UseCaseSpec.retained Example.store
                          "Early-Stage AI Startup" 10%float)
                       (Dict.items (use_case_mappings Example.store)))
               lines
    /\ Permutation lines breakdown
    /\ (UseCaseSpec.no_nan_cost lines ->
        UseCaseSpec.descending breakdown
        /\ forall c,
             filter (fun l => Line.cost_usd l =? c)%float breakdown
             = filter (fun l => Line.cost_usd l =? c)%float lines).
Proof.
  apply (proj2 (use_case_quote_breakdown Example.store
                  (UseCaseSpec.request "Early-Stage AI Startup" 10%float
                                       (Some []))
                  "Early-Stage AI Startup" 10%float
                  eq_refl eq_refl
                  (fun H => eq_ind "Early-Stage AI Startup"
                              (fun s => match s with
                                        | EmptyString => False
                                        | String _ _ => True
                                        end) I EmptyString H)
                  (or_introl eq_refl) eq_refl eq_refl)).
  intros item [<- | [<- | []]] _; reflexivity.
Defined.

(** C3, as stated, fails: an entry whose rate is NaN has a [units_total]
    that is not strictly positive, and its line is in the breakdown. *)
Lemma use_case_quote_keeps_nan_line :
  In UseCaseSpec.nan_item (Dict.items (use_case_mappings UseCaseSpec.nan_store))
  /\ UseCaseSpec.claimed_retained UseCaseSpec.nan_store "Training" 1%float
       UseCaseSpec.nan_item = false
  /\ exists total line,
       quote_on_snapshot UseCaseSpec.nan_store
         (UseCaseSpec.request "Training" 1%float (Some []))
       = Ok (UseCaseResponse
               (UseCaseQuote.mk "Training" 1%float total [line]))
       /\ Line.sku_code line = fst UseCaseSpec.nan_item.
Proof.
  split; [left; reflexivity |]. split; [reflexivity |].
  eexists. eexists. split; [vm_compute; reflexivity | reflexivity].
Qed.

(** C10: when every mapping entry is skipped, because its [units_total] is
    at most 0 or its SKU code is not in the SKU set, a use-case quote
    returns an empty breakdown and a grand total of 0.0 whatever the uplift
    names: the names are looked up only inside the SKU quote of a kept
    entry. *)
Theorem use_case_quote_idle_ignores_uplifts
        (store : DataStore) (payload : QuoteRequest.t)
        (use_case : string) (hours : float) :
  QuoteRequest.mode payload = "use_case" ->
  QuoteRequest.use_case payload = Some use_case ->
  use_case <> EmptyString ->
  In use_case (use_cases store) ->
  QuoteRequest.hours payload = Some hours ->
  (0 <? hours)%float = true ->
  (forall sku_code per_use_case,
     In (sku_code, per_use_case) (Dict.items (use_case_mappings store)) ->
     (Dict.get_default use_case 0 per_use_case * hours <=? 0)%float = true
     \/ Dict.contains sku_code (skus store) = false) ->
  quote_on_snapshot store payload
  = Ok (UseCaseResponse (UseCaseQuote.mk use_case hours 0%float [])).
Proof.
  intros Hmode Huc Hne Hknown Hhours Hpos Hidle.
  rewrite (quote_on_snapshot_use_case store payload use_case hours
             Hmode Huc Hne Hknown Hhours Hpos).
  rewrite use_case_loop_idle; [reflexivity |].
  intros [sku_code per] Hin.
  unfold UseCaseSpec.retained, UseCaseSpec.units_total,
    UseCaseSpec.units_per_hour. simpl.
  destruct (Hidle sku_code per Hin) as [-> | ->].
  - reflexivity.
  - apply andb_false_r.
Qed.

(** C10 on the test snapshot: the use case "Academic Research" consumes
    nothing, the name "Rush" is no uplift of the snapshot, and the quote is
    empty all the same. *)
Lemma use_case_quote_idle_ignores_uplifts_witness :
  is_ok (_resolve_uplifts UseCaseSpec.idle_store (Some ["Rush"])) = false
  /\ quote_on_snapshot UseCaseSpec.idle_store
       (UseCaseSpec.request "Academic Research" 10%float (Some ["Rush"]))
     = Ok (UseCaseResponse
             (UseCaseQuote.mk "Academic Research" 10%float 0%float [])).
Proof.
  split; [reflexivity |].
  apply (use_case_quote_idle_ignores_uplifts UseCaseSpec.idle_store
           (UseCaseSpec.request "Academic Research" 10%float (Some ["Rush"]))
           "Academic Research" 10%float
           eq_refl eq_refl
           (fun H => eq_ind "Academic Research"
                       (fun s => match s with
                                 | EmptyString => False
                                 | String _ _ => True
                                 end) I EmptyString H)
           (or_intror (or_introl eq_refl)) eq_refl eq_refl).
  intros sku_code per [H | [H | []]]; injection H as <- <-; left; reflexivity.
Defined.

(* ================================================================= *)
(** ** Concurrent callers *)

Section Counting.
Import Concurrent.
Variable f : pc -> bool.

Lemma count_cons p l : count f (p :: l) = weight f p + count f l.
Proof. unfold count, weight. simpl. destruct (f p); reflexivity. Qed.

Lemma count_update_nth l : forall i old new,
  nth_error l i = Some old ->
  count f (update_nth i new l) + weight f old = count f l + weight f new.
Proof.
  induction l as [|p l IH]; intros [|i] old new H; simpl in H;
    try discriminate H.
  - injection H as ->. simpl. rewrite !count_cons. lia.
  - simpl. rewrite !count_cons. specialize (IH i old new H). lia.
Qed.

End Counting.

Section Invariant.
Import Concurrent.
Variable float_of_str : string -> option float.
Variable env : Dict.t string.

Local Abbreviation step := (Concurrent.step float_of_str env).
Local Abbreviation steps := (Concurrent.steps float_of_str env).
Local Abbreviation inv := (fun c => invariant (tasks c) (locked c) (batches c)).

Lemma count_ready l :
  Forall (fun p => exists k, p = Ready k) l ->
  count is_fetching l = 0 /\ count is_started l = 0.
Proof.
  induction 1 as [|p l (k & ->) _ [IH1 IH2]]; [split; reflexivity |].
  split; assumption.
Qed.

Lemma enter_invariant i old c :
  nth_error (tasks c) i = Some old ->
  is_fetching old = false -> is_started old = false ->
  locked c = false ->
  inv c -> inv (enter env i c).
Proof.
  intros Hi Hf Hs Hl [I1 I2]. rewrite Hl in I1.
  unfold invariant, enter, count_fetching, count_started in *.
  pose proof (count_update_nth is_fetching (tasks c) i old) as F.
  pose proof (count_update_nth is_started (tasks c) i old) as S.
  unfold weight in F, S. rewrite Hf in F. rewrite Hs in S.
  destruct (DataStoreOps.read_config env); simpl.
  - specialize (F Fetching Hi). specialize (S Fetching Hi). simpl in F, S. lia.
  - specialize (F (Finished (Raise RuntimeError)) Hi).
    specialize (S (Finished (Raise RuntimeError)) Hi). simpl in F, S. lia.
Qed.

Lemma step_invariant c c' : step c c' -> inv c -> inv c'.
Proof.
  intros Hstep Hinv. destruct Hstep as
      [i now c Hi Hfresh | i k now c Hi Hw Hl | i k now c Hi Hw Hl
       | i c Hi Hl | i fetched now c Hi].
  - destruct Hinv as [I1 I2].
    unfold invariant, count_fetching, count_started in *. simpl.
    pose proof (count_update_nth is_fetching (tasks c) i _ (Finished (Ok tt)) Hi) as F.
    pose proof (count_update_nth is_started (tasks c) i _ (Finished (Ok tt)) Hi) as S.
    unfold weight in F, S. simpl in F, S. lia.
  - apply (enter_invariant i (Ready k)); auto.
  - destruct Hinv as [I1 I2].
    unfold invariant, count_fetching, count_started in *. simpl.
    pose proof (count_update_nth is_fetching (tasks c) i _ Waiting Hi) as F.
    pose proof (count_update_nth is_started (tasks c) i _ Waiting Hi) as S.
    unfold weight in F, S. simpl in F, S. lia.
  - apply (enter_invariant i Waiting); auto.
  - destruct Hinv as [I1 I2].
    unfold invariant, count_fetching, count_started in *.
    pose proof (count_update_nth is_fetching (tasks c) i Fetching) as F.
    pose proof (count_update_nth is_started (tasks c) i Fetching) as S.
    unfold weight in F, S. simpl in F, S.
    unfold finish.
    destruct (bind fetched _) as [parsed|e]; simpl;
      [ specialize (F (Finished (Ok tt)) Hi);
        specialize (S (Finished (Ok tt)) Hi)
      | specialize (F (Finished (Raise e)) Hi);
        specialize (S (Finished (Raise e)) Hi) ];
      simpl in F, S; destruct (locked c); lia.
Qed.

Lemma steps_invariant c c' : steps c c' -> inv c -> inv c'.
Proof.
  induction 1 as [c | c1 c2 c3 _ IH Hstep]; intros Hinv; auto.
  eapply step_invariant; eauto.
Qed.

Lemma initial_invariant c : initial c -> inv c.
Proof.
  intros (Hl & Hb & Hready). destruct (count_ready _ Hready) as [F S].
  unfold invariant, count_fetching, count_started.
  rewrite Hl, Hb, F, S. split; [reflexivity | lia].
Qed.

End Invariant.

Section Waiting.
Import Concurrent.

Lemma nth_error_update_nth (A : Type) (l : list A) : forall i old new,
  nth_error l i = Some old -> nth_error (update_nth i new l) i = Some new.
Proof.
  induction l as [|x l IH]; intros [|i] old new H; simpl in *;
    try discriminate H; eauto.
Qed.

Lemma count_le_length f l : count f l <= List.length l.
Proof. unfold count. apply filter_length_le. Qed.

End Waiting.

(** One caller alone goes through the two steps of the state machine and
    ends where [refresh_once] ends. *)
Lemma single_caller_refresh_once
        (float_of_str : string -> option float) (w : World)
        (c : Concurrent.config) (i : nat) (k : Concurrent.call) :
  nth_error (Concurrent.tasks c) i = Some (Concurrent.Ready k) ->
  let out := DataStoreOps.refresh_once float_of_str (Concurrent.store c, w) in
  let c1 := Concurrent.enter (environ w) i c in
  match DataStoreOps.read_config (environ w) with
    | None =>
        Concurrent.store c1 = fst (snd out)
        /\ nth_error (Concurrent.tasks c1) i = Some (Concurrent.Finished (fst out))
        /\ Concurrent.locked c1 = false
  | Some (p, v, u, m) =>
        let c2 := Concurrent.finish float_of_str i (gathered w p v u m)
                                    (clock w (ticks w)) c1 in
        nth_error (Concurrent.tasks c1) i = Some Concurrent.Fetching
        /\ Concurrent.locked c1 = true
        /\ Concurrent.store c2 = fst (snd out)
        /\ nth_error (Concurrent.tasks c2) i = Some (Concurrent.Finished (fst out))
        /\ Concurrent.locked c2 = false
  end.
Proof.
  intros Hi out c1. unfold out, c1. rewrite refresh_once_run.
  unfold loaded, Concurrent.enter.
  destruct (DataStoreOps.read_config (environ w)) as [[[[p v] u] m]|]; simpl.
  - pose proof (nth_error_update_nth _ (Concurrent.tasks c) i _
                  Concurrent.Fetching Hi) as H1.
    split; [exact H1 |]. split; [reflexivity |].
    unfold Concurrent.finish. simpl.
    destruct (gathered w p v u m) as [[[[a b] c'] d]|e]; simpl.
    + destruct (DataStoreOps.parse_all float_of_str a b c' d); simpl;
        (split; [reflexivity |]); (split; [| reflexivity]);
        eapply nth_error_update_nth; exact H1.
    + split; [reflexivity |]. split; [| reflexivity].
      eapply nth_error_update_nth; exact H1.
  - split; [reflexivity |]. split; [| reflexivity].
    eapply nth_error_update_nth; exact Hi.
Qed.

(** The run of the two callers. *)
Lemma two_callers_run :
  TwoCallers.step TwoCallers.c0 TwoCallers.c1
  /\ TwoCallers.step TwoCallers.c1 TwoCallers.c2
  /\ TwoCallers.step TwoCallers.c2 TwoCallers.c3
  /\ TwoCallers.step TwoCallers.c3 TwoCallers.c4.
Proof.
  unfold TwoCallers.step. split; [| split; [| split]].
  - apply (@Concurrent.step_enter Decimal.float_of_str ExampleWorld.environ
             0 Concurrent.CallEnsureFresh 1000%float TwoCallers.c0);
      reflexivity.
  - apply (@Concurrent.step_block Decimal.float_of_str ExampleWorld.environ
             1 Concurrent.CallEnsureFresh 1001%float TwoCallers.c1);
      reflexivity.
  - apply (@Concurrent.step_done Decimal.float_of_str ExampleWorld.environ
             0 TwoCallers.fetched 1002%float TwoCallers.c2).
    reflexivity.
  - apply (@Concurrent.step_wake Decimal.float_of_str ExampleWorld.environ
             1 TwoCallers.c3); vm_compute; reflexivity.
Qed.

Lemma two_callers_steps :
  Concurrent.steps Decimal.float_of_str ExampleWorld.environ
                   TwoCallers.c0 TwoCallers.c4.
Proof.
  destruct two_callers_run as (S1 & S2 & S3 & S4).
  eapply Concurrent.steps_snoc; [| exact S4].
  eapply Concurrent.steps_snoc; [| exact S3].
  eapply Concurrent.steps_snoc; [| exact S2].
  eapply Concurrent.steps_snoc; [| exact S1].
  apply Concurrent.steps_refl.
Qed.

Lemma two_callers_initial : Concurrent.initial TwoCallers.c0.
Proof.
  split; [reflexivity |]. split; [reflexivity |].
  repeat constructor; eexists; reflexivity.
Qed.




(* ================================================================= *)
(** * Further properties *)

(* ================================================================= *)
(** ** Numeric coercion and cleaned rows *)

Section StripTwice.
Import PyStr.

Lemma lstrip_shape s :
  lstrip s = EmptyString
  \/ exists c t, lstrip s = String c t /\ is_space c = false.
Proof.
  induction s as [|c s IH]; simpl; [left; reflexivity |].
  destruct (is_space c) eqn:E; [exact IH |].
  right. exists c, s. split; [reflexivity | exact E].
Qed.

Lemma rstrip_rstrip s : rstrip (rstrip s) = rstrip s.
Proof.
  induction s as [|c s IH]; [reflexivity |].
  cbn [rstrip]. destruct (rstrip s) as [|c' u] eqn:E.
  - destruct (is_space c) eqn:Hc; [reflexivity |].
    cbn [rstrip]. rewrite Hc. reflexivity.
  - cbn [rstrip]. cbn [rstrip] in IH.
    destruct (rstrip u) as [|c'' u'] eqn:Eu.
    + destruct (is_space c'); [discriminate IH |].
      rewrite IH. reflexivity.
    + rewrite IH. reflexivity.
Qed.

Lemma lstrip_rstrip_head c t :
  is_space c = false ->
  lstrip (rstrip (String c t)) = rstrip (String c t).
Proof.
  intros Hc. cbn [rstrip]. destruct (rstrip t); [rewrite Hc |];
    simpl; rewrite Hc; reflexivity.
Qed.

(** Stripping twice is stripping once. *)
Lemma strip_strip s : strip (strip s) = strip s.
Proof.
  unfold strip. destruct (lstrip_shape s) as [E | (c & t & E & Hc)]; rewrite E.
  - reflexivity.
  - rewrite lstrip_rstrip_head by exact Hc. apply rstrip_rstrip.
Qed.

End StripTwice.

Section RemoveChar.
Import PyStr PyStrMore.

Lemma remove_char_app c a b :
  remove_char c (a ++ b) = (remove_char c a ++ remove_char c b)%string.
Proof.
  induction a as [|x a IH]; simpl; [reflexivity |].
  destruct (Ascii.eqb x c); simpl; rewrite IH; reflexivity.
Qed.

Lemma remove_char_comm c d s :
  remove_char c (remove_char d s) = remove_char d (remove_char c s).
Proof.
  induction s as [|x s IH]; simpl; [reflexivity |].
  destruct (Ascii.eqb x d) eqn:Ed, (Ascii.eqb x c) eqn:Ec; simpl;
    rewrite ?Ed, ?Ec, IH; reflexivity.
Qed.

Lemma remove_char_skip c a b :
  remove_char c (a ++ String c b) = remove_char c (a ++ b).
Proof.
  rewrite !remove_char_app. simpl. rewrite Ascii.eqb_refl. reflexivity.
Qed.

Lemma occurs_remove_char c s : occurs c (remove_char c s) = false.
Proof.
  induction s as [|x s IH]; simpl; [reflexivity |].
  destruct (Ascii.eqb x c) eqn:E; simpl; [exact IH |].
  rewrite E, IH. reflexivity.
Qed.

Lemma occurs_remove_other c d s :
  occurs c s = false -> occurs c (remove_char d s) = false.
Proof.
  induction s as [|x s IH]; simpl; [reflexivity |].
  intros H. apply orb_false_elim in H. destruct H as [Hx Hs].
  destruct (Ascii.eqb x d); simpl; [auto |].
  rewrite Hx. simpl. auto.
Qed.

(** What [_parse_float] hands to [float]. *)
Lemma parse_float_cleaned float_of_str value :
  DataStoreOps._parse_float float_of_str value
  = let cleaned :=
      remove_char "%" (remove_char "$" (remove_char "," (strip value))) in
    if String.eqb cleaned EmptyString then Ok 0%float
    else match float_of_str cleaned with
         | Some x => Ok x
         | None => Raise (ValueError cleaned)
         end.
Proof. reflexivity. Qed.

Lemma cleaned_undecorated s :
  undecorated (remove_char "%" (remove_char "$" (remove_char "," s))) = true.
Proof.
  unfold undecorated, decorations. cbn [forallb].
  rewrite occurs_remove_char.
  rewrite (occurs_remove_other "$" "%") by apply occurs_remove_char.
  rewrite (occurs_remove_other "," "%")
    by (apply occurs_remove_other; apply occurs_remove_char).
  reflexivity.
Qed.

End RemoveChar.

(** X1: [_parse_float] never hands [float] an empty text or a text that
    holds a thousands separator, a currency sign or a percent sign: two
    readings of [float] that agree on the other texts give the same
    coercion. *)
Theorem parse_float_queries_clean_text
        (f g : string -> option float) (value : string) :
  (forall text, PyStr.truthy text = true ->
                PyStrMore.undecorated text = true -> f text = g text) ->
  DataStoreOps._parse_float f value = DataStoreOps._parse_float g value.
Proof.
  intros Hfg. rewrite !parse_float_cleaned. cbv zeta.
  set (cleaned := PyStr.remove_char "%" _).
  destruct (String.eqb cleaned EmptyString) eqn:E; [reflexivity |].
  rewrite (Hfg cleaned); [reflexivity | | apply cleaned_undecorated].
  destruct cleaned; [discriminate E | reflexivity].
Qed.

(** X1 on the decimal reading and its guarded variant, at "$1,200.5". *)
Lemma parse_float_queries_clean_text_witness :
  DataStoreOps._parse_float Decimal.float_of_str "$1,200.5"
  = DataStoreOps._parse_float (guarded Decimal.float_of_str) "$1,200.5".
Proof.
  apply (parse_float_queries_clean_text
           Decimal.float_of_str (guarded Decimal.float_of_str) "$1,200.5").
  intros text Ht Hu. unfold guarded. rewrite Ht, Hu. reflexivity.
Defined.

(** X2: in a text without surrounding white space, a thousands separator,
    a currency sign or a percent sign placed anywhere does not change what
    [_parse_float] returns. *)
Theorem parse_float_ignores_decoration
        (float_of_str : string -> option float) (a b : string) (d : ascii) :
  In d PyStrMore.decorations ->
  PyStr.strip (a ++ String d b) = (a ++ String d b)%string ->
  PyStr.strip (a ++ b) = (a ++ b)%string ->
  DataStoreOps._parse_float float_of_str (a ++ String d b)
  = DataStoreOps._parse_float float_of_str (a ++ b).
Proof.
  intros Hd E1 E2. rewrite !parse_float_cleaned. cbv zeta. rewrite E1, E2.
  assert (E : PyStr.remove_char "%"
                (PyStr.remove_char "$" (PyStr.remove_char "," (a ++ String d b)))
              = PyStr.remove_char "%"
                  (PyStr.remove_char "$" (PyStr.remove_char "," (a ++ b)))).
  { destruct Hd as [<- | [<- | [<- | []]]].
    - rewrite remove_char_skip. reflexivity.
    - rewrite (remove_char_comm "$" ","), remove_char_skip,
        (remove_char_comm "$" ","). reflexivity.
    - rewrite (remove_char_comm "%" "$"), (remove_char_comm "%" ","),
        remove_char_skip, <- (remove_char_comm "%" ","),
        <- (remove_char_comm "%" "$"). reflexivity. }
  rewrite E. reflexivity.
Qed.

(** X2 on "1,000" and "1000". *)
Lemma parse_float_ignores_decoration_witness :
  DataStoreOps._parse_float Decimal.float_of_str "1,000"
  = DataStoreOps._parse_float Decimal.float_of_str "1000".
Proof.
  apply (parse_float_ignores_decoration Decimal.float_of_str "1" "000" ","%char).
  - left. reflexivity.
  - reflexivity.
  - reflexivity.
Defined.

(** X3: white space around a cell changes neither its numeric nor its
    boolean coercion. *)
Theorem coercions_ignore_padding
        (float_of_str : string -> option float) (value : string) :
  DataStoreOps._parse_float float_of_str (PyStr.strip value)
  = DataStoreOps._parse_float float_of_str value
  /\ DataStoreOps._parse_bool (PyStr.strip value)
     = DataStoreOps._parse_bool value.
Proof.
  split.
  - rewrite !parse_float_cleaned. cbv zeta. rewrite strip_strip. reflexivity.
  - unfold DataStoreOps._parse_bool. rewrite strip_strip. reflexivity.
Qed.

Section DictMore.
Variable V : Type.
Implicit Types (d : Dict.t V) (k : string) (v : V).

Lemma keys_after_set k v d :
  Dict.keys (Dict.set k v d)
  = if Dict.contains k d then Dict.keys d else Dict.keys d ++ [k].
Proof.
  unfold Dict.contains. induction d as [|[k' v'] d IH]; simpl; auto.
  destruct (String.eqb k' k) eqn:E; simpl; auto.
  rewrite IH. destruct (Dict.get k d); reflexivity.
Qed.

Lemma contains_keys k d : Dict.contains k d = true <-> In k (Dict.keys d).
Proof.
  unfold Dict.contains. induction d as [|[k' v'] d IH]; simpl.
  - split; [discriminate | contradiction].
  - destruct (String.eqb k' k) eqn:E.
    + apply String.eqb_eq in E. split; auto.
    + rewrite IH. split; auto. intros [H | H]; auto.
      subst k'. rewrite String.eqb_refl in E. discriminate E.
Qed.

Lemma nodup_set k v d : NoDup (Dict.keys d) -> NoDup (Dict.keys (Dict.set k v d)).
Proof.
  intros H. rewrite keys_after_set.
  destruct (Dict.contains k d) eqn:E; [exact H |].
  apply NoDup_app; [exact H | repeat constructor; intros [] |].
  intros x Hx [<- | []]. apply contains_keys in Hx. congruence.
Qed.

Lemma in_set k v k0 v0 d :
  In (k, v) (Dict.set k0 v0 d) -> (k = k0 /\ v = v0) \/ In (k, v) d.
Proof.
  induction d as [|[k' v'] d IH]; simpl.
  - intros [[= <- <-] | []]. auto.
  - destruct (String.eqb k' k0) eqn:E; simpl.
    + apply String.eqb_eq in E. subst k'.
      intros [[= <- <-] | H]; auto.
    + intros [H | H]; auto. destruct (IH H); auto.
Qed.

Lemma get_in_nodup k v d :
  NoDup (Dict.keys d) -> In (k, v) d -> Dict.get k d = Some v.
Proof.
  induction d as [|[k' v'] d IH]; simpl; [contradiction |].
  intros Hnd [[= -> ->] | Hin].
  - rewrite String.eqb_refl. reflexivity.
  - inversion Hnd as [|? ? Hk Hnd']; subst.
    destruct (String.eqb k' k) eqn:E; [| auto].
    apply String.eqb_eq in E. subst k'. exfalso. apply Hk.
    change (In (fst (k, v)) (map fst d)). apply in_map. exact Hin.
Qed.

Lemma get_in k v d : Dict.get k d = Some v -> In (k, v) d.
Proof.
  induction d as [|[k' v'] d IH]; simpl; [discriminate |].
  destruct (String.eqb k' k) eqn:E; [| auto].
  apply String.eqb_eq in E. intros [= ->]. left. congruence.
Qed.

Lemma length_set k v d :
  List.length (Dict.set k v d)
  = if Dict.contains k d then List.length d else S (List.length d).
Proof.
  pose proof (keys_after_set k v d) as H.
  apply (f_equal (@List.length string)) in H.
  unfold Dict.keys in H. rewrite length_map in H. rewrite H.
  destruct (Dict.contains k d); rewrite ?length_app, length_map; simpl; lia.
Qed.

End DictMore.

Section CleanRow.

Local Abbreviation clean_from :=
  (fold_left
     (fun (d : Dict.t string) (kv : string * option string) =>
        Dict.set (PyStr.strip (fst kv))
                 (PyStr.strip (match snd kv with
                               | Some v => v
                               | None => EmptyString
                               end)) d)).

Lemma clean_from_nodup r : forall acc,
  NoDup (Dict.keys acc) -> NoDup (Dict.keys (clean_from r acc)).
Proof.
  induction r as [|[k0 c] r IH]; intros acc H; simpl; auto.
  apply IH. apply nodup_set. exact H.
Qed.

Lemma clean_from_entries r : forall acc k v,
  In (k, v) (clean_from r acc) ->
  In (k, v) acc
  \/ exists k0 c, In (k0, c) r /\ k = PyStr.strip k0 /\ v = cell_text c.
Proof.
  induction r as [|[k0 c] r IH]; intros acc k v H; simpl in *; auto.
  destruct (IH _ _ _ H) as [Hin | (k1 & c1 & Hin & E1 & E2)].
  - destruct (in_set _ _ _ _ _ _ Hin) as [[-> ->] | Hacc]; auto.
    right. exists k0, c. auto.
  - right. exists k1, c1. auto.
Qed.

Lemma clean_from_untouched r : forall acc k,
  (forall k0 c, In (k0, c) r -> PyStr.strip k0 <> k) ->
  Dict.get k (clean_from r acc) = Dict.get k acc.
Proof.
  induction r as [|[k0 c] r IH]; intros acc k H; simpl; auto.
  rewrite IH by (intros k1 c1 Hin; apply (H k1 c1); right; exact Hin).
  apply get_set_other. intros ->. apply (H k0 c); [left |]; reflexivity.
Qed.

Lemma clean_from_last before k0 c after : forall acc,
  (forall k1 c1, In (k1, c1) after -> PyStr.strip k1 <> PyStr.strip k0) ->
  Dict.get (PyStr.strip k0) (clean_from (before ++ (k0, c) :: after) acc)
  = Some (cell_text c).
Proof.
  induction before as [|[k1 c1] before IH]; intros acc H; simpl.
  - rewrite clean_from_untouched by exact H. apply get_set_same.
  - apply IH. exact H.
Qed.

End CleanRow.



(* ================================================================= *)
(** ** The snapshot a refresh installs *)

Section ParsedTables.
Variable float_of_str : string -> option float.

Local Abbreviation parse_skus := (DataStoreOps.parse_skus float_of_str).
Local Abbreviation parse_uplifts := (DataStoreOps.parse_uplifts float_of_str).
Local Abbreviation parse_cells := (DataStoreOps.parse_cells float_of_str).
Local Abbreviation mapping_loop := (DataStoreOps.mapping_loop float_of_str).

Local Abbreviation keyed := (@Snapshot.keyed).

Lemma keyed_set (A : Type) (key : A -> string) (a : A) (d : Dict.t A) :
  keyed A key d -> keyed A key (Dict.set (key a) a d).
Proof.
  intros [Hnd Hk]. split; [apply nodup_set; exact Hnd |].
  intros k b. destruct (string_dec k (key a)) as [-> | Hne].
  - rewrite get_set_same. intros [= <-]. reflexivity.
  - rewrite get_set_other by exact Hne. apply Hk.
Qed.

Lemma parse_skus_keyed rows : forall acc d,
  parse_skus rows acc = Ok d ->
  keyed SKU.t SKU.sku_code acc -> keyed SKU.t SKU.sku_code d.
Proof.
  induction rows as [|r rows IH]; intros acc d H Hacc; simpl in H.
  - apply Ok_inj in H. subst d. exact Hacc.
  - destruct (DataStoreOps.parse_sku float_of_str r) as [sku|e];
      simpl in H; [| discriminate H].
    apply (IH _ _ H). apply keyed_set. exact Hacc.
Qed.

Lemma parse_uplifts_keyed rows : forall acc d,
  parse_uplifts rows acc = Ok d ->
  keyed Uplift.t Uplift.uplift_name acc -> keyed Uplift.t Uplift.uplift_name d.
Proof.
  induction rows as [|r rows IH]; intros acc d H Hacc; simpl in H.
  - apply Ok_inj in H. subst d. exact Hacc.
  - destruct (DataStoreOps.parse_uplift float_of_str r) as [u|e];
      simpl in H; [| discriminate H].
    apply (IH _ _ H). apply keyed_set. exact Hacc.
Qed.

Lemma parse_cells_keys r use_cases : forall acc entry,
  parse_cells r use_cases acc = Ok entry ->
  forall u, Dict.contains u entry = true
            <-> In u use_cases \/ Dict.contains u acc = true.
Proof.
  induction use_cases as [|u0 us IH]; intros acc entry H u; simpl in H.
  - apply Ok_inj in H. subst entry. simpl. intuition.
  - destruct (DataStoreOps._parse_float float_of_str
                (Dict.get_default u0 EmptyString r)) as [v|e];
      simpl in H; [| discriminate H].
    rewrite (IH _ _ H u), contains_set. simpl. intuition.
Qed.

Lemma mapping_loop_entries use_cases rows : forall acc result,
  mapping_loop use_cases rows acc = Ok result ->
  (NoDup (Dict.keys acc) -> NoDup (Dict.keys result))
  /\ forall code per,
       In (code, per) result ->
       In (code, per) acc
       \/ (PyStr.truthy code = true
           /\ forall u, Dict.contains u per = true <-> In u use_cases).
Proof.
  induction rows as [|r rows IH]; intros acc result H; simpl in H.
  - apply Ok_inj in H. subst result. auto.
  - destruct (PyStr.truthy (DataStoreOps.row_sku_code r)) eqn:Hr; simpl in H.
    + destruct (parse_cells r use_cases Dict.empty) as [entry|e] eqn:Ec;
        simpl in H; [| discriminate H].
      destruct (IH _ _ H) as [Hnd Hin]. split.
      * intros Hacc. apply Hnd. apply nodup_set. exact Hacc.
      * intros code per Hcp.
        destruct (Hin code per Hcp) as [Hset | Hnew]; [| right; exact Hnew].
        destruct (in_set _ _ _ _ _ _ Hset) as [[-> ->] | Hacc];
          [| left; exact Hacc].
        right. split; [exact Hr |]. intros u.
        rewrite (parse_cells_keys _ _ _ _ Ec u). simpl.
        unfold Dict.contains. simpl. intuition discriminate.
    + apply (IH _ _ H).
Qed.

(** What a successful parse of the four tables is made of. *)
Lemma parse_all_parts a b c d p :
  DataStoreOps.parse_all float_of_str a b c d = Ok p ->
  parse_skus a Dict.empty = Ok (parsed_skus p)
  /\ (exists ds, traverse (DataStoreOps.parse_discount float_of_str) b = Ok ds
                 /\ parsed_discounts p = DataStoreOps.sorted_by_min_units ds)
  /\ parse_uplifts c Dict.empty = Ok (parsed_uplifts p)
  /\ DataStoreOps._parse_use_case_mappings float_of_str d
     = Ok (parsed_use_case_mappings p, parsed_use_cases p).
Proof.
  unfold DataStoreOps.parse_all. intros H.
  destruct (parse_skus a Dict.empty) as [sk|e]; simpl in H; [| discriminate H].
  destruct (traverse (DataStoreOps.parse_discount float_of_str) b) as [ds|e];
    simpl in H; [| discriminate H].
  destruct (parse_uplifts c Dict.empty) as [up|e]; simpl in H;
    [| discriminate H].
  destruct (DataStoreOps._parse_use_case_mappings float_of_str d)
    as [[m ucs]|e]; simpl in H; [| discriminate H].
  apply Ok_inj in H. subst p. simpl. eauto 6.
Qed.

(** The store after [refresh_once]: the old one, or a parse installed. *)
Lemma refresh_once_store s w :
  fst (snd (DataStoreOps.refresh_once float_of_str (s, w))) = s
  \/ exists a b c d p,
       DataStoreOps.parse_all float_of_str a b c d = Ok p
       /\ fst (snd (DataStoreOps.refresh_once float_of_str (s, w)))
          = set_last_refresh_utc (Some (clock w (ticks w))) (install p s).
Proof.
  rewrite refresh_once_run. unfold loaded.
  destruct (DataStoreOps.read_config (environ w)) as [[[[pu vu] uu] mu]|];
    [| left; reflexivity].
  destruct (gathered w pu vu uu mu) as [[[[a b] c] d]|e]; simpl;
    [| left; reflexivity].
  destruct (DataStoreOps.parse_all float_of_str a b c d) as [p|e] eqn:E;
    simpl; [| left; reflexivity].
  right. exists a, b, c, d, p. auto.
Qed.

(** The store after [ensure_fresh]: the old one, or the one [refresh_once]
    leaves. *)
Lemma ensure_fresh_store s w :
  fst (snd (DataStoreOps.ensure_fresh float_of_str (s, w))) = s
  \/ fst (snd (DataStoreOps.ensure_fresh float_of_str (s, w)))
     = fst (snd (DataStoreOps.refresh_once float_of_str (s, tick w))).
Proof.
  unfold DataStoreOps.ensure_fresh, bindM, time_time, get_store. simpl.
  destruct (stale (clock w (ticks w)) (last_refresh_utc s));
    [right | left]; reflexivity.
Qed.

End ParsedTables.

(** X5 (refresh_once, ensure_fresh): the SKU table and the uplift table stay
    keyed by the name their values carry.  When every SKU of the store is
    filed under its own code and every uplift under its own name, each key
    once (the store of a fresh process has none), the same holds of the store
    [refresh_once] leaves, whether it installs a snapshot or raises, and of the
    store [ensure_fresh] leaves. *)
Theorem tables_stay_keyed float_of_str s w :
  Snapshot.skus_keyed s -> Snapshot.uplifts_keyed s ->
  (Snapshot.skus_keyed
     (fst (snd (DataStoreOps.refresh_once float_of_str (s, w))))
   /\ Snapshot.uplifts_keyed
        (fst (snd (DataStoreOps.refresh_once float_of_str (s, w)))))
  /\ (Snapshot.skus_keyed
        (fst (snd (DataStoreOps.ensure_fresh float_of_str (s, w))))
      /\ Snapshot.uplifts_keyed
           (fst (snd (DataStoreOps.ensure_fresh float_of_str (s, w))))).
Proof.
  intros Hs Hu.
  assert (Hempty : forall (A : Type) (key : A -> string),
             Snapshot.keyed key (@Dict.empty A)).
  { intros A key. split; [constructor | intros k a H; discriminate H]. }
  assert (R : forall w',
             Snapshot.skus_keyed
               (fst (snd (DataStoreOps.refresh_once float_of_str (s, w'))))
             /\ Snapshot.uplifts_keyed
                  (fst (snd (DataStoreOps.refresh_once float_of_str (s, w'))))).
  { intros w'.
    destruct (refresh_once_store float_of_str s w')
      as [-> | (a & b & c & d & p & Hp & ->)]; [split; assumption |].
    destruct (parse_all_parts _ _ _ _ _ _ Hp) as (Hsk & _ & Hup & _).
    unfold Snapshot.skus_keyed, Snapshot.uplifts_keyed. simpl. split.
    - exact (parse_skus_keyed _ _ _ _ Hsk (Hempty _ _)).
    - exact (parse_uplifts_keyed _ _ _ _ Hup (Hempty _ _)). }
  split; [apply R |].
  destruct (ensure_fresh_store float_of_str s w) as [-> | ->];
    [split; assumption | apply R].
Qed.

Lemma tables_stay_keyed_witness :
  Snapshot.skus_keyed
    (fst (snd (DataStoreOps.refresh_once Decimal.float_of_str
                 (init_store, ExampleWorld.up))))
  /\ Snapshot.uplifts_keyed
       (fst (snd (DataStoreOps.ensure_fresh Decimal.float_of_str
                    (init_store, ExampleWorld.up)))).
Proof.
  assert (Hs : Snapshot.skus_keyed init_store)
    by (split; [constructor | intros k a H; discriminate H]).
  assert (Hu : Snapshot.uplifts_keyed init_store)
    by (split; [constructor | intros k a H; discriminate H]).
  split.
  - exact (proj1 (proj1 (tables_stay_keyed Decimal.float_of_str init_store
                           ExampleWorld.up Hs Hu))).
  - exact (proj2 (proj2 (tables_stay_keyed Decimal.float_of_str init_store
                           ExampleWorld.up Hs Hu))).
Defined.

Lemma parse_use_case_mappings_complete float_of_str rows m ucs :
  DataStoreOps._parse_use_case_mappings float_of_str rows = Ok (m, ucs) ->
  NoDup (Dict.keys m)
  /\ ~ In "SKU Code" ucs
  /\ forall code per,
       In (code, per) m ->
       PyStr.truthy code = true
       /\ forall u, Dict.contains u per = true <-> In u ucs.
Proof.
  unfold DataStoreOps._parse_use_case_mappings.
  destruct rows as [|row0 rest].
  - intros H. apply Ok_inj in H. injection H as <- <-.
    split; [constructor |]. split; [intros [] | intros ? ? []].
  - set (use_cases := filter _ _).
    destruct (DataStoreOps.mapping_loop float_of_str use_cases (row0 :: rest)
                Dict.empty) as [parsed|e] eqn:E; simpl; [| discriminate].
    intros H. apply Ok_inj in H. injection H as <- <-.
    destruct (mapping_loop_entries _ _ _ _ _ E) as [Hnd Hin].
    split; [apply Hnd; constructor |]. split.
    + unfold use_cases. rewrite filter_In. intros [_ H]. discriminate H.
    + intros code per Hcp. destruct (Hin code per Hcp) as [[] | H]. exact H.
Qed.

(** X6 (_parse_use_case_mappings, refresh_once, ensure_fresh): the mapping
    table stays complete.  When the store maps each SKU code once, no empty
    code, every entry holding a rate for exactly the use cases the store
    lists, and the key column is none of them, the same holds of the store
    [refresh_once] and [ensure_fresh] leave: a quote never needs the default
    rate for a listed use case. *)
Theorem mappings_stay_complete float_of_str s w :
  Snapshot.mappings_complete s ->
  Snapshot.mappings_complete
    (fst (snd (DataStoreOps.refresh_once float_of_str (s, w))))
  /\ Snapshot.mappings_complete
       (fst (snd (DataStoreOps.ensure_fresh float_of_str (s, w)))).
Proof.
  intros Hs.
  assert (R : forall w',
             Snapshot.mappings_complete
               (fst (snd (DataStoreOps.refresh_once float_of_str (s, w'))))).
  { intros w'.
    destruct (refresh_once_store float_of_str s w')
      as [-> | (a & b & c & d & p & Hp & ->)]; [assumption |].
    destruct (parse_all_parts _ _ _ _ _ _ Hp) as (_ & _ & _ & Hm).
    exact (parse_use_case_mappings_complete _ _ _ _ Hm). }
  split; [apply R |].
  destruct (ensure_fresh_store float_of_str s w) as [-> | ->];
    [assumption | apply R].
Qed.

Lemma mappings_stay_complete_witness :
  Snapshot.mappings_complete
    (fst (snd (DataStoreOps.refresh_once Decimal.float_of_str
                 (init_store, ExampleWorld.up)))).
Proof.
  refine (proj1 (mappings_stay_complete Decimal.float_of_str init_store
                   ExampleWorld.up _)).
  split; [constructor |]. split; [intros [] | intros ? ? []].
Defined.

Section SortDiscounts.
Open Scope float_scope.

Lemma insert_asc_perm x l : Permutation (x :: l) (DataStoreOps.insert_asc x l).
Proof.
  induction l as [|y l IH]; simpl.
  - apply Permutation_refl.
  - destruct (VolumeDiscount.min_units y <? VolumeDiscount.min_units x).
    + apply perm_trans with (y :: x :: l); [apply perm_swap |].
      apply perm_skip. exact IH.
    + apply Permutation_refl.
Qed.

Lemma sorted_by_min_units_perm l :
  Permutation l (DataStoreOps.sorted_by_min_units l).
Proof.
  induction l as [|x l IH]; simpl.
  - apply perm_nil.
  - apply perm_trans with (x :: DataStoreOps.sorted_by_min_units l).
    + apply perm_skip. exact IH.
    + apply insert_asc_perm.
Qed.

Lemma insert_asc_sorted x l :
  is_nan (VolumeDiscount.min_units x) = false ->
  Snapshot.no_nan_threshold l ->
  Snapshot.ascending l -> Snapshot.ascending (DataStoreOps.insert_asc x l).
Proof.
  intros Hx Hl Hs. induction Hs as [|y l Hs IH Hy]; simpl.
  - constructor; constructor.
  - inversion Hl as [|? ? Hny Hl']; subst.
    destruct (VolumeDiscount.min_units y <? VolumeDiscount.min_units x) eqn:E.
    + constructor; [apply IH; assumption |].
      apply (Permutation_Forall (insert_asc_perm x l)).
      constructor; [| exact Hy]. auto with float_order.
    + assert (Hxy : (VolumeDiscount.min_units x <=? VolumeDiscount.min_units y)
                    = true) by auto with float_order.
      constructor; [constructor; assumption |].
      constructor; [exact Hxy |].
      eapply Forall_impl; [| exact Hy]. simpl. intros z Hz.
      eapply FloatOrder.leb_trans; eassumption.
Qed.

Lemma insert_asc_stable c x l :
  filter (fun a => VolumeDiscount.min_units a =? c) (DataStoreOps.insert_asc x l)
  = filter (fun a => VolumeDiscount.min_units a =? c) (x :: l).
Proof.
  induction l as [|y l IH]; [reflexivity |].
  cbn [DataStoreOps.insert_asc].
  destruct (VolumeDiscount.min_units y <? VolumeDiscount.min_units x) eqn:E;
    [| reflexivity].
  cbn [filter] in *. rewrite IH.
  destruct (VolumeDiscount.min_units x =? c) eqn:Ex; [| reflexivity].
  assert (Hy : (VolumeDiscount.min_units y =? c) = false).
  { destruct (VolumeDiscount.min_units y =? c) eqn:Ey; [| reflexivity].
    pose proof (FloatOrder.ltb_eqb _ _ _ E Ey) as H. congruence. }
  rewrite Hy. reflexivity.
Qed.

(** X7 (refresh_once, the sorted() of the discount rows): the discount tiers
    of a snapshot are the parsed rows, none lost and none added, and, when no
    threshold is NaN, in ascending order of threshold, tiers of one threshold
    in their row order. *)
Theorem discounts_sorted_by_threshold float_of_str a b c d p :
  DataStoreOps.parse_all float_of_str a b c d = Ok p ->
  exists ds,
    traverse (DataStoreOps.parse_discount float_of_str) b = Ok ds
    /\ List.length ds = List.length b
    /\ Permutation ds (parsed_discounts p)
    /\ (Snapshot.no_nan_threshold ds ->
        Snapshot.ascending (parsed_discounts p)
        /\ forall t,
             filter (fun x => VolumeDiscount.min_units x =? t)
                    (parsed_discounts p)
             = filter (fun x => VolumeDiscount.min_units x =? t) ds).
Proof.
  intros Hp.
  destruct (parse_all_parts _ _ _ _ _ _ Hp) as (_ & (ds & Hds & ->) & _).
  exists ds. split; [exact Hds |]. split.
  - clear Hp. revert ds Hds. induction b as [|r b IH]; intros ds Hds.
    + apply Ok_inj in Hds. subst ds. reflexivity.
    + simpl in Hds.
      destruct (DataStoreOps.parse_discount float_of_str r) as [x|e];
        simpl in Hds; [| discriminate Hds].
      destruct (traverse (DataStoreOps.parse_discount float_of_str) b)
        as [xs|e]; simpl in Hds; [| discriminate Hds].
      apply Ok_inj in Hds. subst ds. simpl. f_equal. apply IH. reflexivity.
  - split; [apply sorted_by_min_units_perm |]. intros Hn. split.
    + clear Hp Hds. induction Hn as [|x ds Hx Hn IH].
      * constructor.
      * cbn [DataStoreOps.sorted_by_min_units fold_right].
        fold (DataStoreOps.sorted_by_min_units ds).
        apply insert_asc_sorted; [exact Hx | | exact IH].
        apply (Permutation_Forall (sorted_by_min_units_perm ds)). exact Hn.
    + intros t. clear. induction ds as [|x ds IH]; [reflexivity |].
      cbn [DataStoreOps.sorted_by_min_units fold_right].
      fold (DataStoreOps.sorted_by_min_units ds).
      rewrite insert_asc_stable. cbn [filter]. rewrite IH. reflexivity.
Qed.

Lemma discounts_sorted_by_threshold_witness :
  exists ds,
    Permutation ds
      [VolumeDiscount.mk 10 0.25; VolumeDiscount.mk 10 5;
       VolumeDiscount.mk 100 0.5].
Proof.
  destruct (discounts_sorted_by_threshold Decimal.float_of_str []
      [ [("Min Units (Relative)", "100"); ("Discount % (as decimal)", "0.5")];
        [("Min Units (Relative)", "10"); ("Discount % (as decimal)", "0.25")];
        [("Min Units (Relative)", "10"); ("Discount % (as decimal)", "5%")] ]
      [] []
      (mkParsed [] [VolumeDiscount.mk 10 0.25; VolumeDiscount.mk 10 5;
                    VolumeDiscount.mk 100 0.5] [] [] []))
    as (ds & _ & _ & Hperm & _).
  - vm_compute. reflexivity.
  - exists ds. exact Hperm.
Defined.

End SortDiscounts.

(* ================================================================= *)
(** ** The volume discount as a function of the table and of the volume *)

Module FloatOrderMore.

Lemma SF_leb_ordered_r x y : SFleb x y = true -> SFleb y y = true.
Proof. FloatOrder.sf_order. Qed.

Lemma SF_ltb_trans x y z :
  SFltb x y = true -> SFltb y z = true -> SFltb x z = true.
Proof. FloatOrder.sf_order. Qed.

Lemma SF_antisym_pos x y :
  SFltb (S754_zero false) x = true ->
  SFleb x y = true -> SFleb y x = true -> x = y.
Proof. FloatOrder.sf_order. Qed.

Open Scope float_scope.

Lemma leb_ordered_r x y : (x <=? y) = true -> (y <=? y) = true.
Proof. rewrite !leb_spec. apply SF_leb_ordered_r. Qed.

Lemma ltb_trans x y z : (x <? y) = true -> (y <? z) = true -> (x <? z) = true.
Proof. rewrite !ltb_spec. apply SF_ltb_trans. Qed.

(** Above zero, the order of floats is antisymmetric up to equality of the
    values themselves (at zero it is not: 0.0 and -0.0 compare equal). *)
Lemma antisym_pos x y :
  (0 <? x) = true -> (x <=? y) = true -> (y <=? x) = true -> x = y.
Proof.
  rewrite ltb_spec, !leb_spec. intros H0 Hxy Hyx.
  apply Prim2SF_inj. apply SF_antisym_pos; assumption.
Qed.

End FloatOrderMore.

Section DiscountTable.
Open Scope float_scope.

(** The running value is the start value or a qualifying fraction strictly
    above it. *)
Lemma fold_discount_origin_strict r ds : forall best,
  fold_left (discount_step r) ds best = best
  \/ exists d, In d ds /\ (VolumeDiscount.min_units d <=? r) = true
               /\ (best <? VolumeDiscount.discount_decimal d) = true
               /\ VolumeDiscount.discount_decimal d
                  = fold_left (discount_step r) ds best.
Proof.
  induction ds as [|d ds IH]; intros best; simpl; auto.
  destruct (discount_step_keep_or_take r best d) as [E' | (Hq & Hlt & E')];
    rewrite E'.
  - destruct (IH best) as [E | (d' & Hin & Hq' & Hlt' & E)]; [left; exact E |].
    right. exists d'. auto.
  - destruct (IH (VolumeDiscount.discount_decimal d))
      as [E | (d' & Hin & Hq' & Hlt' & E)].
    + right. exists d. rewrite E. auto.
    + right. exists d'. repeat split; auto.
      eapply FloatOrderMore.ltb_trans; eassumption.
Qed.

Lemma select_discount_not_nan ds r :
  (select_discount ds r <=? select_discount ds r) = true.
Proof.
  apply FloatOrderMore.leb_ordered_r with 0.
  apply fold_discount_ge. reflexivity.
Qed.

(** A table whose tiers are all in another one gives no larger a discount. *)
Lemma select_discount_incl ds ds' r r' :
  (forall d, In d ds -> (VolumeDiscount.min_units d <=? r) = true ->
             In d ds' /\ (VolumeDiscount.min_units d <=? r') = true) ->
  (select_discount ds r <=? select_discount ds' r') = true.
Proof.
  intros Hincl. unfold select_discount at 1.
  destruct (fold_discount_origin r ds 0) as [E | (d & Hin & Hq & E)].
  - rewrite E. apply fold_discount_ge. reflexivity.
  - rewrite <- E. destruct (Hincl d Hin Hq) as [Hin' Hq'].
    apply FloatOrder.not_ltb_leb.
    + apply select_discount_not_nan.
    + rewrite E. apply (select_discount_not_nan ds r).
    + apply fold_discount_upper; auto.
Qed.

End DiscountTable.

(** X8 (_calculate_sku_quote, the discount loop): the volume discount never
    goes down when the volume goes up: for one table, more relative units
    qualify for at least the discount of fewer. *)
Theorem select_discount_monotone ds r1 r2 :
  (r1 <=? r2)%float = true ->
  (select_discount ds r1 <=? select_discount ds r2)%float = true.
Proof.
  intros Hr. apply select_discount_incl. intros d Hin Hq. split; [exact Hin |].
  eapply FloatOrder.leb_trans; eassumption.
Qed.

Lemma select_discount_monotone_witness :
  (select_discount
     [VolumeDiscount.mk 10 0.25; VolumeDiscount.mk 100 0.5] 20
   <=? select_discount
         [VolumeDiscount.mk 10 0.25; VolumeDiscount.mk 100 0.5] 200)%float
  = true.
Proof.
  apply (select_discount_monotone
           [VolumeDiscount.mk 10 0.25; VolumeDiscount.mk 100 0.5] 20 200).
  reflexivity.
Defined.

(** X9 (_calculate_sku_quote, the discount loop; refresh_once, the sorted()
    of the discount rows): the volume discount depends on which tiers the
    table holds, not on their order nor on how often one is listed: two tables
    with the same tiers give the same discount at every volume.  The order
    in which a refresh stores the tiers is therefore of no consequence for
    a price. *)
Theorem select_discount_order_free ds ds' r :
  (forall d, In d ds <-> In d ds') ->
  select_discount ds r = select_discount ds' r.
Proof.
  intros Hsame.
  assert (Hle : (select_discount ds r <=? select_discount ds' r)%float = true)
    by (apply select_discount_incl; intros d Hin Hq; split;
        [apply Hsame; exact Hin | exact Hq]).
  assert (Hge : (select_discount ds' r <=? select_discount ds r)%float = true)
    by (apply select_discount_incl; intros d Hin Hq; split;
        [apply Hsame; exact Hin | exact Hq]).
  unfold select_discount in *.
  destruct (fold_discount_origin_strict r ds 0%float)
    as [E | (d & Hin & Hq & Hlt & E)];
    destruct (fold_discount_origin_strict r ds' 0%float)
      as [E' | (d' & Hin' & Hq' & Hlt' & E')].
  - congruence.
  - rewrite E in Hge. rewrite <- E' in Hge.
    rewrite (FloatOrder.ltb_not_leb _ _ Hlt') in Hge. discriminate Hge.
  - rewrite E' in Hle. rewrite <- E in Hle.
    rewrite (FloatOrder.ltb_not_leb _ _ Hlt) in Hle. discriminate Hle.
  - apply FloatOrderMore.antisym_pos; [| exact Hle | exact Hge].
    rewrite <- E. exact Hlt.
Qed.

Lemma select_discount_order_free_witness :
  select_discount
    [VolumeDiscount.mk 100 0.5; VolumeDiscount.mk 10 0.25] 200%float
  = select_discount
      [VolumeDiscount.mk 10 0.25; VolumeDiscount.mk 100 0.5;
       VolumeDiscount.mk 10 0.25] 200%float.
Proof.
  apply select_discount_order_free. intros d. simpl. tauto.
Defined.

(* ================================================================= *)
(** ** How a quote fails, and what a quote names *)

Section QuoteOutcome.
Open Scope float_scope.
Variable store : DataStore.

Lemma resolve_uplifts_raises uplift_names e :
  _resolve_uplifts store uplift_names = Raise e ->
  exists missing, e = HTTPException 400 (Unknown_uplifts missing).
Proof.
  unfold _resolve_uplifts. destruct uplift_names as [names|]; [| discriminate].
  destruct (missing_names store names) as [|m ms] eqn:E.
  - destruct (traverse_lookup store names E) as (sel & -> & _). discriminate.
  - intros H. injection H as <-. eauto.
Qed.

(** A SKU quote fails for an unknown code, a SKU whose unit is zero, or an
    unknown uplift; when it succeeds it carries the code of the SKU found. *)
Lemma calculate_sku_quote_outcome sku_code quantity uplift_names :
  match _calculate_sku_quote store sku_code quantity uplift_names with
  | Ok q =>
      exists sku, Dict.get sku_code (skus store) = Some sku
                  /\ SkuQuote.sku_code q = SKU.sku_code sku
  | Raise e =>
      (e = HTTPException 404 (Unknown_sku_code sku_code)
       /\ Dict.contains sku_code (skus store) = false)
      \/ (e = ZeroDivisionError
          /\ exists sku, Dict.get sku_code (skus store) = Some sku
                         /\ (SKU.unit sku =? 0) = true)
      \/ (exists missing, e = HTTPException 400 (Unknown_uplifts missing))
  end.
Proof.
  unfold _calculate_sku_quote, Dict.contains.
  destruct (Dict.get sku_code (skus store)) as [sku|]; [| left; auto].
  unfold PyFloat.div. destruct (SKU.unit sku =? 0) eqn:Ez; simpl.
  - right. left. eauto.
  - destruct (_resolve_uplifts store uplift_names) as [sel|e] eqn:Er; simpl.
    + eauto.
    + right. right. eapply resolve_uplifts_raises; eassumption.
Qed.

Lemma use_case_line_outcome use_case hours uplift_names item :
  match use_case_line store use_case hours uplift_names item with
  | Ok None => True
  | Ok (Some l) =>
      Line.sku_code l = fst item
      /\ Dict.contains (fst item) (skus store) = true
  | Raise e => line_failure store e
  end.
Proof.
  destruct item as [code per]. unfold use_case_line.
  destruct (Dict.get_default use_case 0 per * hours <=? 0); [exact I |].
  destruct (Dict.contains code (skus store)) eqn:Ec; simpl; [| exact I].
  pose proof (calculate_sku_quote_outcome code
                (Dict.get_default use_case 0 per * hours) uplift_names) as H.
  destruct (_calculate_sku_quote store code
              (Dict.get_default use_case 0 per * hours) uplift_names)
    as [q|e]; simpl.
  - auto.
  - destruct H as [[_ H] | [[-> H] | H]].
    + congruence.
    + left. split; [reflexivity |]. exists code. exact H.
    + right. exact H.
Qed.

Lemma use_case_loop_outcome use_case hours uplift_names items :
  forall breakdown total,
  match use_case_loop store use_case hours uplift_names items breakdown total
  with
  | Ok (lines, _) =>
      exists kept,
        lines = breakdown ++ kept
        /\ (forall l, In l kept ->
                      Dict.contains (Line.sku_code l) (skus store) = true
                      /\ In (Line.sku_code l) (map fst items))
        /\ (NoDup (map fst items) -> NoDup (map Line.sku_code kept))
  | Raise e => line_failure store e
  end.
Proof.
  induction items as [|item items IH]; intros breakdown total.
  - simpl. exists []. rewrite app_nil_r. split; [reflexivity |].
    split; [intros l [] | constructor].
  - cbn [use_case_loop].
    pose proof (use_case_line_outcome use_case hours uplift_names item) as Hl.
    destruct (use_case_line store use_case hours uplift_names item)
      as [[l|]|e]; cbn [bind]; [| | exact Hl].
    + specialize (IH (breakdown ++ [l]) (total + Line.cost_usd l)).
      destruct (use_case_loop store use_case hours uplift_names items
                  (breakdown ++ [l]) (total + Line.cost_usd l))
        as [[lines t]|e]; [| exact IH].
      destruct IH as (kept & -> & Hin & Hnd). destruct Hl as [Hcode Hsku].
      exists (l :: kept). rewrite <- app_assoc. split; [reflexivity |]. split.
      * intros l' [<- | Hl'].
        -- split; [rewrite Hcode; exact Hsku | left; symmetry; exact Hcode].
        -- destruct (Hin l' Hl') as [H1 H2]. split; [exact H1 | right; exact H2].
      * intros Hitems. inversion Hitems as [|? ? Hfresh Hrest]; subst.
        simpl. constructor; [| apply Hnd; exact Hrest].
        rewrite Hcode. intros Hdup. apply Hfresh.
        apply in_map_iff in Hdup. destruct Hdup as (l' & <- & Hl').
        apply (Hin l' Hl').
    + specialize (IH breakdown total).
      destruct (use_case_loop store use_case hours uplift_names items
                  breakdown total) as [[lines t]|e]; [| exact IH].
      destruct IH as (kept & -> & Hin & Hnd).
      exists kept. split; [reflexivity |]. split.
      * intros l' Hl'. destruct (Hin l' Hl') as [H1 H2].
        split; [exact H1 | right; exact H2].
      * intros Hitems. inversion Hitems; subst. auto.
Qed.

End QuoteOutcome.

(** X10 (quote, _calculate_sku_quote, _resolve_uplifts): how a quote on a
    snapshot can fail.  It raises a 400, or a 404 for the requested code of a
    SKU request when the SKU set lacks that code, or ZeroDivisionError when
    the snapshot holds a SKU whose unit is zero; it never raises KeyError: the
    lookups of uplifts by name come after the check that all names are known.
    A use-case request never gets a 404: entries of unknown SKUs are skipped. *)
Theorem quote_failures store payload e :
  quote_on_snapshot store payload = Raise e ->
  (exists d, e = HTTPException 400 d)
  \/ (exists code,
        e = HTTPException 404 (Unknown_sku_code code)
        /\ QuoteRequest.mode payload = "sku"
        /\ QuoteRequest.sku_code payload = Some code
        /\ Dict.contains code (skus store) = false)
  \/ (e = ZeroDivisionError
      /\ exists code sku, Dict.get code (skus store) = Some sku
                          /\ (SKU.unit sku =? 0)%float = true).
Proof.
  unfold quote_on_snapshot.
  destruct (String.eqb (QuoteRequest.mode payload) "sku") eqn:Em.
  - apply String.eqb_eq in Em.
    destruct (QuoteRequest.sku_code payload) as [[|c code]|] eqn:Ec;
      [intros [= <-]; eauto | | intros [= <-]; eauto].
    destruct (QuoteRequest.quantity payload) as [quantity|];
      [| intros [= <-]; eauto].
    destruct (quantity <=? 0)%float; [intros [= <-]; eauto |].
    pose proof (calculate_sku_quote_outcome store (String c code) quantity
                  (QuoteRequest.uplift_names payload)) as H.
    destruct (_calculate_sku_quote store (String c code) quantity
                (QuoteRequest.uplift_names payload)) as [q|e'];
      simpl; [discriminate |].
    intros [= <-]. destruct H as [[-> H] | [[-> H] | [missing ->]]].
    + right. left. exists (String c code). auto.
    + right. right. split; [reflexivity |]. exists (String c code). exact H.
    + left. eauto.
  - destruct (String.eqb (QuoteRequest.mode payload) "use_case");
      [| intros [= <-]; eauto].
    destruct (QuoteRequest.use_case payload) as [[|c use_case]|];
      [intros [= <-]; eauto | | intros [= <-]; eauto].
    destruct (existsb (String.eqb (String c use_case)) (use_cases store));
      simpl; [| intros [= <-]; eauto].
    destruct (QuoteRequest.hours payload) as [hours|];
      [| intros [= <-]; eauto].
    destruct (hours <=? 0)%float; [intros [= <-]; eauto |].
    pose proof (use_case_loop_outcome store (String c use_case) hours
                  (QuoteRequest.uplift_names payload)
                  (Dict.items (use_case_mappings store)) [] 0%float) as H.
    destruct (use_case_loop store (String c use_case) hours
                (QuoteRequest.uplift_names payload)
                (Dict.items (use_case_mappings store)) [] 0%float)
      as [[lines t]|e']; simpl; [discriminate |].
    intros [= <-]. destruct H as [[-> H] | [missing ->]].
    + right. right. auto.
    + left. eauto.
Qed.

Lemma quote_failures_witness :
  exists code,
    HTTPException 404 (Unknown_sku_code "SKU-Z")
    = HTTPException 404 (Unknown_sku_code code)
    /\ Dict.contains code (skus Example.store) = false.
Proof.
  destruct (quote_failures Example.store (sku_request "SKU-Z" 1%float None)
              (HTTPException 404 (Unknown_sku_code "SKU-Z")) eq_refl)
    as [(d & H) | [(code & H & _ & _ & Hc) | (H & _)]].
  - discriminate H.
  - exists code. auto.
  - discriminate H.
Defined.

(** X11 (quote, _calculate_sku_quote, with the tables as refresh_once files
    them): what a quote names.  On a snapshot whose SKUs are filed under their
    own code and whose mapping table has each code once, a SKU request that
    succeeds returns the quote of the requested code, and a use-case request
    that succeeds returns the breakdown of the requested use case, one the
    snapshot lists, in which no SKU code occurs twice and every code is both
    in the SKU set and in the mapping table. *)
Theorem quote_names_what_was_asked store payload r :
  Snapshot.skus_keyed store ->
  NoDup (Dict.keys (use_case_mappings store)) ->
  quote_on_snapshot store payload = Ok r ->
  match r with
  | SkuResponse q =>
      QuoteRequest.mode payload = "sku"
      /\ QuoteRequest.sku_code payload = Some (SkuQuote.sku_code q)
  | UseCaseResponse q =>
      QuoteRequest.mode payload = "use_case"
      /\ QuoteRequest.use_case payload = Some (UseCaseQuote.use_case q)
      /\ QuoteRequest.hours payload = Some (UseCaseQuote.hours q)
      /\ In (UseCaseQuote.use_case q) (use_cases store)
      /\ NoDup (map Line.sku_code (UseCaseQuote.breakdown q))
      /\ forall l, In l (UseCaseQuote.breakdown q) ->
                   Dict.contains (Line.sku_code l) (skus store) = true
                   /\ Dict.contains (Line.sku_code l) (use_case_mappings store)
                      = true
  end.
Proof.
  intros [_ Hkey] Hnd. unfold quote_on_snapshot.
  destruct (String.eqb (QuoteRequest.mode payload) "sku") eqn:Em.
  - apply String.eqb_eq in Em.
    destruct (QuoteRequest.sku_code payload) as [[|c code]|] eqn:Ec;
      [discriminate | | discriminate].
    destruct (QuoteRequest.quantity payload) as [quantity|]; [| discriminate].
    destruct (quantity <=? 0)%float; [discriminate |].
    pose proof (calculate_sku_quote_outcome store (String c code) quantity
                  (QuoteRequest.uplift_names payload)) as H.
    destruct (_calculate_sku_quote store (String c code) quantity
                (QuoteRequest.uplift_names payload)) as [q|e'];
      simpl; [| discriminate].
    intros H'. apply Ok_inj in H'. subst r.
    destruct H as (sku & Hget & ->). rewrite (Hkey _ _ Hget). auto.
  - destruct (String.eqb (QuoteRequest.mode payload) "use_case") eqn:Em';
      [| discriminate].
    apply String.eqb_eq in Em'.
    destruct (QuoteRequest.use_case payload) as [[|c use_case]|];
      [discriminate | | discriminate].
    destruct (existsb (String.eqb (String c use_case)) (use_cases store))
      eqn:Eu; simpl; [| discriminate].
    destruct (QuoteRequest.hours payload) as [hours|]; [| discriminate].
    destruct (hours <=? 0)%float; [discriminate |].
    pose proof (use_case_loop_outcome store (String c use_case) hours
                  (QuoteRequest.uplift_names payload)
                  (Dict.items (use_case_mappings store)) [] 0%float) as H.
    destruct (use_case_loop store (String c use_case) hours
                (QuoteRequest.uplift_names payload)
                (Dict.items (use_case_mappings store)) [] 0%float)
      as [[lines t]|e']; simpl; [| discriminate].
    intros H'. apply Ok_inj in H'. subst r. simpl.
    destruct H as (kept & -> & Hin & Hdistinct). simpl.
    split; [exact Em' |]. split; [reflexivity |]. split; [reflexivity |].
    split.
    { apply existsb_exists in Eu. destruct Eu as (u & Hu & E).
      apply String.eqb_eq in E. rewrite E. exact Hu. }
    split.
    + apply (Permutation_NoDup
               (Permutation_map Line.sku_code (sort_cost_desc_perm kept))).
      apply Hdistinct. exact Hnd.
    + intros l Hl.
      apply (Permutation_in l (Permutation_sym (sort_cost_desc_perm kept)))
        in Hl.
      destruct (Hin l Hl) as [H1 H2]. split; [exact H1 |].
      apply contains_keys. exact H2.
Qed.

Lemma quote_names_what_was_asked_witness :
  match quote_on_snapshot Example.store
          (UseCaseSpec.request "Early-Stage AI Startup" 2%float None) with
  | Ok (UseCaseResponse q) =>
      NoDup (map Line.sku_code (UseCaseQuote.breakdown q))
  | _ => False
  end.
Proof.
  assert (Hs : Snapshot.skus_keyed Example.store).
  { split.
    - repeat constructor; simpl; intuition discriminate.
    - intros k a H. apply get_in in H.
      destruct H as [H | [H | []]];
        pose proof (f_equal fst H) as Hk; apply (f_equal snd) in H;
        simpl in Hk, H; subst k a; reflexivity. }
  assert (Hm : NoDup (Dict.keys (use_case_mappings Example.store)))
    by (repeat constructor; simpl; intuition discriminate).
  pose proof (quote_names_what_was_asked Example.store
                (UseCaseSpec.request "Early-Stage AI Startup" 2%float None))
    as H.
  destruct (quote_on_snapshot Example.store
              (UseCaseSpec.request "Early-Stage AI Startup" 2%float None))
    as [[q|q]|e] eqn:E.
  - vm_compute in E. discriminate E.
  - destruct (H _ Hs Hm eq_refl) as (_ & _ & _ & _ & Hnd & _). exact Hnd.
  - vm_compute in E. discriminate E.
Defined.

(* ================================================================= *)
(** ** The quote handler and the age of its snapshot *)

(** X12 (quote, ensure_fresh, refresh_once): an answer of the quote handler is
    never computed on a cache that was not loaded or is out of date.  When
    [quote] returns a response, the store it leaves carries a refresh stamp,
    the response is the quote on that store, and either the store is the one
    the call found, stamped less than 600 seconds before the time the handler
    read, or it is the snapshot a refresh installed during the call, stamped
    with the next reading of the clock. *)
Theorem quote_answers_from_fresh_snapshot float_of_str payload s w r :
  fst (DataStoreOps.quote float_of_str payload (s, w)) = Ok r ->
  quote_on_snapshot
    (fst (snd (DataStoreOps.quote float_of_str payload (s, w)))) payload
  = Ok r
  /\ exists t,
       last_refresh_utc
         (fst (snd (DataStoreOps.quote float_of_str payload (s, w)))) = Some t
       /\ ((fst (snd (DataStoreOps.quote float_of_str payload (s, w))) = s
            /\ (REFRESH_SECONDS <=? clock w (ticks w) - t)%float = false)
           \/ (t = clock w (S (ticks w))
               /\ exists p,
                    loaded float_of_str (tick w) = Ok p
                    /\ fst (snd (DataStoreOps.quote float_of_str payload
                                   (s, w)))
                       = set_last_refresh_utc (Some t) (install p s))).
Proof.
  rewrite quote_after_ensure_fresh.
  unfold DataStoreOps.ensure_fresh, bindM, time_time, get_store. simpl.
  destruct (stale (clock w (ticks w)) (last_refresh_utc s)) eqn:Es.
  - rewrite refresh_once_run.
    destruct (loaded float_of_str (tick w)) as [p|e] eqn:El; simpl;
      [| discriminate].
    intros H. split; [exact H |].
    exists (clock w (S (ticks w))). split; [reflexivity |].
    right. split; [reflexivity |]. exists p. auto.
  - simpl. intros H. split; [exact H |].
    unfold stale, PyFloat.geb in Es.
    destruct (last_refresh_utc s) as [t|]; [| discriminate Es].
    exists t. auto.
Qed.

Lemma quote_answers_from_fresh_snapshot_witness :
  exists t,
    last_refresh_utc
      (fst (snd (DataStoreOps.quote Decimal.float_of_str
                   (sku_request "SKU-A" 20%float None)
                   (init_store, ExampleWorld.up)))) = Some t.
Proof.
  pose proof (quote_answers_from_fresh_snapshot Decimal.float_of_str
                (sku_request "SKU-A" 20%float None) init_store
                ExampleWorld.up) as H.
  destruct (fst (DataStoreOps.quote Decimal.float_of_str
                   (sku_request "SKU-A" 20%float None)
                   (init_store, ExampleWorld.up))) as [r|e] eqn:E.
  - destruct (H r eq_refl) as (_ & t & Ht & _). exists t. exact Ht.
  - vm_compute in E. discriminate E.
Defined.

(* ================================================================= *)
(** ** The listing endpoints *)

Module StringOrder.

Lemma ascii_compare_spec a b :
  CompareSpec (a = b) (N_of_ascii a < N_of_ascii b)%N
              (N_of_ascii b < N_of_ascii a)%N (Ascii.compare a b).
Proof.
  unfold Ascii.compare.
  destruct (N.compare_spec (N_of_ascii a) (N_of_ascii b)) as [H|H|H];
    constructor; auto.
  rewrite <- (ascii_N_embedding a), <- (ascii_N_embedding b), H. reflexivity.
Qed.

Lemma str_leb_trans s1 : forall s2 s3,
  String.leb s1 s2 = true -> String.leb s2 s3 = true ->
  String.leb s1 s3 = true.
Proof.
  unfold String.leb.
  induction s1 as [|c1 s1 IH]; intros [|c2 s2] [|c3 s3]; simpl; auto;
    try discriminate.
  specialize (IH s2 s3).
  destruct (ascii_compare_spec c1 c2) as [E12|H12|H12];
    destruct (ascii_compare_spec c2 c3) as [E23|H23|H23];
    destruct (ascii_compare_spec c1 c3) as [H13|H13|H13];
    subst; try discriminate; auto; lia.
Qed.

Lemma str_ltb_leb s1 s2 : String.ltb s1 s2 = true -> String.leb s1 s2 = true.
Proof.
  unfold String.ltb, String.leb. destruct (String.compare s1 s2); auto.
Qed.

Lemma str_not_ltb_leb s1 s2 : String.ltb s1 s2 = false -> String.leb s2 s1 = true.
Proof.
  unfold String.ltb, String.leb. rewrite (String.compare_antisym s2 s1).
  destruct (String.compare s1 s2); simpl; auto.
Qed.

Lemma str_leb_neq_ltb s1 s2 :
  String.leb s1 s2 = true -> s1 <> s2 -> String.ltb s1 s2 = true.
Proof.
  unfold String.ltb, String.leb. intros H Hne.
  destruct (String.compare s1 s2) eqn:E; auto.
  apply String.compare_eq_iff in E. contradiction.
Qed.

End StringOrder.

Section SortedByKey.
Variable A : Type.
Variable key : A -> string.

Local Abbreviation insert_by := (Listing.insert_by key).
Local Abbreviation sorted_by := (Listing.sorted_by key).
Local Abbreviation ascending :=
  (StronglySorted (fun a b => String.leb (key a) (key b) = true)).

Lemma insert_by_perm x l : Permutation (x :: l) (insert_by x l).
Proof.
  induction l as [|y l IH]; simpl.
  - apply Permutation_refl.
  - destruct (String.ltb (key y) (key x)).
    + apply perm_trans with (y :: x :: l); [apply perm_swap |].
      apply perm_skip. exact IH.
    + apply Permutation_refl.
Qed.

Lemma sorted_by_perm l : Permutation l (sorted_by l).
Proof.
  induction l as [|x l IH]; simpl.
  - apply perm_nil.
  - apply perm_trans with (x :: sorted_by l).
    + apply perm_skip. exact IH.
    + apply insert_by_perm.
Qed.

Lemma insert_by_sorted x l : ascending l -> ascending (insert_by x l).
Proof.
  intros Hs. induction Hs as [|y l Hs IH Hy]; simpl.
  - constructor; constructor.
  - destruct (String.ltb (key y) (key x)) eqn:E.
    + constructor; [exact IH |].
      apply (Permutation_Forall (insert_by_perm x l)).
      constructor; [apply StringOrder.str_ltb_leb; exact E | exact Hy].
    + apply StringOrder.str_not_ltb_leb in E.
      constructor; [constructor; assumption |].
      constructor; [exact E |].
      eapply Forall_impl; [| exact Hy]. simpl. intros z Hz.
      eapply StringOrder.str_leb_trans; eassumption.
Qed.

Lemma sorted_by_sorted l : ascending (sorted_by l).
Proof.
  induction l as [|x l IH]; simpl; [constructor |].
  apply insert_by_sorted. exact IH.
Qed.

(** With pairwise distinct keys the order is strict. *)
Lemma ascending_strict l :
  NoDup (map key l) -> ascending l ->
  StronglySorted (fun a b => String.ltb (key a) (key b) = true) l.
Proof.
  intros Hnd Hs. induction Hs as [|a l Hs IH Ha]; [constructor |].
  simpl in Hnd. inversion Hnd as [|? ? Hfresh Hrest]; subst.
  constructor; [apply IH; exact Hrest |].
  rewrite Forall_forall in *. intros b Hb.
  apply StringOrder.str_leb_neq_ltb; [apply Ha; exact Hb |].
  intros E. apply Hfresh. rewrite E. apply in_map. exact Hb.
Qed.

(** The values of a table filed by [key], listed in key order. *)
Lemma keyed_values (d : Dict.t A) :
  Snapshot.keyed key d -> map key (Dict.values d) = Dict.keys d.
Proof.
  intros [Hnd Hk]. unfold Dict.values, Dict.keys. rewrite map_map.
  apply map_ext_in. intros [k a] Hin. simpl.
  apply Hk. apply get_in_nodup; assumption.
Qed.

Lemma keyed_listing (d : Dict.t A) :
  Snapshot.keyed key d ->
  StronglySorted (fun a b => String.ltb (key a) (key b) = true)
                 (sorted_by (Dict.values d))
  /\ List.length (sorted_by (Dict.values d)) = List.length d
  /\ forall a, In a (sorted_by (Dict.values d))
               <-> Dict.get (key a) d = Some a.
Proof.
  intros Hd. pose proof Hd as [Hnd Hk]. split; [| split].
  - apply ascending_strict; [| apply sorted_by_sorted].
    apply (Permutation_NoDup
             (Permutation_map key (sorted_by_perm (Dict.values d)))).
    rewrite keyed_values by exact Hd. exact Hnd.
  - rewrite <- (Permutation_length (sorted_by_perm (Dict.values d))).
    unfold Dict.values. apply length_map.
  - intros a. split.
    + intros Hin.
      apply (Permutation_in a (Permutation_sym (sorted_by_perm _))) in Hin.
      unfold Dict.values in Hin. apply in_map_iff in Hin.
      destruct Hin as ([k a'] & E & Hin). simpl in E. subst a'.
      pose proof (get_in_nodup _ _ _ _ Hnd Hin) as Hget.
      rewrite (Hk _ _ Hget). exact Hget.
    + intros Hget. apply (Permutation_in a (sorted_by_perm _)).
      apply get_in in Hget. unfold Dict.values.
      apply in_map_iff. exists (key a, a). auto.
Qed.

End SortedByKey.

Lemma strongly_sorted_map (A B : Type) (f : A -> B) (R : B -> B -> Prop)
      (l : list A) :
  StronglySorted (fun a b => R (f a) (f b)) l -> StronglySorted R (map f l).
Proof.
  induction 1 as [|a l Hs IH Ha]; simpl; constructor; [exact IH |].
  rewrite Forall_forall in *. intros b Hb. apply in_map_iff in Hb.
  destruct Hb as (a' & <- & Ha'). apply Ha. exact Ha'.
Qed.

(** X13 (get_skus, health; with _calculate_sku_quote): the answer of [/skus]
    on a snapshot whose SKUs are filed under their own code lists every SKU
    of the snapshot once, in strictly ascending order of code; it has as many
    elements as [/health] counts SKUs; and an element is listed exactly when
    looking its code up in the SKU set gives the SKU it was made from, so that
    every listed code is one a quote accepts. *)
Theorem skus_listing_ordered_and_complete s :
  Snapshot.skus_keyed s ->
  StronglySorted
    (fun a b => String.ltb (SkuItem.sku_code a) (SkuItem.sku_code b) = true)
    (Handlers.skus_listing s)
  /\ List.length (Handlers.skus_listing s)
     = Health.sku_count (Handlers.health_of s)
  /\ (forall item,
        In item (Handlers.skus_listing s)
        <-> exists sku, Dict.get (SkuItem.sku_code item) (skus s) = Some sku
                        /\ item = Handlers.sku_item sku)
  /\ forall item quantity uplift_names,
       In item (Handlers.skus_listing s) ->
       forall code,
         _calculate_sku_quote s (SkuItem.sku_code item) quantity uplift_names
         <> Raise (HTTPException 404 (Unknown_sku_code code)).
Proof.
  intros Hs. destruct (keyed_listing _ _ _ Hs) as (Hsorted & Hlen & Hin).
  assert (Hitem : forall item,
             In item (Handlers.skus_listing s)
             <-> exists sku, Dict.get (SkuItem.sku_code item) (skus s) = Some sku
                             /\ item = Handlers.sku_item sku).
  { intros item. unfold Handlers.skus_listing. rewrite in_map_iff. split.
    - intros (sku & <- & Hsku). exists sku. split; [| reflexivity].
      apply Hin. exact Hsku.
    - intros (sku & Hget & ->). exists sku. split; [reflexivity |].
      apply Hin. simpl in Hget. exact Hget. }
  split; [| split; [| split]].
  - unfold Handlers.skus_listing.
    apply (strongly_sorted_map _ _ Handlers.sku_item
             (fun a b => String.ltb (SkuItem.sku_code a) (SkuItem.sku_code b)
                         = true)).
    exact Hsorted.
  - unfold Handlers.skus_listing. rewrite length_map. exact Hlen.
  - exact Hitem.
  - intros item quantity uplift_names Hl code.
    apply Hitem in Hl. destruct Hl as (sku & Hget & _).
    unfold _calculate_sku_quote. rewrite Hget.
    unfold PyFloat.div. destruct (SKU.unit sku =? 0)%float; simpl;
      [discriminate |].
    pose proof (resolve_uplifts_raises s uplift_names) as Hr.
    destruct (_resolve_uplifts s uplift_names) as [sel|e]; simpl;
      [discriminate |].
    destruct (Hr e eq_refl) as (missing & ->). discriminate.
Qed.

Lemma example_store_keyed :
  Snapshot.skus_keyed Example.store /\ Snapshot.uplifts_keyed Example.store.
Proof.
  split; split.
  - repeat constructor; simpl; intuition discriminate.
  - intros k a H. apply get_in in H.
    destruct H as [H | [H | []]];
      pose proof (f_equal fst H) as Hk; apply (f_equal snd) in H;
      simpl in Hk, H; subst k a; reflexivity.
  - repeat constructor; simpl; intuition discriminate.
  - intros k a H. apply get_in in H.
    destruct H as [H | []];
      pose proof (f_equal fst H) as Hk; apply (f_equal snd) in H;
      simpl in Hk, H; subst k a; reflexivity.
Qed.

Lemma skus_listing_ordered_and_complete_witness :
  List.length (Handlers.skus_listing Example.store) = 2
  /\ forall item,
       In item (Handlers.skus_listing Example.store)
       <-> exists sku,
             Dict.get (SkuItem.sku_code item) (skus Example.store) = Some sku
             /\ item = Handlers.sku_item sku.
Proof.
  destruct (skus_listing_ordered_and_complete Example.store
              (proj1 example_store_keyed)) as (_ & Hlen & Hin & _).
  split; [exact Hlen | exact Hin].
Defined.

Lemma permutation_filter (A : Type) (f : A -> bool) (l l' : list A) :
  Permutation l l' -> Permutation (filter f l) (filter f l').
Proof.
  induction 1 as [| x l l' H IH | x y l | l l' l'' H1 IH1 H2 IH2]; simpl.
  - constructor.
  - destruct (f x); [constructor |]; exact IH.
  - destruct (f x), (f y); try apply Permutation_refl. apply perm_swap.
  - eapply perm_trans; eassumption.
Qed.

Lemma filter_map_swap (A B : Type) (g : A -> B) (f : B -> bool) (l : list A) :
  filter f (map g l) = map g (filter (fun a => f (g a)) l).
Proof.
  induction l as [|a l IH]; simpl; [reflexivity |].
  destruct (f (g a)); simpl; rewrite IH; reflexivity.
Qed.

(** X14 (get_uplifts, health; with _resolve_uplifts): the answer of
    [/uplifts] on a snapshot whose uplifts are filed under their own name
    lists every uplift once, in strictly ascending order of name, as many as
    [/health] counts.  The uplifts a quote applies when the request names none
    are, up to order, the listed ones marked enabled, and every listed name is
    one a quote accepts when the request names it. *)
Theorem uplifts_listing_ordered_and_complete s :
  Snapshot.uplifts_keyed s ->
  StronglySorted
    (fun a b =>
       String.ltb (UpliftItem.uplift_name a) (UpliftItem.uplift_name b) = true)
    (Handlers.uplifts_listing s)
  /\ List.length (Handlers.uplifts_listing s)
     = Health.uplift_count (Handlers.health_of s)
  /\ (forall item,
        In item (Handlers.uplifts_listing s)
        <-> exists u,
              Dict.get (UpliftItem.uplift_name item) (uplifts s) = Some u
              /\ item = Handlers.uplift_item u)
  /\ (exists selected,
        _resolve_uplifts s None = Ok selected
        /\ Permutation (map Handlers.uplift_item selected)
                       (filter UpliftItem.enabled (Handlers.uplifts_listing s)))
  /\ forall item,
       In item (Handlers.uplifts_listing s) ->
       exists u,
         _resolve_uplifts s (Some [UpliftItem.uplift_name item]) = Ok [u]
         /\ item = Handlers.uplift_item u.
Proof.
  intros Hs. destruct (keyed_listing _ _ _ Hs) as (Hsorted & Hlen & Hin).
  assert (Hitem : forall item,
             In item (Handlers.uplifts_listing s)
             <-> exists u,
                   Dict.get (UpliftItem.uplift_name item) (uplifts s) = Some u
                   /\ item = Handlers.uplift_item u).
  { intros item. unfold Handlers.uplifts_listing. rewrite in_map_iff. split.
    - intros (u & <- & Hu). exists u. split; [| reflexivity].
      apply Hin. exact Hu.
    - intros (u & Hget & ->). exists u. split; [reflexivity |].
      apply Hin. simpl in Hget. exact Hget. }
  split; [| split; [| split; [| split]]].
  - unfold Handlers.uplifts_listing.
    apply (strongly_sorted_map _ _ Handlers.uplift_item
             (fun a b => String.ltb (UpliftItem.uplift_name a)
                                    (UpliftItem.uplift_name b) = true)).
    exact Hsorted.
  - unfold Handlers.uplifts_listing. rewrite length_map. exact Hlen.
  - exact Hitem.
  - exists (filter Uplift.enabled (Dict.values (uplifts s))).
    split; [reflexivity |].
    unfold Handlers.uplifts_listing. rewrite filter_map_swap. simpl.
    apply Permutation_map. apply permutation_filter.
    apply sorted_by_perm.
  - intros item Hl. apply Hitem in Hl. destruct Hl as (u & Hget & ->).
    exists u. split; [| reflexivity].
    simpl in *. unfold _resolve_uplifts, missing_names. simpl.
    unfold Dict.contains. rewrite !Hget. reflexivity.
Qed.

Lemma uplifts_listing_ordered_and_complete_witness :
  List.length (Handlers.uplifts_listing Example.store) = 1
  /\ exists selected,
       _resolve_uplifts Example.store None = Ok selected
       /\ Permutation (map Handlers.uplift_item selected)
                      (filter UpliftItem.enabled
                              (Handlers.uplifts_listing Example.store)).
Proof.
  destruct (uplifts_listing_ordered_and_complete Example.store
              (proj2 example_store_keyed)) as (_ & Hlen & _ & Hsel & _).
  split; [exact Hlen | exact Hsel].
Defined.

(** The four read handlers answer from the snapshot [ensure_fresh] leaves,
    and fail as it fails. *)
Lemma handlers_answer_from_snapshot float_of_str s w :
  match DataStoreOps.ensure_fresh float_of_str (s, w) with
  | (Ok _, (s', w')) =>
      Handlers.get_skus float_of_str (s, w)
      = (Ok (Handlers.skus_listing s'), (s', w'))
      /\ Handlers.get_uplifts float_of_str (s, w)
         = (Ok (Handlers.uplifts_listing s'), (s', w'))
      /\ Handlers.get_use_cases float_of_str (s, w)
         = (Ok (use_cases s'), (s', w'))
      /\ Handlers.health float_of_str (s, w)
         = (Ok (Handlers.health_of s'), (s', w'))
  | (Raise e, sw') =>
      Handlers.get_skus float_of_str (s, w) = (Raise e, sw')
      /\ Handlers.get_uplifts float_of_str (s, w) = (Raise e, sw')
      /\ Handlers.get_use_cases float_of_str (s, w) = (Raise e, sw')
      /\ Handlers.health float_of_str (s, w) = (Raise e, sw')
  end.
Proof.
  unfold Handlers.get_skus, Handlers.get_uplifts, Handlers.get_use_cases,
    Handlers.health, bindM, get_store, ret.
  destruct (DataStoreOps.ensure_fresh float_of_str (s, w)) as [[u|e] [s' w']];
    simpl; auto.
Qed.

(* ================================================================= *)
(** ** The API key check *)

Section ApiKey.
Variable env : Dict.t string.

Local Abbreviation expected_key :=
  (PyStr.strip (match getenv env "PRICING_API_KEY" with
                | Some v => v
                | None => EmptyString
                end)).

Lemma truthy_iff s : PyStr.truthy s = true <-> s <> EmptyString.
Proof. destruct s; simpl; split; congruence. Qed.

(** X15 (require_api_key): who gets past the API key check.  A request passes
    exactly when its [x-api-key] header is, character for character, the
    configured key with the white space around it removed, that key being
    neither empty nor outside ASCII (the header itself is not stripped).  When
    the configured key is missing or blank every request is refused with
    status 500, whatever it sends; and the check ends in [TypeError] exactly
    when a key is configured, the header is not empty and one of the two has
    a character outside ASCII. *)
Theorem require_api_key_outcomes (x_api_key : option string) :
  (Auth.require_api_key env x_api_key = Auth.Passed
   <-> exists key,
         x_api_key = Some key /\ key <> EmptyString
         /\ PyStrMore.is_ascii key = true /\ key = expected_key)
  /\ ((exists detail,
         Auth.require_api_key env x_api_key = Auth.Refused 500 detail)
      <-> expected_key = EmptyString)
  /\ (Auth.require_api_key env x_api_key = Auth.TypeError
      <-> expected_key <> EmptyString
          /\ exists key,
               x_api_key = Some key /\ key <> EmptyString
               /\ PyStrMore.is_ascii key && PyStrMore.is_ascii expected_key
                  = false).
Proof.
  unfold Auth.require_api_key, Auth.compare_digest.
  destruct (PyStr.truthy expected_key) eqn:Et; simpl.
  - apply truthy_iff in Et.
    split; [| split].
    + destruct x_api_key as [key|].
      * destruct (PyStr.truthy key) eqn:Ek; simpl.
        -- apply truthy_iff in Ek.
           destruct (PyStrMore.is_ascii key) eqn:Ea; simpl.
           ++ destruct (PyStrMore.is_ascii expected_key) eqn:Ee; simpl.
              ** destruct (String.eqb key expected_key) eqn:E.
                 --- apply String.eqb_eq in E. split; [| reflexivity].
                     intros _. exists key. auto.
                 --- apply String.eqb_neq in E. split; [discriminate |].
                     intros (k & [= <-] & _ & _ & H). contradiction.
              ** split; [discriminate |].
                 intros (k & [= <-] & _ & _ & H). rewrite <- H in Ee.
                 congruence.
           ++ split; [discriminate |].
              intros (k & [= <-] & _ & H & _). congruence.
        -- split; [discriminate |].
           intros (k & [= <-] & H & _). destruct key; [congruence |].
           discriminate Ek.
      * split; [discriminate |]. intros (k & H & _). discriminate H.
    + split; [| contradiction].
      intros (detail & H). exfalso.
      destruct x_api_key as [key|]; [| discriminate H].
      destruct (PyStr.truthy key); simpl in H; [| discriminate H].
      destruct (PyStrMore.is_ascii key && PyStrMore.is_ascii expected_key);
        [| discriminate H].
      destruct (String.eqb key expected_key); discriminate H.
    + destruct x_api_key as [key|].
      * destruct (PyStr.truthy key) eqn:Ek; simpl.
        -- apply truthy_iff in Ek.
           destruct (PyStrMore.is_ascii key && PyStrMore.is_ascii expected_key)
             eqn:Ea.
           ++ split.
              ** destruct (String.eqb key expected_key); discriminate.
              ** intros (_ & k & [= <-] & _ & H). congruence.
           ++ split; [| reflexivity]. intros _. split; [exact Et |].
              exists key. auto.
        -- split; [discriminate |].
           intros (_ & k & [= <-] & H & _). destruct key; [congruence |].
           discriminate Ek.
      * split; [discriminate |]. intros (_ & k & H & _). discriminate H.
  - assert (Ee : expected_key = EmptyString)
      by (destruct expected_key; [reflexivity | discriminate Et]).
    split; [| split].
    + split; [discriminate |].
      intros (k & _ & Hk & _ & H). congruence.
    + split; [intros _; exact Ee | intros _; eauto].
    + split; [discriminate | intros [H _]; contradiction].
Qed.

End ApiKey.

(* ================================================================= *)
(** ** The path rewriting of the serverless entry point *)

Section NormalizePath.

Lemma startswith_app p : forall q s,
  PyStrMore.startswith (p ++ q)%string s = true ->
  PyStrMore.startswith p s = true.
Proof.
  induction p as [|a p IH]; intros q s; [reflexivity |].
  destruct s as [|b s]; simpl; [discriminate |].
  destruct (Ascii.eqb a b); simpl; [apply IH | discriminate].
Qed.

Lemma startswith_self p s : PyStrMore.startswith p (p ++ s)%string = true.
Proof.
  induction p as [|a p IH]; simpl; [reflexivity |].
  rewrite Ascii.eqb_refl. exact IH.
Qed.

Lemma drop_app p s : PyStrMore.drop (String.length p) (p ++ s)%string = s.
Proof. induction p as [|a p IH]; simpl; [reflexivity | exact IH]. Qed.

Lemma without_prefix_app p s :
  Index.without_prefix p (p ++ s)%string = Index.or_root s.
Proof.
  unfold Index.without_prefix. rewrite startswith_self, drop_app. reflexivity.
Qed.

Lemma without_prefix_miss p s :
  PyStrMore.startswith p s = false -> Index.without_prefix p s = s.
Proof. unfold Index.without_prefix. intros ->. reflexivity. Qed.

Lemma rooted_starts s : PyStrMore.startswith "/" (Index.rooted s) = true.
Proof.
  unfold Index.rooted.
  destruct (PyStrMore.startswith "/" s) eqn:E; [exact E | reflexivity].
Qed.

(** X16 (_normalize_path): the path handed to the application is never empty
    and always starts with a slash, whatever the request path is. *)
Theorem normalize_path_rooted path :
  PyStrMore.startswith "/" (Index._normalize_path path) = true
  /\ Index._normalize_path path <> EmptyString.
Proof.
  unfold Index._normalize_path.
  pose proof (rooted_starts
                (Index.without_prefix "/api"
                   (Index.without_prefix "/api/index.py"
                      (Index.or_root path)))) as H.
  split; [exact H |]. intros E. rewrite E in H. discriminate H.
Qed.

(** X17 (_normalize_path): a route of the application is reached under each
    of the three mounts.  For a route that starts with a slash and not with
    [/api], the path is the route itself when the request path is the route,
    the route under [/api/index.py], or, provided the route does not start
    with [/index.py], the route under [/api]; the bare mounts and the empty
    path give the root. *)
Theorem normalize_path_reaches_route route :
  PyStrMore.startswith "/" route = true ->
  PyStrMore.startswith "/api" route = false ->
  Index._normalize_path route = route
  /\ Index._normalize_path ("/api/index.py" ++ route)%string = route
  /\ (PyStrMore.startswith "/index.py" route = false ->
      Index._normalize_path ("/api" ++ route)%string = route)
  /\ Index._normalize_path "/api" = "/"
  /\ Index._normalize_path "/api/index.py" = "/"
  /\ Index._normalize_path EmptyString = "/".
Proof.
  intros Hroot Hapi.
  assert (Hlong : PyStrMore.startswith "/api/index.py" route = false).
  { destruct (PyStrMore.startswith "/api/index.py" route) eqn:E;
      [| reflexivity].
    apply (startswith_app "/api" "/index.py" route) in E. congruence. }
  assert (Hne : Index.or_root route = route).
  { destruct route; [discriminate Hroot | reflexivity]. }
  assert (Hr : Index.rooted route = route).
  { unfold Index.rooted. rewrite Hroot. reflexivity. }
  split; [| split; [| split]].
  - unfold Index._normalize_path.
    rewrite Hne, (without_prefix_miss _ _ Hlong), (without_prefix_miss _ _ Hapi).
    exact Hr.
  - unfold Index._normalize_path.
    change (Index.or_root ("/api/index.py" ++ route)%string)
      with ("/api/index.py" ++ route)%string.
    rewrite without_prefix_app, Hne, (without_prefix_miss _ _ Hapi).
    exact Hr.
  - intros Hindex.
    assert (Hmiss : PyStrMore.startswith "/api/index.py"
                      ("/api" ++ route)%string = false) by exact Hindex.
    unfold Index._normalize_path.
    change (Index.or_root ("/api" ++ route)%string)
      with ("/api" ++ route)%string.
    rewrite (without_prefix_miss _ _ Hmiss), without_prefix_app, Hne.
    exact Hr.
  - repeat split; reflexivity.
Qed.

Lemma normalize_path_reaches_route_witness :
  Index._normalize_path "/skus" = "/skus"
  /\ Index._normalize_path "/api/index.py/skus" = "/skus".
Proof.
  destruct (normalize_path_reaches_route "/skus" eq_refl eq_refl)
    as (H1 & H2 & _).
  split; [exact H1 | exact H2].
Defined.

End NormalizePath.

(* ================================================================= *)
(** ** The lock and the requests of one refresh *)

(** X18 (refresh_once): a refresh never leaves the lock held and never
    fetches part of the tables.  Whatever it returns or raises, what
    [refresh_once] adds to the trace is one acquisition of the lock, the
    requests, and one release, in this order; the requests are the four
    fetches, all issued even when one of them fails, or none at all, and
    then the refresh raises [RuntimeError] for the missing configuration. *)
Theorem refresh_once_releases_lock float_of_str s w :
  trace (snd (snd (DataStoreOps.refresh_once float_of_str (s, w))))
  = trace w ++ EvAcquire :: requests w ++ [EvRelease]
  /\ ((exists p v u m, requests w = [EvGet p; EvGet v; EvGet u; EvGet m])
      \/ (requests w = []
          /\ DataStoreOps.refresh_once float_of_str (s, w)
             = (Raise RuntimeError,
                (s, mkWorld (environ w) (http_get w) (clock w) (ticks w)
                            (trace w ++ [EvAcquire; EvRelease]))))).
Proof.
  rewrite refresh_once_run. split.
  - destruct (loaded float_of_str w); simpl; rewrite <- app_assoc; reflexivity.
  - unfold loaded, requests, log.
    destruct (DataStoreOps.read_config (environ w)) as [[[[p v] u] m]|]; simpl.
    + left. exists p, v, u, m. reflexivity.
    + right. split; [reflexivity |]. rewrite <- app_assoc. reflexivity.
Qed.
